(** * BartaAI chat client: session registry, streaming reconciliation, quota

    A shallow embedding of the state-handling code of [App.tsx] (component
    [App]) and of the chat panel (component [ChatInterface]) together with
    the properties of the specification that were checked against it.

    Conventions of the embedding.
    - A JavaScript string is the list of its UTF-16 code units, so that
      [length] and [substring] count what the engine counts.
    - React state is one record [State]; a state setter is a function on it.
      What a handler closes over (props and derived values) is read from the
      state [cl] of the render in which the handler was created and stays
      fixed while its asynchronous continuation runs; functional updates are
      applied to the state of the moment.
    - The registry [Record<string, ChatSession>] is an association list of
      its own properties in the order [Object.values] enumerates them: the
      array indices in ascending order, then the other keys in the order of
      their creation. A property read [r[k]] also finds what every object
      inherits; [obj_get] is that read, [reg_get] the read of an own
      property, which is the same for every key that names no inherited
      property, so for every id that the application makes.
    - [Date.now()] / [new Date()] read the field [now] of the state; the
      environment moves the clock between two asynchronous continuations.
    - The local midnight [setHours(0, 0, 0, 0)] is a function of the instant
      that the host supplies with its time zone.
    - The modules [constants.ts] and [types.ts] are not part of the sources
      at hand: the constants are the fields of the record [Constants]. *)

From Stdlib Require Import ZArith NArith String Ascii DecimalString Sorted.
From stdpp Require Import base decidable option list gmap.

Local Open Scope Z_scope.

(** ** Strings *)

Abbreviation jsstring := (list N).

(** The code units of an ASCII literal. *)
Definition js (s : string) : jsstring :=
  map N_of_ascii (list_ascii_of_string s).

(** [ToBoolean] on a string: only the empty string is falsy. *)
Definition truthy (s : jsstring) : bool :=
  match s with [] => false | _ :: _ => true end.

(** [o || d] for a possibly missing string [o]. *)
Definition or_else (o : option jsstring) (d : jsstring) : jsstring :=
  match o with
  | Some s => if truthy s then s else d
  | None => d
  end.

(** Truthiness of [string | null | undefined]. *)
Definition truthy_opt (o : option jsstring) : bool :=
  match o with Some s => truthy s | None => false end.

(** [s.substring(0, n)]. *)
Definition substring0 (n : nat) (s : jsstring) : jsstring := take n s.

Fixpoint startsWith (p s : jsstring) : bool :=
  match p, s with
  | [], _ => true
  | _ :: _, [] => false
  | a :: p', b :: s' => (a =? b)%N && startsWith p' s'
  end.

(** [s.includes(p)]. *)
Fixpoint includes (p s : jsstring) : bool :=
  startsWith p s ||
  match s with
  | [] => false
  | _ :: s' => includes p s'
  end.

(** [s.endsWith(p)]. *)
Definition endsWith (p s : jsstring) : bool :=
  startsWith (rev p) (rev s).

(** WhiteSpace and LineTerminator code units, the ones [trim] strips. *)
Definition isWhiteSpace (c : N) : bool :=
  ((9 <=? c) && (c <=? 13) || (c =? 32) || (c =? 160) || (c =? 5760)
   || (8192 <=? c) && (c <=? 8202) || (c =? 8232) || (c =? 8233)
   || (c =? 8239) || (c =? 8287) || (c =? 12288) || (c =? 65279))%N.

Fixpoint trimStart (s : jsstring) : jsstring :=
  match s with
  | c :: s' => if isWhiteSpace c then trimStart s' else s
  | [] => []
  end.

Definition trim (s : jsstring) : jsstring :=
  rev (trimStart (rev (trimStart s))).

(** [n.toString()] for an integral number. *)
Definition Number_toString (z : Z) : jsstring :=
  js (NilZero.string_of_int (Z.to_int z)).

(** ** types.ts *)

Inductive Sender := SenderUser | SenderAI.
Inductive ModelType := B1_REGULAR | B2_CODING.

Global Instance Sender_eq_dec : EqDecision Sender.
Proof. solve_decision. Defined.
Global Instance ModelType_eq_dec : EqDecision ModelType.
Proof. solve_decision. Defined.

Record ChatMessage := mkMessage {
  msg_id : jsstring;
  msg_text : jsstring;
  msg_sender : Sender;
  msg_timestamp : Z;
  msg_imageUrl : option jsstring;
  msg_isImageQuery : option bool;
  msg_generatedImage : option jsstring;
  msg_modelUsed : option ModelType
}.

Record ChatSession := mkSession {
  ses_id : jsstring;
  ses_title : jsstring;
  ses_messages : list ChatMessage;
  ses_model : ModelType;
  ses_timestamp : Z;
  ses_systemInstruction : jsstring
}.

(** The signed-in user ([User] is [null] when signed out). *)
Record FirebaseUser := mkUser {
  uid : jsstring;
  displayName : option jsstring;
  email : option jsstring;
  photoURL : option jsstring
}.

(** [count] generations, the last one at [lastGeneratedAt] (milliseconds). *)
Record UserImageGenerationData := mkGenData {
  count : Z;
  lastGeneratedAt : Z
}.

(** An exception value; only [e.message] is inspected. *)
Record JsError := mkError { err_message : option jsstring }.

(** ** constants.ts *)

Record Constants := mkConstants {
  DEFAULT_MODEL_TYPE : ModelType;
  GEMINI_TEXT_MODEL_FLASH : jsstring;
  DEFAULT_CHAT_TITLE_BN : jsstring;
  INITIAL_WELCOME_MESSAGE_BN : jsstring;
  SYSTEM_INSTRUCTION_B1_BN : jsstring;
  SYSTEM_INSTRUCTION_B2_BN : jsstring;
  ERROR_API_KEY_MISSING_BN : jsstring;
  ERROR_INIT_FAILED_BN : jsstring;
  ERROR_SEND_FAILED_BN : jsstring;
  ERROR_API_KEY_INVALID_BN : jsstring;
  ERROR_NO_INPUT_BN : jsstring;
  ERROR_SESSION_NOT_READY_BN : jsstring;
  IMAGE_QUERY_PROMPT_DEFAULT_BN : jsstring;
  IMAGE_GENERATION_IN_PROGRESS_BN : jsstring;
  IMAGE_GENERATION_FAILED_BN : jsstring;
  IMAGE_LIMIT_REACHED_BN : jsstring;
  IMAGE_GENERATION_LOGIN_REQUIRED_BN : jsstring;
  DAILY_IMAGE_GENERATION_LIMIT : Z
}.

(** ** The session registry as a JavaScript object *)

Abbreviation registry := (list (jsstring * ChatSession)).

(** The own property [k] of [r]. The list holds the own properties in the
    order in which the object enumerates them. *)
Fixpoint reg_get (k : jsstring) (r : registry) : option ChatSession :=
  match r with
  | [] => None
  | (k', v) :: r' => if decide (k' = k) then Some v else reg_get k r'
  end.

(** The order of enumeration of the own properties of an object: the array
    indices first, in ascending numeric order, then the other string keys in
    the order in which they were created. An array index is the canonical
    decimal numeral of an integer from 0 to 2^32 - 2; the ids drawn from
    [Date.now()] are array indices during the first 49 days of 1970 only. *)
Definition digitValue (c : N) : option Z :=
  if ((48 <=? c) && (c <=? 57))%N then Some (Z.of_N c - 48) else None.

Definition parseDigits (k : jsstring) : option Z :=
  foldl (fun acc c =>
           match acc, digitValue c with
           | Some a, Some d => Some (10 * a + d)
           | _, _ => None
           end) (Some 0) k.

Definition arrayIndex (k : jsstring) : option Z :=
  match parseDigits k with
  | Some n =>
      if bool_decide (Number_toString n = k) && (n <? 4294967295)
      then Some n else None
  | None => None
  end.

Definition enumerated_before (k k' : jsstring) : bool :=
  match arrayIndex k, arrayIndex k' with
  | Some n, Some n' => n <? n'
  | Some _, None => true
  | None, _ => false
  end.

(** A new property [k]: it goes in front of the first property that is
    enumerated after it. *)
Fixpoint reg_put (k : jsstring) (v : ChatSession) (r : registry) : registry :=
  match r with
  | [] => [(k, v)]
  | (k', v') :: r' =>
      if enumerated_before k k' then (k, v) :: (k', v') :: r'
      else (k', v') :: reg_put k v r'
  end.

(** A new value for the property [k], which keeps its place. *)
Fixpoint reg_update (k : jsstring) (v : ChatSession) (r : registry)
    : registry :=
  match r with
  | [] => []
  | (k', v') :: r' =>
      if decide (k' = k) then (k, v) :: r' else (k', v') :: reg_update k v r'
  end.

(** [{...r, [k]: v}] and [r[k] = v]. *)
Definition reg_set (k : jsstring) (v : ChatSession) (r : registry) : registry :=
  match reg_get k r with
  | Some _ => reg_update k v r
  | None => reg_put k v r
  end.

(** The names of the properties that every object inherits from
    [Object.prototype]. *)
Definition INHERITED_KEYS : list jsstring :=
  [js "constructor"; js "__defineGetter__"; js "__defineSetter__";
   js "hasOwnProperty"; js "__lookupGetter__"; js "__lookupSetter__";
   js "isPrototypeOf"; js "propertyIsEnumerable"; js "toString";
   js "valueOf"; js "__proto__"; js "toLocaleString"].

(** What [r[k]] evaluates to: the own property, else a property inherited
    from [Object.prototype], which is a function or an object and so truthy
    and without any of the fields of a session, else [undefined]. *)
Inductive Lookup :=
| Own (s : ChatSession)
| Inherited
| Missing.

Definition obj_get (k : jsstring) (r : registry) : Lookup :=
  match reg_get k r with
  | Some s => Own s
  | None => if bool_decide (k ∈ INHERITED_KEYS) then Inherited else Missing
  end.

(** [Object.values(r)]. *)
Definition reg_values (r : registry) : list ChatSession := map snd r.

(** ** The remote conversation handle *)

Record Turn := mkTurn { role : jsstring; parts_text : jsstring }.

(** What [ai.chats.create] was given; the handle is otherwise opaque. *)
Record Chat := mkChat {
  chat_model : jsstring;
  chat_systemInstruction : jsstring;
  chat_history : list Turn
}.

(** Calls that leave the process. *)
Inductive RemoteCall :=
| CallSendMessageStream (text : jsstring) (withImage : bool)
| CallGenerateImage (prompt : jsstring)
| CallSetDoc (user : jsstring) (data : UserImageGenerationData).

(** What [localStorage.getItem(CHAT_HISTORY_KEY)] yields once decoded:
    nothing (or the empty string), a text on which [JSON.parse] or the repair
    loop behind it throws, or a value of the declared type
    [Record<string, ChatSession>] with its dates rebuilt. *)
Inductive StoredHistory :=
| NoHistory
| Unparseable
| Parsed (r : registry).

(** ** React state and the world around it *)

Record State := mkState {
  (* configuration and identity *)
  apiKey : option jsstring;
  currentUser : option FirebaseUser;
  (* App *)
  activeChatId : option jsstring;
  chatSessions : registry;
  globalError : option jsstring;
  isChatInitializing : bool;
  isSidebarOpen : bool;
  chatSessionRef : option Chat;
  (* ChatInterface *)
  inputValue : jsstring;
  isLoadingBotResponse : bool;
  uploadedImageFile : option jsstring;
  uploadedImagePreview : option jsstring;
  isProcessingImageGen : bool;
  userImageGenData : option UserImageGenerationData;
  (* world *)
  now : Z;
  storedHistory : StoredHistory;
  storedActiveChatId : option jsstring;
  userDocs : gmap jsstring UserImageGenerationData;
  remoteCalls : list RemoteCall;
  errorReports : list jsstring
}.

Definition setActiveChatId (v : option jsstring) (s : State) : State :=
  mkState (apiKey s) (currentUser s) v (chatSessions s) (globalError s)
    (isChatInitializing s) (isSidebarOpen s) (chatSessionRef s) (inputValue s)
    (isLoadingBotResponse s) (uploadedImageFile s) (uploadedImagePreview s)
    (isProcessingImageGen s) (userImageGenData s) (now s) (storedHistory s)
    (storedActiveChatId s) (userDocs s) (remoteCalls s) (errorReports s).

Definition setChatSessions (v : registry) (s : State) : State :=
  mkState (apiKey s) (currentUser s) (activeChatId s) v (globalError s)
    (isChatInitializing s) (isSidebarOpen s) (chatSessionRef s) (inputValue s)
    (isLoadingBotResponse s) (uploadedImageFile s) (uploadedImagePreview s)
    (isProcessingImageGen s) (userImageGenData s) (now s) (storedHistory s)
    (storedActiveChatId s) (userDocs s) (remoteCalls s) (errorReports s).

(** [setGlobalError]; a non-null message is also appended to [errorReports],
    the record of what was shown on the error surface. *)
Definition setGlobalError (v : option jsstring) (s : State) : State :=
  mkState (apiKey s) (currentUser s) (activeChatId s) (chatSessions s) v
    (isChatInitializing s) (isSidebarOpen s) (chatSessionRef s) (inputValue s)
    (isLoadingBotResponse s) (uploadedImageFile s) (uploadedImagePreview s)
    (isProcessingImageGen s) (userImageGenData s) (now s) (storedHistory s)
    (storedActiveChatId s) (userDocs s) (remoteCalls s)
    (match v with Some e => errorReports s ++ [e] | None => errorReports s end).

Definition setIsChatInitializing (v : bool) (s : State) : State :=
  mkState (apiKey s) (currentUser s) (activeChatId s) (chatSessions s)
    (globalError s) v (isSidebarOpen s) (chatSessionRef s) (inputValue s)
    (isLoadingBotResponse s) (uploadedImageFile s) (uploadedImagePreview s)
    (isProcessingImageGen s) (userImageGenData s) (now s) (storedHistory s)
    (storedActiveChatId s) (userDocs s) (remoteCalls s) (errorReports s).

Definition setIsSidebarOpen (v : bool) (s : State) : State :=
  mkState (apiKey s) (currentUser s) (activeChatId s) (chatSessions s)
    (globalError s) (isChatInitializing s) v (chatSessionRef s) (inputValue s)
    (isLoadingBotResponse s) (uploadedImageFile s) (uploadedImagePreview s)
    (isProcessingImageGen s) (userImageGenData s) (now s) (storedHistory s)
    (storedActiveChatId s) (userDocs s) (remoteCalls s) (errorReports s).

Definition setChatSessionRef (v : option Chat) (s : State) : State :=
  mkState (apiKey s) (currentUser s) (activeChatId s) (chatSessions s)
    (globalError s) (isChatInitializing s) (isSidebarOpen s) v (inputValue s)
    (isLoadingBotResponse s) (uploadedImageFile s) (uploadedImagePreview s)
    (isProcessingImageGen s) (userImageGenData s) (now s) (storedHistory s)
    (storedActiveChatId s) (userDocs s) (remoteCalls s) (errorReports s).

Definition setInputValue (v : jsstring) (s : State) : State :=
  mkState (apiKey s) (currentUser s) (activeChatId s) (chatSessions s)
    (globalError s) (isChatInitializing s) (isSidebarOpen s) (chatSessionRef s)
    v (isLoadingBotResponse s) (uploadedImageFile s) (uploadedImagePreview s)
    (isProcessingImageGen s) (userImageGenData s) (now s) (storedHistory s)
    (storedActiveChatId s) (userDocs s) (remoteCalls s) (errorReports s).

Definition setIsLoadingBotResponse (v : bool) (s : State) : State :=
  mkState (apiKey s) (currentUser s) (activeChatId s) (chatSessions s)
    (globalError s) (isChatInitializing s) (isSidebarOpen s) (chatSessionRef s)
    (inputValue s) v (uploadedImageFile s) (uploadedImagePreview s)
    (isProcessingImageGen s) (userImageGenData s) (now s) (storedHistory s)
    (storedActiveChatId s) (userDocs s) (remoteCalls s) (errorReports s).

Definition setUploadedImageFile (v : option jsstring) (s : State) : State :=
  mkState (apiKey s) (currentUser s) (activeChatId s) (chatSessions s)
    (globalError s) (isChatInitializing s) (isSidebarOpen s) (chatSessionRef s)
    (inputValue s) (isLoadingBotResponse s) v (uploadedImagePreview s)
    (isProcessingImageGen s) (userImageGenData s) (now s) (storedHistory s)
    (storedActiveChatId s) (userDocs s) (remoteCalls s) (errorReports s).

Definition setUploadedImagePreview (v : option jsstring) (s : State) : State :=
  mkState (apiKey s) (currentUser s) (activeChatId s) (chatSessions s)
    (globalError s) (isChatInitializing s) (isSidebarOpen s) (chatSessionRef s)
    (inputValue s) (isLoadingBotResponse s) (uploadedImageFile s) v
    (isProcessingImageGen s) (userImageGenData s) (now s) (storedHistory s)
    (storedActiveChatId s) (userDocs s) (remoteCalls s) (errorReports s).

Definition setIsProcessingImageGen (v : bool) (s : State) : State :=
  mkState (apiKey s) (currentUser s) (activeChatId s) (chatSessions s)
    (globalError s) (isChatInitializing s) (isSidebarOpen s) (chatSessionRef s)
    (inputValue s) (isLoadingBotResponse s) (uploadedImageFile s)
    (uploadedImagePreview s) v (userImageGenData s) (now s) (storedHistory s)
    (storedActiveChatId s) (userDocs s) (remoteCalls s) (errorReports s).

Definition setUserImageGenData (v : option UserImageGenerationData)
    (s : State) : State :=
  mkState (apiKey s) (currentUser s) (activeChatId s) (chatSessions s)
    (globalError s) (isChatInitializing s) (isSidebarOpen s) (chatSessionRef s)
    (inputValue s) (isLoadingBotResponse s) (uploadedImageFile s)
    (uploadedImagePreview s) (isProcessingImageGen s) v (now s)
    (storedHistory s) (storedActiveChatId s) (userDocs s) (remoteCalls s)
    (errorReports s).

(** The environment moves the clock. *)
Definition at_time (t : Z) (s : State) : State :=
  mkState (apiKey s) (currentUser s) (activeChatId s) (chatSessions s)
    (globalError s) (isChatInitializing s) (isSidebarOpen s) (chatSessionRef s)
    (inputValue s) (isLoadingBotResponse s) (uploadedImageFile s)
    (uploadedImagePreview s) (isProcessingImageGen s) (userImageGenData s) t
    (storedHistory s) (storedActiveChatId s) (userDocs s) (remoteCalls s)
    (errorReports s).

Definition setUserDocs (v : gmap jsstring UserImageGenerationData)
    (s : State) : State :=
  mkState (apiKey s) (currentUser s) (activeChatId s) (chatSessions s)
    (globalError s) (isChatInitializing s) (isSidebarOpen s) (chatSessionRef s)
    (inputValue s) (isLoadingBotResponse s) (uploadedImageFile s)
    (uploadedImagePreview s) (isProcessingImageGen s) (userImageGenData s)
    (now s) (storedHistory s) (storedActiveChatId s) v (remoteCalls s)
    (errorReports s).

Definition logRemoteCall (c : RemoteCall) (s : State) : State :=
  mkState (apiKey s) (currentUser s) (activeChatId s) (chatSessions s)
    (globalError s) (isChatInitializing s) (isSidebarOpen s) (chatSessionRef s)
    (inputValue s) (isLoadingBotResponse s) (uploadedImageFile s)
    (uploadedImagePreview s) (isProcessingImageGen s) (userImageGenData s)
    (now s) (storedHistory s) (storedActiveChatId s) (userDocs s)
    (remoteCalls s ++ [c]) (errorReports s).

(** ** App.tsx *)

(** The reserved marker of the seeded welcome message's id. *)
Definition AI_WELCOME : jsstring := js "_ai_welcome".

Definition Some_if_truthy (s : jsstring) : option jsstring :=
  if truthy s then Some s else None.

(** A possibly missing string, when it is truthy. *)
Definition if_truthy (o : option jsstring) : option jsstring :=
  match o with
  | Some s => Some_if_truthy s
  | None => None
  end.

(** [k ? r[k] : undefined], for a key [k] that names no inherited
    property. *)
Definition reg_get_opt (k : option jsstring) (r : list (jsstring * ChatSession))
    : option ChatSession :=
  match if_truthy k with
  | Some a => reg_get a r
  | None => None
  end.

(** [k ? r[k] : undefined], for any key. *)
Definition obj_get_opt (k : option jsstring) (r : registry) : Lookup :=
  match if_truthy k with
  | Some a => obj_get a r
  | None => Missing
  end.

(** Descending order of last activity, as the comparator of [sort] has it:
    [b.timestamp - a.timestamp]. [Array.prototype.sort] is stable, so a
    session goes in front of the first one that is not more recent. *)
Fixpoint insert_desc (x : ChatSession) (l : list ChatSession)
    : list ChatSession :=
  match l with
  | [] => [x]
  | y :: l' =>
      if ses_timestamp y <=? ses_timestamp x then x :: y :: l'
      else y :: insert_desc x l'
  end.

Definition sort_desc (l : list ChatSession) : list ChatSession :=
  foldr insert_desc [] l.

(** The filter and the map of the replayed history. *)
Definition replay_keep (m : ChatMessage) : bool :=
  truthy (msg_text m) && negb (bool_decide (msg_sender m = SenderAI))
  || (bool_decide (msg_sender m = SenderAI)
      && negb (includes AI_WELCOME (msg_id m))
      && truthy (msg_text m)).

Definition replay_turn (m : ChatMessage) : Turn :=
  mkTurn (if bool_decide (msg_sender m = SenderUser) then js "user"
          else js "model")
         (msg_text m).

Definition replay_history (ms : list ChatMessage) : list Turn :=
  map replay_turn (List.filter replay_keep ms).

Section App.

Context (K : Constants).

(** Whether [new GoogleGenAI({ apiKey }).chats.create(config)] throws. *)
Variable chats_create_throws : jsstring -> Chat -> bool.

Definition getSystemInstruction (model : ModelType) : jsstring :=
  match model with
  | B2_CODING => SYSTEM_INSTRUCTION_B2_BN K
  | B1_REGULAR => SYSTEM_INSTRUCTION_B1_BN K
  end.

Definition welcomeMessage (t : Z) (model : ModelType) : ChatMessage :=
  mkMessage (Number_toString t ++ AI_WELCOME) (INITIAL_WELCOME_MESSAGE_BN K)
    SenderAI t None None None (Some model).

Definition createNewChatSessionObject (t : Z) (model : ModelType)
    (id : option jsstring) (messages : option (list ChatMessage))
    (title : option jsstring) : ChatSession :=
  let newChatId := or_else id (Number_toString t) in
  let systemInstruction := getSystemInstruction model in
  let initialMessages :=
    match messages with
    | Some ms => ms
    | None => [welcomeMessage t model]
    end in
  mkSession newChatId (or_else title (DEFAULT_CHAT_TITLE_BN K))
    initialMessages model t systemInstruction.

(** The title repair of the restore loop. *)
Definition backfillTitle (session : ChatSession) : ChatSession :=
  if truthy (ses_title session) then session
  else
    let found :=
      find (fun m => bool_decide (msg_sender m = SenderUser))
           (ses_messages session) in
    mkSession (ses_id session)
      (or_else (option_map (fun m => substring0 30 (msg_text m)) found)
               (DEFAULT_CHAT_TITLE_BN K))
      (ses_messages session) (ses_model session) (ses_timestamp session)
      (ses_systemInstruction session).

Definition modelOrDefault (modelToUse : option ModelType) : ModelType :=
  match modelToUse with
  | Some m => m
  | None => DEFAULT_MODEL_TYPE K
  end.

(** The body of the [try] block; [inr] is the state in which an exception
    left it. *)
Definition loadAll_try (key : jsstring) (sessionIdToLoad : option jsstring)
    (modelToUse : option ModelType) (st : State) : State + State :=
  let storedActive :=
    if truthy_opt sessionIdToLoad then sessionIdToLoad
    else storedActiveChatId st in
  match
    match storedHistory st with
    | NoHistory => Some []
    | Unparseable => None
    | Parsed r => Some (map (fun kv => (kv.1, backfillTitle kv.2)) r)
    end
  with
  | None => inr st
  | Some loadedSessions =>
      let found := obj_get_opt storedActive loadedSessions in
      let '(loadedSessions, newActiveChatId, activeSessionToInit) :=
        match found with
        | Missing =>
            if (0 <? Z.of_nat (length loadedSessions))
               && negb (truthy_opt sessionIdToLoad)
            then
              let newest :=
                option_map ses_id
                  (head (sort_desc (reg_values loadedSessions))) in
              (loadedSessions, newest,
               match newest with
               | Some k => obj_get k loadedSessions
               | None => Missing
               end)
            else
              let newSession :=
                createNewChatSessionObject (now st)
                  (modelOrDefault modelToUse) None None None in
              (reg_set (ses_id newSession) newSession loadedSessions,
               Some (ses_id newSession), Own newSession)
        | _ => (loadedSessions, storedActive, found)
        end in
      let st := setActiveChatId newActiveChatId
                  (setChatSessions loadedSessions st) in
      match activeSessionToInit with
      | Own s =>
          let chat :=
            mkChat (GEMINI_TEXT_MODEL_FLASH K) (ses_systemInstruction s)
              (replay_history (ses_messages s)) in
          if chats_create_throws key chat then inr st
          else inl (setChatSessionRef (Some chat) st)
      | Inherited =>
          (* [activeSessionToInit.messages] is [undefined]: a TypeError *)
          inr st
      | Missing =>
          (* [throw new Error(...)] *)
          inr st
      end
  end.

(** The [catch] block. *)
Definition loadAll_catch (modelToUse : option ModelType) (st : State)
    : State :=
  let st := setGlobalError (Some (ERROR_INIT_FAILED_BN K)) st in
  let newSession :=
    createNewChatSessionObject (now st) (modelOrDefault modelToUse)
      None None None in
  let st := setActiveChatId (Some (ses_id newSession))
              (setChatSessions [(ses_id newSession, newSession)] st) in
  match if_truthy (apiKey st) with
  | Some key =>
      let chat :=
        mkChat (GEMINI_TEXT_MODEL_FLASH K) (ses_systemInstruction newSession)
          [] in
      if chats_create_throws key chat then st
      else setChatSessionRef (Some chat) st
  | None => st
  end.

(** [try { ... } catch { ... } finally { ... }] of [initializeChatLogic]:
    the restore of the registry from the durable store. *)
Definition loadAll (key : jsstring) (sessionIdToLoad : option jsstring)
    (modelToUse : option ModelType) (st : State) : State :=
  setIsChatInitializing false
    match loadAll_try key sessionIdToLoad modelToUse st with
    | inl st' => st'
    | inr st' => loadAll_catch modelToUse st'
    end.

Definition initializeChatLogic (sessionIdToLoad : option jsstring)
    (modelToUse : option ModelType) (st : State) : State :=
  match if_truthy (apiKey st) with
  | None =>
      let st := setIsChatInitializing false
                  (setGlobalError (Some (ERROR_API_KEY_MISSING_BN K)) st) in
      let newSession :=
        createNewChatSessionObject (now st) (modelOrDefault modelToUse)
          None None None in
      setActiveChatId (Some (ses_id newSession))
        (setChatSessions [(ses_id newSession, newSession)] st)
  | Some key =>
      loadAll key sessionIdToLoad modelToUse
        (setGlobalError None (setIsChatInitializing true st))
  end.

Definition startNewChat (model : ModelType) (st : State) : State :=
  let newSession :=
    createNewChatSessionObject (now st) model None None None in
  let st := setChatSessions
              (reg_set (ses_id newSession) newSession (chatSessions st)) st in
  let st := setActiveChatId (Some (ses_id newSession)) st in
  let st :=
    match if_truthy (apiKey st) with
    | Some key =>
        let geminiChat :=
          mkChat (GEMINI_TEXT_MODEL_FLASH K)
            (ses_systemInstruction newSession) [] in
        if chats_create_throws key geminiChat
        then setGlobalError (Some (ERROR_INIT_FAILED_BN K)) st
        else setGlobalError None (setChatSessionRef (Some geminiChat) st)
    | None => setGlobalError (Some (ERROR_API_KEY_MISSING_BN K)) st
    end in
  setIsSidebarOpen false st.

Definition selectChatSession (sessionId : jsstring) (st : State) : State :=
  if bool_decide (Some sessionId = activeChatId st)
  then setIsSidebarOpen false st
  else
    let st :=
      match reg_get sessionId (chatSessions st) with
      | Some selectedSession =>
          let st := setActiveChatId (Some sessionId) st in
          match if_truthy (apiKey st) with
          | Some key =>
              let geminiChat :=
                mkChat (GEMINI_TEXT_MODEL_FLASH K)
                  (ses_systemInstruction selectedSession)
                  (replay_history (ses_messages selectedSession)) in
              if chats_create_throws key geminiChat
              then setGlobalError (Some (ERROR_INIT_FAILED_BN K)) st
              else setGlobalError None
                     (setChatSessionRef (Some geminiChat) st)
          | None => setGlobalError (Some (ERROR_API_KEY_MISSING_BN K)) st
          end
      | None => st
      end in
    setIsSidebarOpen false st.

Definition handleModelChangeOnSidebar (newModel : ModelType) (st : State)
    : State :=
  match if_truthy (activeChatId st) with
  | Some a =>
      if bool_decide (option_map ses_model (reg_get a (chatSessions st))
                      = Some newModel)
      then st
      else startNewChat newModel st
  | None => st
  end.

End App.

(** ** ChatInterface *)

(** [text.substring(0, 35) + (text.length > 35 ? '...' : '')]. *)
Definition deriveTitle (text : jsstring) : jsstring :=
  substring0 35 text ++ (if 35 <? Z.of_nat (length text) then js "..." else []).

(** The literal tails of the two template strings of the image flow. *)
Definition IMAGE_REQUEST_TAIL : jsstring :=
  [34; 32; 45; 32; 2447; 2439; 32; 2476; 2495; 2476; 2480; 2467; 2503; 32;
   2447; 2453; 2463; 2495; 32; 2459; 2476; 2495; 32; 2468; 2504; 2480; 2495;
   32; 2453; 2480; 2494; 2480; 32; 2437; 2472; 2497; 2480; 2507; 2471;
   2404]%N.

Definition IMAGE_RESULT_TAIL : jsstring :=
  [34; 32; 2447; 2480; 32; 2460; 2472; 2509; 2479; 32; 2468; 2504; 2480;
   2495; 32; 2453; 2480; 2494; 32; 2459; 2476; 2495; 58]%N.

Definition MS_PER_DAY : Z := 86400000.

(** What the remote side answers to one send. The file is read first; the
    stream then yields [reply_chunks] (arrival time and [chunk.text]) and
    either completes or throws [reply_error] at [reply_end]
    ([sendMessageStream] throwing at once is the case of no chunks). *)
Record SendReply := mkSendReply {
  reply_fileError : option JsError;
  reply_chunks : list (Z * option jsstring);
  reply_end : Z;
  reply_error : option JsError
}.

(** What the image service and the document store answer. *)
Record ImageReply := mkImageReply {
  img_at : Z;
  img_result : jsstring + JsError;
  setDoc_serverTime : Z;
  setDoc_error : option JsError;
  setDoc_at : Z
}.

(** The values one outbound turn keeps for its continuation. *)
Record SendCtx := mkSendCtx {
  ctx_closure : State;
  ctx_userMessage : ChatMessage;
  ctx_aiMessageId : jsstring;
  ctx_file : option jsstring
}.

Section ChatInterface.

Context (K : Constants).

(** [new Date(t).setHours(0, 0, 0, 0)] as a function of the instant [t], in
    milliseconds: the start of the local calendar day of [t], under the rules
    of the time zone of the host, daylight saving included. *)
Variable startOfLocalDay : Z -> Z.

(** Props and derived values of the render [cl]: what a handler created in
    that render closes over. *)
Definition activeChatSession (cl : State) : option ChatSession :=
  reg_get_opt (activeChatId cl) (chatSessions cl).

Definition currentModel (cl : State) : ModelType :=
  match activeChatSession cl with
  | Some s => ses_model s
  | None => B1_REGULAR
  end.

(** The effect on [currentUser]: refresh the quota cache from the store. *)
Definition fetchUserImageGenData (st : State) : State :=
  match currentUser st with
  | Some u =>
      match userDocs st !! uid u with
      | Some d => setUserImageGenData (Some d) st
      | None => setUserImageGenData (Some (mkGenData 0 0)) st
      end
  | None => setUserImageGenData None st
  end.

(** The first user message that has a text. *)
Definition firstUserMessage (ms : list ChatMessage) : option ChatMessage :=
  find (fun m => bool_decide (msg_sender m = SenderUser) && truthy (msg_text m))
       ms.

(** [titleToSet] of [updateCurrentSessionMessages]. *)
Definition nextTitle (newTitle : option jsstring)
    (updatedMessages : list ChatMessage) (currentTitle : jsstring) : jsstring :=
  if truthy_opt newTitle then or_else newTitle []
  else if (1 <? Z.of_nat (length updatedMessages))
          && bool_decide (currentTitle = DEFAULT_CHAT_TITLE_BN K)
  then
    match firstUserMessage updatedMessages with
    | Some m => deriveTitle (msg_text m)
    | None => currentTitle
    end
  else currentTitle.

(** The updater handed to [chatSessionsUpdater]: [cl] is the render whose
    [activeChatSession] the caller closed over, [prevSessions] the registry
    the updater is applied to. *)
Definition updateSession (cl : State) (now_ : Z)
    (newMessagesFn : list ChatMessage -> list ChatMessage)
    (newTitle : option jsstring) (prevSessions : registry) : registry :=
  match activeChatSession cl with
  | None => prevSessions
  | Some a =>
      match reg_get (ses_id a) prevSessions with
      | None => prevSessions
      | Some currentSession =>
          let updatedMessages := newMessagesFn (ses_messages currentSession) in
          reg_set (ses_id a)
            (mkSession (ses_id currentSession)
               (nextTitle newTitle updatedMessages (ses_title currentSession))
               updatedMessages (ses_model currentSession) now_
               (ses_systemInstruction currentSession))
            prevSessions
      end
  end.

Definition updateCurrentSessionMessages (cl : State)
    (newMessagesFn : list ChatMessage -> list ChatMessage)
    (newTitle : option jsstring) (st : State) : State :=
  setChatSessions
    (updateSession cl (now st) newMessagesFn newTitle (chatSessions st)) st.

Definition addMessageToCurrentChat (cl : State) (message : ChatMessage)
    (title : option jsstring) (st : State) : State :=
  updateCurrentSessionMessages cl (fun prev => prev ++ [message]) title st.

(** The message transform of [updateAIMessageStream]. *)
Definition streamInto (cl : State) (now_ : Z) (aiMessageId chunkText : jsstring)
    (isFinal : bool) (prevMessages : list ChatMessage) : list ChatMessage :=
  let messageExists :=
    existsb (fun msg => bool_decide (msg_id msg = aiMessageId)) prevMessages in
  let updatedMessages :=
    map (fun msg =>
           if bool_decide (msg_id msg = aiMessageId)
           then mkMessage (msg_id msg) (msg_text msg ++ chunkText)
                  (msg_sender msg) (msg_timestamp msg) (msg_imageUrl msg)
                  (msg_isImageQuery msg) (msg_generatedImage msg)
                  (if isFinal then Some (currentModel cl)
                   else msg_modelUsed msg)
           else msg) prevMessages in
  if negb messageExists && truthy chunkText
  then updatedMessages ++
       [mkMessage aiMessageId chunkText SenderAI now_ None None None
          (Some (currentModel cl))]
  else updatedMessages.

Definition updateAIMessageStream (cl : State) (aiMessageId chunkText : jsstring)
    (isFinal : bool) (st : State) : State :=
  updateCurrentSessionMessages cl
    (streamInto cl (now st) aiMessageId chunkText isFinal) None st.

(** [userMessageText]: the trimmed input, or the fixed prompt when only an
    image is attached. *)
Definition userMessageText (cl : State) : jsstring :=
  let textToSend := trim (inputValue cl) in
  if truthy textToSend then textToSend
  else match uploadedImageFile cl with
       | Some _ => IMAGE_QUERY_PROMPT_DEFAULT_BN K
       | None => []
       end.

Definition userMessageOf (cl : State) : ChatMessage :=
  mkMessage (Number_toString (now cl) ++ js "_user") (userMessageText cl)
    SenderUser (now cl) (if_truthy (uploadedImagePreview cl))
    (Some (bool_decide (is_Some (uploadedImageFile cl)))) None None.

(** [titleForSession]. *)
Definition titleForSession (cl : State) : option jsstring :=
  match activeChatSession cl with
  | Some a =>
      if bool_decide (ses_title a = DEFAULT_CHAT_TITLE_BN K)
      then Some (deriveTitle (userMessageText cl)) else None
  | None => None
  end.

(** The empty AI message that the stream is going to fill. *)
Definition placeholderOf (cl : State) : ChatMessage :=
  mkMessage (Number_toString (now cl) ++ js "_ai") [] SenderAI (now cl)
    None None None (Some (currentModel cl)).

(** [handleSendMessage] up to its first suspension. *)
Definition handleSendMessage_start (st : State) : State * option SendCtx :=
  let textToSend := trim (inputValue st) in
  if (negb (truthy textToSend)
      && negb (bool_decide (is_Some (uploadedImageFile st))))
     || isLoadingBotResponse st || isProcessingImageGen st
  then (st, None)
  else
    match chatSessionRef st with
    | None => (setGlobalError (Some (ERROR_SESSION_NOT_READY_BN K)) st, None)
    | Some _ =>
        if negb (truthy_opt (apiKey st))
        then (setGlobalError (Some (ERROR_API_KEY_MISSING_BN K)) st, None)
        else
          let cl := st in
          let st := setGlobalError None (setIsLoadingBotResponse true st) in
          if negb (truthy (userMessageText cl))
          then (setIsLoadingBotResponse false
                  (setGlobalError (Some (ERROR_NO_INPUT_BN K)) st), None)
          else
            let userMessage := userMessageOf cl in
            let st :=
              addMessageToCurrentChat cl userMessage (titleForSession cl) st in
            let st := setUploadedImagePreview None
                        (setUploadedImageFile None (setInputValue [] st)) in
            let aiMessage := placeholderOf cl in
            let st := addMessageToCurrentChat cl aiMessage None st in
            (st, Some (mkSendCtx cl userMessage (msg_id aiMessage)
                         (uploadedImageFile cl)))
    end.

(** One iteration of [for await (const chunk of responseStream)]. *)
Definition onChunk (ctx : SendCtx) (chunk : option jsstring) (st : State)
    : State :=
  match chunk with
  | Some text =>
      if truthy text
      then updateAIMessageStream (ctx_closure ctx) (ctx_aiMessageId ctx) text
             false st
      else st
  | None => st
  end.

(** The final update after the loop. *)
Definition onComplete (ctx : SendCtx) (st : State) : State :=
  updateAIMessageStream (ctx_closure ctx) (ctx_aiMessageId ctx) [] true st.

Definition sendErrorText (e : JsError) : jsstring :=
  match err_message e with
  | Some m =>
      if truthy m && includes (js "API key not valid") m
      then ERROR_API_KEY_INVALID_BN K else ERROR_SEND_FAILED_BN K
  | None => ERROR_SEND_FAILED_BN K
  end.

(** The [catch] block of [handleSendMessage]. *)
Definition onSendError (ctx : SendCtx) (e : JsError) (st : State) : State :=
  let errorText := sendErrorText e in
  let st :=
    updateCurrentSessionMessages (ctx_closure ctx)
      (map (fun msg =>
              if bool_decide (msg_id msg = ctx_aiMessageId ctx)
              then mkMessage (msg_id msg) errorText (msg_sender msg)
                     (msg_timestamp msg) (msg_imageUrl msg)
                     (msg_isImageQuery msg) (msg_generatedImage msg)
                     (Some (currentModel (ctx_closure ctx)))
              else msg)) None st in
  setGlobalError (Some errorText) st.

Definition streamChunks (ctx : SendCtx) (chunks : list (Z * option jsstring))
    (st : State) : State :=
  foldl (fun s c => onChunk ctx c.2 (at_time c.1 s)) st chunks.

(** The continuation of [handleSendMessage] after its first suspension. *)
Definition handleSendMessage_resume (ctx : SendCtx) (reply : SendReply)
    (st : State) : State :=
  let fileError :=
    match ctx_file ctx with
    | Some _ => reply_fileError reply
    | None => None
    end in
  setIsLoadingBotResponse false
    match fileError with
    | Some e => onSendError ctx e (at_time (reply_end reply) st)
    | None =>
        let st :=
          logRemoteCall
            (CallSendMessageStream (msg_text (ctx_userMessage ctx))
               (bool_decide (is_Some (ctx_file ctx)))) st in
        let st := streamChunks ctx (reply_chunks reply) st in
        let st := at_time (reply_end reply) st in
        match reply_error reply with
        | Some e => onSendError ctx e st
        | None => onComplete ctx st
        end
    end.

(** A send during which no other handler runs. *)
Definition handleSendMessage (reply : SendReply) (st : State) : State :=
  match handleSendMessage_start st with
  | (st, Some ctx) => handleSendMessage_resume ctx reply st
  | (st, None) => st
  end.

(** The count that is still valid at [t]. *)
Definition currentCount (data : option UserImageGenerationData) (t : Z) : Z :=
  match data with
  | Some d => if startOfLocalDay t <=? lastGeneratedAt d then count d else 0
  | None => 0
  end.

(** The exits of [handleGenerateImage]. *)
Inductive ImageExit :=
| ImageIgnored
| ImageMissingCredential
| ImageLoginRequired
| ImageQuotaExceeded
| ImageGenerated
| ImageFailed.

Definition replaceMessage (aiMessageId : jsstring)
    (f : ChatMessage -> ChatMessage) (prev : list ChatMessage)
    : list ChatMessage :=
  map (fun msg => if bool_decide (msg_id msg = aiMessageId) then f msg else msg)
      prev.

Definition imageFailed (cl : State) (aiMessageId : jsstring) (st : State)
    : State :=
  let st :=
    updateCurrentSessionMessages cl
      (replaceMessage aiMessageId (fun msg =>
         mkMessage (msg_id msg) (IMAGE_GENERATION_FAILED_BN K) (msg_sender msg)
           (msg_timestamp msg) (msg_imageUrl msg) (msg_isImageQuery msg)
           (msg_generatedImage msg) (msg_modelUsed msg))) None st in
  setGlobalError (Some (IMAGE_GENERATION_FAILED_BN K)) st.

Definition handleGenerateImage (reply : ImageReply) (st : State)
    : ImageExit * State :=
  let prompt := trim (inputValue st) in
  if negb (truthy prompt) || isLoadingBotResponse st || isProcessingImageGen st
  then (ImageIgnored, st)
  else
    match if_truthy (apiKey st) with
    | None =>
        (ImageMissingCredential,
         setGlobalError (Some (ERROR_API_KEY_MISSING_BN K)) st)
    | Some key =>
        match currentUser st with
        | None =>
            (ImageLoginRequired,
             setGlobalError (Some (IMAGE_GENERATION_LOGIN_REQUIRED_BN K)) st)
        | Some user =>
            if DAILY_IMAGE_GENERATION_LIMIT K
               <=? currentCount (userImageGenData st) (now st)
            then (ImageQuotaExceeded,
                  setGlobalError (Some (IMAGE_LIMIT_REACHED_BN K)) st)
            else
              let cl := st in
              let st := setGlobalError None (setIsProcessingImageGen true st) in
              let originalInputValue := inputValue cl in
              let st := setInputValue [] st in
              let userMessage :=
                mkMessage (Number_toString (now st) ++ js "_user_img_prompt")
                  (34%N :: originalInputValue ++ IMAGE_REQUEST_TAIL)
                  SenderUser (now st) None None None None in
              let st := addMessageToCurrentChat cl userMessage None st in
              let aiMessageId := Number_toString (now st) ++ js "_ai_img_gen" in
              let st :=
                addMessageToCurrentChat cl
                  (mkMessage aiMessageId (IMAGE_GENERATION_IN_PROGRESS_BN K)
                     SenderAI (now st) None None None (Some (currentModel cl)))
                  None st in
              let st := at_time (img_at reply)
                          (logRemoteCall (CallGenerateImage prompt) st) in
              let '(exit, st) :=
                match img_result reply with
                | inr _ => (ImageFailed, imageFailed cl aiMessageId st)
                | inl base64Image =>
                    let aiGeneratedImageMessage :=
                      mkMessage aiMessageId
                        (34%N :: originalInputValue ++ IMAGE_RESULT_TAIL)
                        SenderAI (now st) None None (Some base64Image)
                        (Some (currentModel cl)) in
                    let st :=
                      updateCurrentSessionMessages cl
                        (replaceMessage aiMessageId
                           (fun _ => aiGeneratedImageMessage)) None st in
                    let newCountToday :=
                      currentCount (userImageGenData cl) (now st) + 1 in
                    let st :=
                      logRemoteCall
                        (CallSetDoc (uid user)
                           (mkGenData newCountToday (setDoc_serverTime reply)))
                        st in
                    let st := at_time (setDoc_at reply) st in
                    match setDoc_error reply with
                    | Some _ => (ImageFailed, imageFailed cl aiMessageId st)
                    | None =>
                        let st :=
                          setUserDocs
                            (<[uid user :=
                                 mkGenData newCountToday
                                   (setDoc_serverTime reply)]> (userDocs st))
                            st in
                        (ImageGenerated,
                         setUserImageGenData
                           (Some (mkGenData newCountToday (now st))) st)
                    end
                end in
              (exit, setIsProcessingImageGen false st)
        end
    end.

End ChatInterface.

(** ** Definitions in the words of the specification *)

(** The welcome entry: an AI message whose id ends in the reserved suffix. *)
Definition isWelcome (m : ChatMessage) : bool :=
  bool_decide (msg_sender m = SenderAI) && endsWith AI_WELCOME (msg_id m).

Definition roleOf (s : Sender) : jsstring :=
  match s with
  | SenderUser => js "user"
  | SenderAI => js "model"
  end.

(** The replayed history as the specification words it: the messages in
    their order, without the welcome entry and without empty texts. *)
Definition replay_spec (ms : list ChatMessage) : list Turn :=
  map (fun m => mkTurn (roleOf (msg_sender m)) (msg_text m))
      (List.filter (fun m => negb (isWelcome m) && truthy (msg_text m)) ms).

(** The reserved marker occurs in the ids of [ms] only as their suffix. *)
Definition marker_only_suffix (ms : list ChatMessage) : Prop :=
  Forall (fun m => includes AI_WELCOME (msg_id m)
                   = endsWith AI_WELCOME (msg_id m)) ms.

(** Two instants of the same local calendar day: the day of both begins at
    the same local midnight. *)
Definition sameLocalDay (tz : Z -> Z) (a b : Z) : Prop := tz a = tz b.

(** What the start of the local day satisfies in every time zone: it is not
    after the instant, a later instant has no earlier start of day, and the
    start of a day is its own start of day. *)
Definition zone_laws (tz : Z -> Z) : Prop :=
  (forall t, tz t <= t)
  /\ (forall a b, a <= b -> tz a <= tz b)
  /\ (forall t, tz (tz t) = tz t).

(** A zone of one fixed offset from UTC, in milliseconds. *)
Definition fixedOffset (off : Z) (t : Z) : Z :=
  (t + off) / MS_PER_DAY * MS_PER_DAY - off.

Definition utc : Z -> Z := fixedOffset 0.

(** A zone that goes from the offset [o1] to the offset [o2] at the instant
    [T]; the local day of the change has begun under [o1]. *)
Definition springForward (T o1 o2 : Z) (t : Z) : Z :=
  if t <? T then fixedOffset o1 t
  else if fixedOffset o2 t <? T then fixedOffset o1 (T - 1)
  else fixedOffset o2 t.

(** Central European time in the spring of 2023: summer time begins on
    26 March at 01:00 UTC. *)
Definition centralEurope2023 : Z -> Z :=
  springForward 1679792400000 3600000 7200000.

(** The texts of the chunks of a stream, a chunk without text counting as
    the empty fragment. *)
Definition fragments (chunks : list (Z * option jsstring)) : list jsstring :=
  map (fun c => default [] c.2) chunks.

(** The exception, if any, that ends the send of [ctx] under [reply]. *)
Definition send_failure (ctx : SendCtx) (reply : SendReply) : option JsError :=
  match ctx_file ctx, reply_fileError reply with
  | Some _, Some e => Some e
  | _, _ => reply_error reply
  end.

(** ** Sample data

    An instance of the constants, with short ASCII texts in place of the
    Bengali ones, and small states on which the definitions are run. *)

Definition sampleConstants : Constants :=
  mkConstants B1_REGULAR (js "gemini-flash") (js "New Chat") (js "Welcome!")
    (js "general assistant") (js "coding assistant") (js "API key missing")
    (js "initialization failed") (js "send failed") (js "API key invalid")
    (js "no input") (js "session not ready") (js "What is in this image?")
    (js "generating image") (js "image generation failed")
    (js "daily limit reached") (js "login required") 3.

Definition never_throws : jsstring -> Chat -> bool := fun _ _ => false.

(** The state before initialization, with and without a credential. *)
Definition bootState (key : option jsstring) (t : Z) : State :=
  mkState key None None [] None true false None [] false None None false None
    t NoHistory None ∅ [] [].

Definition plainMessage (id text : string) (s : Sender) : ChatMessage :=
  mkMessage (js id) (js text) s 0 None None None None.

Definition sampleSession (id title : string) (ms : list ChatMessage)
    (t : Z) : ChatSession :=
  mkSession (js id) (js title) ms B1_REGULAR t (js "general assistant").

(** The request of a signed-in user that passes the guards before the quota
    check. *)
Definition quota_consulted (st : State) : Prop :=
  truthy (trim (inputValue st)) = true
  /\ isLoadingBotResponse st = false
  /\ isProcessingImageGen st = false
  /\ truthy_opt (apiKey st) = true
  /\ is_Some (currentUser st).

Definition sampleUser : FirebaseUser := mkUser (js "u1") None None None.

(** A signed-in user whose quota document does not exist yet. *)
Definition signedInState (t : Z) : State :=
  fetchUserImageGenData
    (mkState (Some (js "key")) (Some sampleUser) None [] None false false None
       [] false None None false None t NoHistory None ∅ [] []).

(** One image request typed and answered at [t], in the zone [tz]. *)
Definition generateIn (tz : Z -> Z) (t : Z) (st : State) : ImageExit * State :=
  handleGenerateImage sampleConstants tz
    (mkImageReply t (inl (js "png")) t None t)
    (setInputValue (js "a cat") (at_time t st)).

Definition generateAt : Z -> State -> ImageExit * State := generateIn utc.

(** A message with another text and model stamp. *)
Definition withText (m : ChatMessage) (text : jsstring)
    (mu : option ModelType) : ChatMessage :=
  mkMessage (msg_id m) text (msg_sender m) (msg_timestamp m) (msg_imageUrl m)
    (msg_isImageQuery m) (msg_generatedImage m) mu.

(** The messages of id [P] take [chunk] at the end of their text. *)
Definition appended (P chunk : jsstring) (m : ChatMessage) : ChatMessage :=
  if bool_decide (msg_id m = P)
  then withText m (msg_text m ++ chunk) (msg_modelUsed m) else m.

(** The messages of id [P] after a whole stream of text [total]. *)
Definition streamed (P total : jsstring) (model : ModelType)
    (m : ChatMessage) : ChatMessage :=
  if bool_decide (msg_id m = P)
  then withText m (msg_text m ++ total) (Some model) else m.

(** The messages of id [P] with their text replaced. *)
Definition overwritten (P text : jsstring) (model : ModelType)
    (m : ChatMessage) : ChatMessage :=
  if bool_decide (msg_id m = P) then withText m text (Some model) else m.

Definition has_id (P : jsstring) (ms : list ChatMessage) : bool :=
  existsb (fun m => bool_decide (msg_id m = P)) ms.

(** The session stored under [k] has the messages [ms]. *)
Definition session_messages (k : jsstring) (st : State)
    (ms : list ChatMessage) : Prop :=
  exists s, reg_get k (chatSessions st) = Some s /\ ses_messages s = ms.

(** An initialized application at time [t]: one fresh session, created at
    time 1000, and a bound conversation handle. *)
Definition readyState (t : Z) : State :=
  at_time t
    (initializeChatLogic sampleConstants never_throws None None
       (bootState (Some (js "key")) 1000)).

(** The stream of the specification's example, with a chunk that has no
    text and one whose text is empty in between. *)
Definition helloReply : SendReply :=
  mkSendReply None
    [(2001, Some (js "Hel")); (2002, None); (2003, Some (js "lo, "));
     (2004, Some []); (2005, Some (js "world"))]
    2006 None.

(** A stream that breaks after its first fragment. *)
Definition brokenReply (message : string) : SendReply :=
  mkSendReply None [(2001, Some (js "Hel"))] 2002
    (Some (mkError (Some (js message)))).

(** The provider's complaint about the credential. *)
Definition invalidKey (e : JsError) : bool :=
  match err_message e with
  | Some m => includes (js "API key not valid") m
  | None => false
  end.

(** The session stored under [k] satisfies [J]. *)
Definition session_inv (k : jsstring) (st : State)
    (J : ChatSession -> Prop) : Prop :=
  exists s, reg_get k (chatSessions st) = Some s /\ J s.

(** [u] is the only message of [ms] that a user sent. *)
Definition only_user (u : ChatMessage) (ms : list ChatMessage) : Prop :=
  Forall (fun m => msg_sender m = SenderUser -> m = u) ms.

(** Two sessions, the first one active, and a message typed in. *)
Definition twoSessions : State :=
  setInputValue (js "Say hello")
    (setChatSessions
       [(js "1000",
         sampleSession "1000" "First"
           [plainMessage "1000_ai_welcome" "Welcome!" SenderAI] 1000);
        (js "1500",
         sampleSession "1500" "Second"
           [plainMessage "1500_ai_welcome" "Welcome!" SenderAI] 1500)]
       (readyState 2000)).

(** The texts of the messages of the session stored under [k]. *)
Definition textsOf (k : string) (st : State) : option (list jsstring) :=
  option_map (fun s => map msg_text (ses_messages s))
    (reg_get (js k) (chatSessions st)).

(** The ids of the messages of the session stored under [k]. *)
Definition idsOf (k : string) (st : State) : option (list jsstring) :=
  option_map (fun s => map msg_id (ses_messages s))
    (reg_get (js k) (chatSessions st)).

(** The session under [k] loses its last message. *)
Definition dropLastMessage (k : string) (st : State) : State :=
  match reg_get (js k) (chatSessions st) with
  | Some s =>
      setChatSessions
        (reg_set (js k)
           (mkSession (ses_id s) (ses_title s) (removelast (ses_messages s))
              (ses_model s) (ses_timestamp s) (ses_systemInstruction s))
           (chatSessions st)) st
  | None => st
  end.

(** The session the update of [s] by [f] at time [t] stores. *)
Definition updatedSession (K : Constants) (s : ChatSession)
    (f : list ChatMessage -> list ChatMessage) (ttl : option jsstring)
    (t : Z) : ChatSession :=
  mkSession (ses_id s) (nextTitle K ttl (f (ses_messages s)) (ses_title s))
    (f (ses_messages s)) (ses_model s) t (ses_systemInstruction s).

(** The title [T] stays: it is not the default one, or the only message of a
    user is [u], from whose text [T] was derived. *)
Definition title_settled (K : Constants) (T : jsstring) (u : ChatMessage)
    (s : ChatSession) : Prop :=
  ses_title s = T
  /\ (T ≠ DEFAULT_CHAT_TITLE_BN K
      \/ (only_user u (ses_messages s) /\ deriveTitle (msg_text u) = T)).

(** The transforms the continuation of a send applies to the messages. *)
Definition stream_transform (cl : State) (P : jsstring)
    (f : list ChatMessage -> list ChatMessage) : Prop :=
  (exists t chunk isFinal, f = streamInto cl t P chunk isFinal)
  \/ (exists text, f = map (overwritten P text (currentModel cl))).

(** A stored session without title whose first user message is longer than
    35 characters. *)
Definition untitledSession : ChatSession :=
  mkSession (js "1000") []
    [plainMessage "1000_ai_welcome" "Welcome!" SenderAI;
     plainMessage "1001_user"
       "Tell me about black holes and their event horizons in detail"
       SenderUser]
    B1_REGULAR 1000 (js "general assistant").

(** The first message of a user is the default title itself; a second
    message follows. *)
Definition afterDefaultTitledSend : State :=
  handleSendMessage sampleConstants (mkSendReply None [] 2001 None)
    (setInputValue (js "New Chat") (readyState 2000)).

Definition afterSecondSend : State :=
  handleSendMessage sampleConstants (mkSendReply None [] 3001 None)
    (setInputValue (js "What is a pulsar?") (at_time 3000 afterDefaultTitledSend)).

(** The state before initialization with a stored history and a recorded
    active id. *)
Definition storedState (key : option jsstring) (t : Z) (h : StoredHistory)
    (active : option jsstring) : State :=
  mkState key None None [] None true false None [] false None None false None
    t h active ∅ [] [].

(** The restore of a registry that holds [untitledSession]. *)
Definition restoredUntitled : State :=
  initializeChatLogic sampleConstants never_throws None None
    (storedState (Some (js "key")) 5000
       (Parsed [(js "1000", untitledSession)]) (Some (js "1000"))).

(** The registry that [loadAll] works on, when the stored text decodes. *)
Definition decoded (K : Constants) (h : StoredHistory) : option registry :=
  match h with
  | NoHistory => Some []
  | Unparseable => None
  | Parsed r => Some (map (fun kv => (kv.1, backfillTitle K kv.2)) r)
  end.

(** The session a restore makes up when it has none to go on. *)
Definition freshSession (K : Constants) (mdl : option ModelType) (t : Z)
    : ChatSession :=
  createNewChatSessionObject K t (modelOrDefault K mdl) None None None.

(** The application initialized without a credential, and a message typed
    in. *)
Definition noKeyState : State :=
  setInputValue (js "hi")
    (initializeChatLogic sampleConstants never_throws None None
       (bootState None 1000)).

(** The suffixes the application puts behind [Date.now().toString()] to
    make the id of a message. *)
Definition ID_SUFFIXES : list jsstring :=
  [AI_WELCOME; js "_user"; js "_ai"; js "_user_img_prompt"; js "_ai_img_gen"].

(** An id as the application makes them. *)
Definition generated_id (i : jsstring) : Prop :=
  exists t suffix, suffix ∈ ID_SUFFIXES /\ i = Number_toString t ++ suffix.

(** No code unit of [s] is the underscore. *)
Definition no_underscore (s : jsstring) : Prop := Forall (fun c => c ≠ 95%N) s.

(** ** Further code of the two components *)

(** [localStorage.setItem] of both entries. *)
Definition setStorage (h : StoredHistory) (a : option jsstring) (s : State)
    : State :=
  mkState (apiKey s) (currentUser s) (activeChatId s) (chatSessions s)
    (globalError s) (isChatInitializing s) (isSidebarOpen s) (chatSessionRef s)
    (inputValue s) (isLoadingBotResponse s) (uploadedImageFile s)
    (uploadedImagePreview s) (isProcessingImageGen s) (userImageGenData s)
    (now s) h a (userDocs s) (remoteCalls s) (errorReports s).

(** The effect of [App] on [chatSessions], [activeChatId] and
    [isChatInitializing]: the flush to the durable store. What
    [JSON.stringify] writes for a registry, [JSON.parse] and the repair of the
    dates read back as that registry. *)
Definition persistEffect (st : State) : State :=
  if truthy_opt (activeChatId st)
     && (0 <? Z.of_nat (length (chatSessions st)))
     && negb (isChatInitializing st)
  then setStorage (Parsed (chatSessions st)) (activeChatId st) st
  else st.

(** [sortedChatSessions] of [Sidebar]. *)
Definition sortedChatSessions (st : State) : list ChatSession :=
  sort_desc (reg_values (chatSessions st)).

(** The prop [currentModel] that [App] hands to [Sidebar]. *)
Definition sidebarCurrentModel (K : Constants) (st : State) : ModelType :=
  match if_truthy (activeChatId st) with
  | Some a =>
      match reg_get a (chatSessions st) with
      | Some s => ses_model s
      | None => DEFAULT_MODEL_TYPE K
      end
  | None => DEFAULT_MODEL_TYPE K
  end.

(** [handleNewChatClick] of [Sidebar]. *)
Definition handleNewChatClick (K : Constants)
    (thr : jsstring -> Chat -> bool) (st : State) : State :=
  startNewChat K thr (sidebarCurrentModel K st) st.

(** The "new chat" button of [ChatInterface]. *)
Definition onNewChatRequest (K : Constants)
    (thr : jsstring -> Chat -> bool) (st : State) : State :=
  startNewChat K thr (currentModel st) st.

(** The effect of [ChatInterface] on the id of the active session. *)
Definition activeChatEffect (st : State) : State :=
  setGlobalError None
    (setUploadedImagePreview None
       (setUploadedImageFile None (setInputValue [] st))).

(** A file chosen in the file input; the state keeps it by its name. *)
Record File := mkFile {
  file_name : jsstring;
  file_size : Z;
  file_type : jsstring
}.

(** The state of [ChatInterface] that [State] does not hold: the mode of the
    input row and the value of the file input element. *)
Record Panel := mkPanel {
  panel_state : State;
  isGeneratingImageMode : bool;
  fileInputValue : jsstring
}.

Definition SUPPORTED_IMAGE_TYPES : list jsstring :=
  [js "image/jpeg"; js "image/png"; js "image/webp"; js "image/heic";
   js "image/heif"].

(** The two literal messages of [handleImageUpload], in code units. *)
Definition FILE_TOO_LARGE_BN : jsstring :=
  [2459; 2476; 2495; 32; 2475; 2494; 2439; 2482; 2503; 2480; 32; 2438; 2453;
   2494; 2480; 32; 52; 77; 66; 32; 2447; 2480; 32; 2476; 2503; 2486; 2495;
   32; 2489; 2468; 2503; 32; 2474; 2494; 2480; 2476; 2503; 32; 2472; 2494;
   2404]%N.

Definition UNSUPPORTED_TYPE_BN : jsstring :=
  [2488; 2478; 2480; 2509; 2469; 2495; 2468; 32; 2459; 2476; 2495; 2480; 32;
   2471; 2480; 2467; 58; 32; 74; 80; 69; 71; 44; 32; 80; 78; 71; 44; 32; 87;
   69; 66; 80; 44; 32; 72; 69; 73; 67; 44; 32; 72; 69; 73; 70; 2404]%N.

Section Upload.

Context (K : Constants).

(** [handleImageUpload], up to the start of the read of the file;
    [event.target.files?.[0]] is [file]. *)
Definition handleImageUpload (file : option File) (p : Panel) : Panel :=
  match file with
  | None => p
  | Some f =>
      let st := panel_state p in
      if 4 * 1024 * 1024 <? file_size f
      then mkPanel (setGlobalError (Some FILE_TOO_LARGE_BN) st)
             (isGeneratingImageMode p) []
      else if negb (bool_decide (file_type f ∈ SUPPORTED_IMAGE_TYPES))
      then mkPanel (setGlobalError (Some UNSUPPORTED_TYPE_BN) st)
             (isGeneratingImageMode p) []
      else
        let st1 := setGlobalError None
                     (setUploadedImageFile (Some (file_name f)) st) in
        let st2 :=
          if negb (truthy (trim (inputValue st)))
          then setInputValue (IMAGE_QUERY_PROMPT_DEFAULT_BN K) st1
          else st1 in
        mkPanel st2 false (fileInputValue p)
  end.

(** [reader.onloadend]. *)
Definition onPreviewLoaded (result : option jsstring) (p : Panel) : Panel :=
  mkPanel (setUploadedImagePreview result (panel_state p))
    (isGeneratingImageMode p) (fileInputValue p).

(** The button on the preview that takes the image away. *)
Definition removeImage (p : Panel) : Panel :=
  mkPanel
    (setUploadedImagePreview None (setUploadedImageFile None (panel_state p)))
    (isGeneratingImageMode p) [].

(** The button that switches between chatting and image generation. *)
Definition toggleImageMode (p : Panel) : Panel :=
  if negb (isGeneratingImageMode p)
     && bool_decide (is_Some (uploadedImageFile (panel_state p)))
  then mkPanel
         (setUploadedImagePreview None
            (setUploadedImageFile None (panel_state p)))
         (negb (isGeneratingImageMode p)) []
  else mkPanel (panel_state p) (negb (isGeneratingImageMode p))
         (fileInputValue p).

(** A send from the panel. *)
Definition panelSend (reply : SendReply) (p : Panel) : Panel :=
  mkPanel (handleSendMessage K reply (panel_state p))
    (isGeneratingImageMode p) (fileInputValue p).

End Upload.

(** The effect of [ChatInterface] runs after a render in which the id of
    the active session differs from the one of the render before. *)
Definition onActiveChatChange (prev st : State) : State :=
  if bool_decide (option_map ses_id (activeChatSession prev)
                  = option_map ses_id (activeChatSession st))
  then st
  else activeChatEffect st.

(** [b] is not more recent than [a]. *)
Definition not_after (a b : ChatSession) : Prop :=
  ses_timestamp b <= ses_timestamp a.

(** [Q] is kept by every write that goes through the updater of the
    closure [cl]. *)
Definition update_closed (K : Constants) (cl : State)
    (Q : registry -> Prop) : Prop :=
  forall r t f ttl, Q r -> Q (updateSession K cl t f ttl r).

(** The session [s] is stored under its own id and carries the system
    instruction of its model. *)
Definition session_ok (K : Constants) (k : jsstring) (s : ChatSession) : Prop :=
  k = ses_id s /\ ses_systemInstruction s = getSystemInstruction K (ses_model s).

(** Every session is in order, and no key occurs twice. *)
Definition registry_ok (K : Constants) (r : registry) : Prop :=
  Forall (fun kv => session_ok K kv.1 kv.2) r /\ NoDup (map fst r).

(** The messages of [ms] that do not carry the id [P]. *)
Definition without_id (P : jsstring) (ms : list ChatMessage)
    : list ChatMessage :=
  List.filter (fun m => negb (bool_decide (msg_id m = P))) ms.

(** The remote call of a send: none when the attached file cannot be
    read. *)
Definition sendCalls (K : Constants) (reply : SendReply) (st : State)
    : list RemoteCall :=
  match uploadedImageFile st, reply_fileError reply with
  | Some _, Some _ => []
  | _, _ =>
      [CallSendMessageStream (userMessageText K st)
         (bool_decide (is_Some (uploadedImageFile st)))]
  end.

(** Every code unit of [s] is white space. *)
Definition blank (s : jsstring) : Prop :=
  Forall (fun c => isWhiteSpace c = true) s.


(** In the mode of image generation no image is attached. *)
Definition mode_excludes_file (p : Panel) : Prop :=
  isGeneratingImageMode p = true ->
  uploadedImageFile (panel_state p) = None.

(** The application with a bound handle, nothing typed, in chat mode. *)
Definition readyPanel : Panel := mkPanel (readyState 2000) false [].

Definition sampleFile (size : Z) : File :=
  mkFile (js "cat.png") size (js "image/png").

(** A generation started from the panel, and the effect on a change of the
    active session, as steps of the panel. *)
Definition panelGenerate (K : Constants) (tz : Z -> Z) (reply : ImageReply)
    (p : Panel) : Panel :=
  mkPanel (handleGenerateImage K tz reply (panel_state p)).2
    (isGeneratingImageMode p) (fileInputValue p).

Definition panelActiveChatChange (prev : State) (p : Panel) : Panel :=
  mkPanel (onActiveChatChange prev (panel_state p))
    (isGeneratingImageMode p) (fileInputValue p).

(** [onChange] of the text input. *)
Definition onInputChange (t : jsstring) (p : Panel) : Panel :=
  mkPanel (setInputValue t (panel_state p)) (isGeneratingImageMode p)
    (fileInputValue p).

(** The panel can send: a conversation handle is bound, there is a
    credential, and no exchange is under way. *)
Definition can_send (st : State) : Prop :=
  is_Some (chatSessionRef st) /\ truthy_opt (apiKey st) = true
  /\ isLoadingBotResponse st = false /\ isProcessingImageGen st = false.

(** [isInputCompletelyDisabled] of [ChatInterface]; [authLoading] is a prop
    that [State] does not hold. *)
Definition isInputCompletelyDisabled (authLoading : bool) (st : State)
    : bool :=
  isLoadingBotResponse st || isProcessingImageGen st
  || negb (bool_decide (is_Some (chatSessionRef st)))
  || negb (truthy_opt (apiKey st)) || authLoading || isChatInitializing st.

(** [disabled] of the send button and of the button of image generation. *)
Definition sendDisabled (authLoading : bool) (st : State) : bool :=
  isInputCompletelyDisabled authLoading st
  || (negb (truthy (trim (inputValue st)))
      && negb (bool_decide (is_Some (uploadedImageFile st)))).

Definition generateDisabled (authLoading : bool) (st : State) : bool :=
  isInputCompletelyDisabled authLoading st
  || negb (truthy (trim (inputValue st))) || isProcessingImageGen st
  || negb (bool_decide (is_Some (currentUser st))).

(** The handle that the restore and a selection build for the session [s]. *)
Definition chatFor (K : Constants) (s : ChatSession) : Chat :=
  mkChat (GEMINI_TEXT_MODEL_FLASH K) (ses_systemInstruction s)
    (replay_history (ses_messages s)).

(** The registry that the restore decodes from the stored one. *)
Definition backfilled (K : Constants) (r : registry) : registry :=
  map (fun kv => (kv.1, backfillTitle K kv.2)) r.

(** A library whose [chats.create] throws whatever it is given. *)
Definition always_throws : jsstring -> Chat -> bool := fun _ _ => true.

(** Two stored sessions, each under its own id, and an id recorded as the
    active one. *)
Definition twoStored (active : option jsstring) : State :=
  storedState (Some (js "key")) 5000
    (Parsed [(js "1000", sampleSession "1000" "First" [] 1000);
             (js "1500", sampleSession "1500" "Second" [] 1500)])
    active.

(** ** Lemmas on strings and on the registry *)

Lemma startsWith_app (p s : jsstring) : startsWith p (p ++ s) = true.
Proof.
  induction p as [|a p IH]; simpl; [done |].
  by rewrite N.eqb_refl, IH.
Qed.

Lemma endsWith_app_r (p s : jsstring) : endsWith p (s ++ p) = true.
Proof. unfold endsWith. rewrite rev_app_distr. apply startsWith_app. Qed.

Lemma Number_toString_truthy (z : Z) : truthy (Number_toString z) = true.
Proof.
  unfold Number_toString, NilZero.string_of_int, NilZero.string_of_uint.
  destruct (Z.to_int z) as [d|d]; by destruct d.
Qed.

Lemma reg_get_update k v (r : registry) s :
  reg_get k r = Some s -> reg_get k (reg_update k v r) = Some v.
Proof.
  induction r as [|[k' v'] r IH]; simpl; [done |].
  destruct (decide (k' = k)) as [->|Hne]; simpl.
  - by rewrite decide_True.
  - by rewrite decide_False.
Qed.

Lemma reg_get_update_ne k k' v (r : registry) :
  k ≠ k' -> reg_get k' (reg_update k v r) = reg_get k' r.
Proof.
  intros Hne. induction r as [|[k0 v0] r IH]; simpl; [done |].
  destruct (decide (k0 = k)) as [->|Hne0]; simpl.
  - by rewrite !decide_False.
  - by rewrite IH.
Qed.

Lemma reg_update_keys k v (r : registry) :
  map fst (reg_update k v r) = map fst r.
Proof.
  induction r as [|[k0 v0] r IH]; simpl; [done |].
  destruct (decide (k0 = k)) as [->|Hne]; simpl; [done |]. by rewrite IH.
Qed.

Lemma reg_update_values k v (r : registry) x :
  x ∈ reg_values (reg_update k v r) -> x = v \/ x ∈ reg_values r.
Proof.
  unfold reg_values. induction r as [|[k0 v0] r IH]; simpl; [by right |].
  destruct (decide (k0 = k)); simpl; rewrite !elem_of_cons; intros [->|H];
    auto.
  destruct (IH H); auto.
Qed.

(** A new property is added and nothing else changes, wherever the order of
    enumeration puts it. *)
Lemma reg_put_perm k v (r : registry) : reg_put k v r ≡ₚ (k, v) :: r.
Proof.
  induction r as [|[k0 v0] r IH]; simpl; [done |].
  destruct (enumerated_before k k0); [done |].
  rewrite IH. apply perm_swap.
Qed.

Lemma reg_get_put k v (r : registry) :
  reg_get k r = None -> reg_get k (reg_put k v r) = Some v.
Proof.
  induction r as [|[k0 v0] r IH]; simpl.
  - by rewrite decide_True.
  - destruct (decide (k0 = k)) as [->|Hne]; [done |]. intros Hr.
    destruct (enumerated_before k k0); simpl.
    + by rewrite decide_True.
    + rewrite decide_False by done. by apply IH.
Qed.

Lemma reg_get_put_ne k k' v (r : registry) :
  k ≠ k' -> reg_get k' (reg_put k v r) = reg_get k' r.
Proof.
  intros Hne. induction r as [|[k0 v0] r IH]; simpl.
  - by rewrite decide_False.
  - destruct (enumerated_before k k0); simpl.
    + by rewrite decide_False.
    + by rewrite IH.
Qed.

(** A key that is no array index goes last. *)
Lemma reg_put_last k v (r : registry) :
  arrayIndex k = None -> reg_put k v r = r ++ [(k, v)].
Proof.
  intros Hk. induction r as [|[k0 v0] r IH]; simpl; [done |].
  unfold enumerated_before. rewrite Hk. by rewrite IH.
Qed.

Lemma reg_get_set_eq k v (r : registry) : reg_get k (reg_set k v r) = Some v.
Proof.
  unfold reg_set. destruct (reg_get k r) as [s|] eqn:Hr.
  - by apply (reg_get_update k v r s).
  - by apply reg_get_put.
Qed.

Lemma reg_get_set_ne k k' v (r : registry) :
  k ≠ k' -> reg_get k' (reg_set k v r) = reg_get k' r.
Proof.
  intros Hne. unfold reg_set. destruct (reg_get k r).
  - by apply reg_get_update_ne.
  - by apply reg_get_put_ne.
Qed.

Lemma reg_set_fresh k v (r : registry) :
  reg_get k r = None -> reg_set k v r ≡ₚ (k, v) :: r.
Proof. intros Hr. unfold reg_set. rewrite Hr. apply reg_put_perm. Qed.

Lemma reg_set_last k v (r : registry) :
  reg_get k r = None -> arrayIndex k = None -> reg_set k v r = r ++ [(k, v)].
Proof. intros Hr Hk. unfold reg_set. rewrite Hr. by apply reg_put_last. Qed.

Lemma obj_get_Own k (r : registry) s :
  obj_get k r = Own s <-> reg_get k r = Some s.
Proof.
  unfold obj_get. destruct (reg_get k r) as [s'|].
  - split; by intros [= ->].
  - by destruct (bool_decide _).
Qed.

Lemma obj_get_opt_Own k (r : registry) s :
  obj_get_opt k r = Own s ->
  exists a, k = Some a /\ truthy a = true /\ reg_get a r = Some s.
Proof.
  unfold obj_get_opt, if_truthy, Some_if_truthy.
  destruct k as [a|]; [|done].
  destruct (truthy a) eqn:Ha; [|done].
  intros H. exists a. by apply obj_get_Own in H.
Qed.

(** For a key that names no inherited property, so for every id that the
    application makes, [r[k]] is the read of the own property. *)
Lemma obj_get_own k (r : registry) :
  k ∉ INHERITED_KEYS ->
  obj_get k r = match reg_get k r with Some s => Own s | None => Missing end.
Proof.
  intros Hk. unfold obj_get. by rewrite (bool_decide_eq_false_2 _ Hk).
Qed.

Lemma Number_toString_own (z : Z) : Number_toString z ∉ INHERITED_KEYS.
Proof.
  assert (Hhead : exists c s, Number_toString z = c :: s /\ (c < 65)%N).
  { unfold Number_toString, NilZero.string_of_int, NilZero.string_of_uint.
    destruct (Z.to_int z) as [d|d]; destruct d; simpl; eexists _, _;
      (split; [reflexivity | done]). }
  destruct Hhead as (c & s & -> & Hc). unfold INHERITED_KEYS.
  intros Hin.
  repeat (apply elem_of_cons in Hin as [Hin|Hin];
          [injection Hin as -> _; vm_compute in Hc; discriminate Hc |]).
  by apply elem_of_nil in Hin.
Qed.

(** Where the key resolves to an own property, where it names a property
    that is only inherited, and where it resolves to nothing. *)
Lemma obj_get_opt_cases k (r : registry) :
  obj_get_opt k r
  = match reg_get_opt k r with
    | Some s => Own s
    | None =>
        match if_truthy k with
        | Some a => if bool_decide (a ∈ INHERITED_KEYS) then Inherited
                    else Missing
        | None => Missing
        end
    end.
Proof.
  unfold obj_get_opt, reg_get_opt, obj_get.
  destruct (if_truthy k) as [a|]; [|done]. by destruct (reg_get a r).
Qed.

Lemma reg_get_map k (f : ChatSession -> ChatSession) (r : registry) :
  reg_get k (map (fun kv => (kv.1, f kv.2)) r) = option_map f (reg_get k r).
Proof.
  induction r as [|[k0 v0] r IH]; simpl; [done |].
  by destruct (decide (k0 = k)).
Qed.

(** ** Model selection (frame property) *)

Lemma startNewChat_sessions K thr model st :
  chatSessions (startNewChat K thr model st)
  = reg_set (Number_toString (now st))
      (createNewChatSessionObject K (now st) model None None None)
      (chatSessions st).
Proof.
  unfold startNewChat. simpl.
  destruct (if_truthy (apiKey st)) as [key|]; simpl; [|done].
  by destruct (thr key _).
Qed.

Lemma startNewChat_active K thr model st :
  activeChatId (startNewChat K thr model st) = Some (Number_toString (now st)).
Proof.
  unfold startNewChat. simpl.
  destruct (if_truthy (apiKey st)) as [key|]; simpl; [|done].
  by destruct (thr key _).
Qed.

(** C10 as stated fails. The id of the new session is the reading of the
    clock, and nothing checks that it is fresh: when a session was created at
    the same reading, as the active one here, the new session takes its place
    and its messages are gone. *)
Lemma model_change_counterexample :
  let t := 1700000000000 in
  let question :=
    plainMessage "1700000000000_user" "What is a black hole?" SenderUser in
  let old := sampleSession "1700000000000" "Black holes" [question] t in
  let st := setActiveChatId (Some (js "1700000000000"))
              (setChatSessions [(js "1700000000000", old)]
                 (bootState (Some (js "key")) t)) in
  let st' := handleModelChangeOnSidebar sampleConstants never_throws B2_CODING
               st in
  reg_get (js "1700000000000") (chatSessions st) = Some old
  /\ ses_model old = B1_REGULAR
  /\ map fst (chatSessions st') = [js "1700000000000"]
  /\ option_map ses_model (reg_get (js "1700000000000") (chatSessions st'))
     = Some B2_CODING
  /\ option_map ses_messages (reg_get (js "1700000000000") (chatSessions st'))
     = Some [welcomeMessage sampleConstants t B2_CODING]
  /\ reg_get (js "1700000000000") (chatSessions st') ≠ Some old.
Proof. repeat split; try reflexivity. vm_compute. discriminate. Qed.

(** C10, amended. Selecting the model the active session already has changes
    nothing. Selecting another one creates a session under the id drawn from
    the clock, seeded with the welcome message and carrying the system
    instruction of the new model, and makes it active; every session stored
    under another id is still there, unchanged. When no session is stored
    under the id of the new one, the registry is the old one with the new
    session added, at its end unless the id is an array index; a session that
    is stored under that id is replaced by the new one. *)
Theorem model_change_keeps_sessions K thr (newModel : ModelType) (st : State)
    (a : jsstring) (s : ChatSession) :
  if_truthy (activeChatId st) = Some a ->
  reg_get a (chatSessions st) = Some s ->
  let st' := handleModelChangeOnSidebar K thr newModel st in
  let id := Number_toString (now st) in
  let fresh :=
    mkSession id (DEFAULT_CHAT_TITLE_BN K)
      [mkMessage (id ++ js "_ai_welcome") (INITIAL_WELCOME_MESSAGE_BN K)
         SenderAI (now st) None None None (Some newModel)]
      newModel (now st)
      (match newModel with
       | B2_CODING => SYSTEM_INSTRUCTION_B2_BN K
       | B1_REGULAR => SYSTEM_INSTRUCTION_B1_BN K
       end) in
  (ses_model s = newModel -> st' = st)
  /\ (ses_model s ≠ newModel ->
      activeChatId st' = Some id
      /\ reg_get id (chatSessions st') = Some fresh
      /\ (forall k, k ≠ id ->
            reg_get k (chatSessions st') = reg_get k (chatSessions st))
      /\ (reg_get id (chatSessions st) = None ->
          chatSessions st' ≡ₚ (id, fresh) :: chatSessions st)
      /\ (reg_get id (chatSessions st) = None ->
          arrayIndex id = None ->
          chatSessions st' = chatSessions st ++ [(id, fresh)])
      /\ (is_Some (reg_get id (chatSessions st)) ->
          map fst (chatSessions st') = map fst (chatSessions st))).
Proof.
  intros Ha Hs st' id fresh.
  assert (Hnew : createNewChatSessionObject K (now st) newModel None None None
                 = fresh) by (by destruct newModel).
  subst st'. unfold handleModelChangeOnSidebar. rewrite Ha, Hs. simpl.
  split.
  - intros ->. by rewrite bool_decide_eq_true_2.
  - intros Hne. rewrite bool_decide_eq_false_2 by congruence.
    rewrite startNewChat_sessions, startNewChat_active, Hnew. fold id.
    split; [done |]. split; [apply reg_get_set_eq |].
    split; [intros k Hk; by apply reg_get_set_ne |].
    split; [apply reg_set_fresh |].
    split; [apply reg_set_last |].
    intros [old Hold]. unfold reg_set. rewrite Hold. apply reg_update_keys.
Qed.

(** C10 on a registry of one session, created at 1000; the model is changed
    at 2000. *)
Lemma model_change_keeps_sessions_witness :
  let st := setActiveChatId (Some (js "1000"))
              (setChatSessions
                 [(js "1000", sampleSession "1000" "Black holes" [] 1000)]
                 (bootState (Some (js "key")) 2000)) in
  let st' := handleModelChangeOnSidebar sampleConstants never_throws B2_CODING st in
  activeChatId st' = Some (js "2000")
  /\ reg_get (js "1000") (chatSessions st')
     = Some (sampleSession "1000" "Black holes" [] 1000).
Proof.
  intros st st'.
  destruct (model_change_keeps_sessions sampleConstants never_throws B2_CODING
              st (js "1000") (sampleSession "1000" "Black holes" [] 1000))
    as (_ & Hnew); [reflexivity | reflexivity |].
  destruct Hnew as (Hactive & _ & Hold & _); [discriminate |].
  split; [exact Hactive |].
  subst st'. rewrite Hold; [reflexivity | discriminate].
Defined.

(** ** Replay of the history on rebind *)

Lemma startsWith_cons (a b : N) (p s : jsstring) :
  startsWith (a :: p) (b :: s) = (a =? b)%N && startsWith p s.
Proof. reflexivity. Qed.

Lemma js_String (c : ascii) (s : string) :
  js (String c s) = N_of_ascii c :: js s.
Proof. reflexivity. Qed.

Lemma uint_no_underscore (d : Decimal.uint) :
  no_underscore (js (NilEmpty.string_of_uint d)).
Proof.
  induction d; simpl;
    [constructor
    |rewrite js_String; constructor; [vm_compute; discriminate | exact IHd] ..].
Qed.

Lemma Number_toString_no_underscore (z : Z) : no_underscore (Number_toString z).
Proof.
  unfold Number_toString, NilZero.string_of_int, NilZero.string_of_uint.
  destruct (Z.to_int z) as [d|d];
    [|rewrite js_String; constructor; [vm_compute; discriminate |]];
    (destruct d;
     [repeat constructor; vm_compute; discriminate
     |apply uint_no_underscore ..]).
Qed.

Lemma includes_marker_skip (ds s : jsstring) :
  no_underscore ds -> includes AI_WELCOME (ds ++ s) = includes AI_WELCOME s.
Proof.
  induction 1 as [|d ds Hd _ IH]; [done |].
  change (includes AI_WELCOME ((d :: ds) ++ s))
    with (startsWith AI_WELCOME (d :: ds ++ s) || includes AI_WELCOME (ds ++ s)).
  rewrite IH. change AI_WELCOME with (95%N :: js "ai_welcome") at 1.
  rewrite startsWith_cons.
  destruct (N.eqb_spec 95 d) as [<-|_]; done.
Qed.

(** For the ids the application makes, the marker is found in the id exactly
    when the id ends with it. *)
Lemma generated_id_marker (i : jsstring) :
  generated_id i -> includes AI_WELCOME i = endsWith AI_WELCOME i.
Proof.
  intros (t & suffix & Hin & ->).
  rewrite includes_marker_skip by apply Number_toString_no_underscore.
  unfold endsWith. rewrite rev_app_distr. unfold ID_SUFFIXES in Hin.
  repeat (apply elem_of_cons in Hin as [->|Hin]);
    [by rewrite startsWith_app | done .. | by apply elem_of_nil in Hin].
Qed.

Lemma replay_keep_spec (m : ChatMessage) :
  includes AI_WELCOME (msg_id m) = endsWith AI_WELCOME (msg_id m) ->
  replay_keep m = negb (isWelcome m) && truthy (msg_text m).
Proof.
  unfold replay_keep, isWelcome. intros ->.
  destruct (msg_sender m), (endsWith AI_WELCOME (msg_id m)),
    (truthy (msg_text m)); reflexivity.
Qed.

Lemma replay_turn_spec (m : ChatMessage) :
  replay_turn m = mkTurn (roleOf (msg_sender m)) (msg_text m).
Proof. unfold replay_turn. by destruct (msg_sender m). Qed.

Lemma replay_history_spec (ms : list ChatMessage) :
  marker_only_suffix ms -> replay_history ms = replay_spec ms.
Proof.
  unfold replay_history, replay_spec.
  induction 1 as [|m ms Hm _ IH]; simpl; [done |].
  rewrite (replay_keep_spec m Hm).
  destruct (negb (isWelcome m) && truthy (msg_text m)); simpl;
    [rewrite replay_turn_spec|]; by rewrite IH.
Qed.

(** The state in which the [try] block of the restore ends normally: the
    handle was built from the session the active id resolves to. *)
Lemma loadAll_try_binds K thr key sid mdl st st' :
  loadAll_try K thr key sid mdl st = inl st' ->
  exists a s,
    activeChatId st' = Some a
    /\ reg_get a (chatSessions st') = Some s
    /\ chatSessionRef st'
       = Some (mkChat (GEMINI_TEXT_MODEL_FLASH K) (ses_systemInstruction s)
                 (replay_history (ses_messages s))).
Proof.
  unfold loadAll_try.
  set (stored := if truthy_opt sid then sid else storedActiveChatId st).
  destruct (match storedHistory st with
            | NoHistory => Some []
            | Unparseable => None
            | Parsed r => Some (map (fun kv => (kv.1, backfillTitle K kv.2)) r)
            end) as [loaded|]; [|done].
  destruct (obj_get_opt stored loaded) as [s| |] eqn:Hfound.
  - apply obj_get_opt_Own in Hfound as (a & Hst & _ & Ha).
    destruct (thr key _); [done |]. intros [= <-].
    exists a, s. by rewrite Hst.
  - done.
  - destruct ((0 <? Z.of_nat (length loaded)) && negb (truthy_opt sid)).
    + destruct (head (sort_desc (reg_values loaded))) as [h|]; simpl; [|done].
      destruct (obj_get (ses_id h) loaded) as [s| |] eqn:Hs; [|done..].
      apply obj_get_Own in Hs.
      destruct (thr key _); [done |]. intros [= <-].
      by exists (ses_id h), s.
    + destruct (thr key _); [done |]. intros [= <-]. simpl.
      eexists _, _. split; [done |]. split; [apply reg_get_set_eq | done].
Qed.

(** C6. On both rebinds that replay a history (the restore at load and the
    selection of another session) the handle is built from the system
    instruction of the session and from exactly its messages, in their order,
    without the welcome entry and without the messages of empty text, a user
    message in the role "user" and an AI message in the role "model". The
    code recognises the welcome entry by the reserved marker occurring in the
    id; for ids that carry the marker only as their suffix, as all ids that
    the application makes do, this is the suffix test. The history of a
    session that holds nothing but its welcome message is empty. *)
Theorem rebind_replays_history K thr (s : ChatSession) :
  marker_only_suffix (ses_messages s) ->
  let chat :=
    mkChat (GEMINI_TEXT_MODEL_FLASH K) (ses_systemInstruction s)
      (replay_spec (ses_messages s)) in
  (forall st sessionId key,
      Some sessionId ≠ activeChatId st ->
      reg_get sessionId (chatSessions st) = Some s ->
      if_truthy (apiKey st) = Some key ->
      thr key chat = false ->
      let st' := selectChatSession K thr sessionId st in
      activeChatId st' = Some sessionId /\ chatSessionRef st' = Some chat)
  /\ (forall st key sid mdl st' a,
        loadAll_try K thr key sid mdl st = inl st' ->
        activeChatId st' = Some a ->
        reg_get a (chatSessions st') = Some s ->
        chatSessionRef st' = Some chat)
  /\ replay_spec
       [plainMessage "1_ai_welcome" "welcome" SenderAI;
        plainMessage "2_user" "hi" SenderUser;
        plainMessage "2_ai" "hello" SenderAI]
     = [mkTurn (js "user") (js "hi"); mkTurn (js "model") (js "hello")]
  /\ (forall ms, Forall (fun m => generated_id (msg_id m)) ms ->
                 marker_only_suffix ms)
  /\ (forall t model, replay_spec [welcomeMessage K t model] = []).
Proof.
  intros Hids chat. subst chat. rewrite <- (replay_history_spec _ Hids).
  split; [|split; [|split; [|split]]];
    [| | |intros ms Hms; eapply Forall_impl; [exact Hms |];
          intros m; apply generated_id_marker
        |intros t model; unfold replay_spec, isWelcome; simpl;
         by rewrite endsWith_app_r].
  - intros st sessionId key Hne Hs Hkey Hthr. unfold selectChatSession.
    rewrite bool_decide_eq_false_2 by done. rewrite Hs. simpl.
    rewrite Hkey, Hthr. done.
  - intros st key sid mdl st' a Htry Ha Hs.
    destruct (loadAll_try_binds _ _ _ _ _ _ _ Htry) as (a' & s' & Ha' & Hs' & ->).
    rewrite Ha in Ha'. injection Ha' as <-. rewrite Hs in Hs'.
    by injection Hs' as <-.
  - reflexivity.
Qed.

(** C6 on the session of the specification's example. *)
Lemma rebind_replays_history_witness :
  let ms := [plainMessage "1_ai_welcome" "welcome" SenderAI;
             plainMessage "2_user" "hi" SenderUser;
             plainMessage "2_ai" "hello" SenderAI] in
  let s := sampleSession "1" "hi" ms 1000 in
  let st := setChatSessionRef None
              (setChatSessions [(js "1", s)] (bootState (Some (js "key")) 2000)) in
  chatSessionRef (selectChatSession sampleConstants never_throws (js "1") st)
  = Some (mkChat (js "gemini-flash") (js "general assistant")
            [mkTurn (js "user") (js "hi"); mkTurn (js "model") (js "hello")]).
Proof.
  intros ms s st.
  assert (Hids : marker_only_suffix (ses_messages s))
    by (repeat constructor).
  destruct (rebind_replays_history sampleConstants never_throws s Hids)
    as (Hsel & _).
  apply (Hsel st (js "1") (js "key")); [discriminate | reflexivity ..].
Defined.

(** ** Daily quota of image generations *)

Lemma fixedOffset_laws off : zone_laws (fixedOffset off).
Proof.
  unfold zone_laws, fixedOffset, MS_PER_DAY. repeat split.
  - intros t. pose proof (Z.mul_div_le (t + off) 86400000 ltac:(lia)). lia.
  - intros a b H.
    pose proof (Z.div_le_mono (a + off) (b + off) 86400000
                  ltac:(lia) ltac:(lia)).
    lia.
  - intros t.
    replace ((t + off) / 86400000 * 86400000 - off + off)
      with ((t + off) / 86400000 * 86400000) by lia.
    rewrite Z.div_mul; lia.
Qed.

Ltac zone_cases :=
  repeat match goal with
         | |- context [?a <? ?b] => destruct (Z.ltb_spec a b)
         end;
  Z.div_mod_to_equations; lia.

Lemma centralEurope2023_laws : zone_laws centralEurope2023.
Proof.
  unfold zone_laws, centralEurope2023, springForward, fixedOffset, MS_PER_DAY.
  repeat split.
  - intros t. zone_cases.
  - intros a b H. zone_cases.
  - intros t. zone_cases.
Qed.

(** An instant in the past is of the local day of [t] exactly when it is not
    before the start of that day. *)
Lemma sameLocalDay_iff tz (l t : Z) :
  zone_laws tz -> l <= t -> (sameLocalDay tz l t <-> tz t <= l).
Proof.
  intros (Hle & Hmono & Hidem) Hlt. unfold sameLocalDay. split.
  - intros <-. apply Hle.
  - intros H. apply Z.le_antisymm; [by apply Hmono |].
    rewrite <- (Hidem t). by apply Hmono.
Qed.

Lemma currentCount_same_day tz (d : UserImageGenerationData) (t : Z) :
  zone_laws tz ->
  lastGeneratedAt d <= t ->
  (sameLocalDay tz (lastGeneratedAt d) t -> currentCount tz (Some d) t = count d)
  /\ (~ sameLocalDay tz (lastGeneratedAt d) t -> currentCount tz (Some d) t = 0).
Proof.
  intros Hlaws Hle. unfold currentCount.
  pose proof (sameLocalDay_iff tz (lastGeneratedAt d) t Hlaws Hle) as Hiff.
  destruct (Z.leb_spec (tz t) (lastGeneratedAt d)); split; intros Hday;
    try done.
  - destruct Hday. by apply Hiff.
  - apply Hiff in Hday. lia.
Qed.

Lemma quota_consulted_unfold st :
  quota_consulted st ->
  exists key user,
    negb (truthy (trim (inputValue st))) || isLoadingBotResponse st
      || isProcessingImageGen st = false
    /\ if_truthy (apiKey st) = Some key /\ currentUser st = Some user.
Proof.
  intros (Hin & Hl & Hp & Hk & [user Hu]).
  unfold truthy_opt in Hk. destruct (apiKey st) as [key|] eqn:Hkey; [|done].
  exists key, user. rewrite Hin, Hl, Hp. simpl. unfold Some_if_truthy.
  by rewrite Hk.
Qed.

(** C4 as stated fails. The count of a record dated later than today is
    still in force, although the record is not of the same local day: here a
    record of three generations stamped two hours ahead, past midnight,
    blocks a request. *)
Lemma quota_same_day_counterexample :
  let t := 1700000000000 in
  let d := mkGenData 3 (t + 7200000) in
  ~ sameLocalDay utc (lastGeneratedAt d) t
  /\ currentCount utc (Some d) t = 3
  /\ (handleGenerateImage sampleConstants utc
        (mkImageReply t (inl (js "png")) t None t)
        (setUserImageGenData (Some d)
           (setInputValue (js "a cat") (signedInState t)))).1
     = ImageQuotaExceeded.
Proof. repeat split; [|reflexivity..]. vm_compute. discriminate. Qed.

(** C4, amended. The count in force at [t] is the recorded one when the
    record is dated at or after the local midnight that begins the day of
    [t], and 0 otherwise; for a record that is not dated after [t] this is
    the test of the same local calendar day, in every time zone. A request
    that reaches the quota check is refused with QuotaExceeded exactly when
    the count in force reaches the limit; otherwise, once the image has
    arrived and the write went through, the stored record and the cache hold
    the count in force at that time plus one. With a limit of 3, three
    requests of one day end with the counts 1, 2, 3, the fourth is refused,
    and a request of the next day ends with the count 1: in UTC, and in
    Central European time on the day on which summer time begins, which
    starts at 23:00 UTC and ends at 22:00 UTC. *)
Theorem quota_count_in_force K tz (reply : ImageReply) (st : State) :
  quota_consulted st ->
  zone_laws tz ->
  let r := handleGenerateImage K tz reply st in
  (forall d t,
      currentCount tz (Some d) t
      = if decide (tz t <= lastGeneratedAt d) then count d else 0)
  /\ (forall d t, lastGeneratedAt d <= t ->
        (sameLocalDay tz (lastGeneratedAt d) t ->
         currentCount tz (Some d) t = count d)
        /\ (~ sameLocalDay tz (lastGeneratedAt d) t ->
            currentCount tz (Some d) t = 0))
  /\ (r.1 = ImageQuotaExceeded
      <-> DAILY_IMAGE_GENERATION_LIMIT K
          <= currentCount tz (userImageGenData st) (now st))
  /\ (forall user image,
        currentUser st = Some user ->
        currentCount tz (userImageGenData st) (now st)
          < DAILY_IMAGE_GENERATION_LIMIT K ->
        img_result reply = inl image ->
        setDoc_error reply = None ->
        let n := currentCount tz (userImageGenData st) (img_at reply) + 1 in
        r.1 = ImageGenerated
        /\ userDocs r.2 !! uid user
           = Some (mkGenData n (setDoc_serverTime reply))
        /\ userImageGenData r.2 = Some (mkGenData n (setDoc_at reply)))
  /\ (let day := 1700000000000 in
      let r1 := generateAt day (signedInState day) in
      let r2 := generateAt (day + 1000) r1.2 in
      let r3 := generateAt (day + 2000) r2.2 in
      let r4 := generateAt (day + 3000) r3.2 in
      let r5 := generateAt (day + MS_PER_DAY) r4.2 in
      map (fun r => (r.1, option_map count (userImageGenData r.2)))
          [r1; r2; r3; r4; r5]
      = [(ImageGenerated, Some 1); (ImageGenerated, Some 2);
         (ImageGenerated, Some 3); (ImageQuotaExceeded, Some 3);
         (ImageGenerated, Some 1)])
  /\ (let midnight := 1679785200000 in
      let hour := 3600000 in
      let r1 := generateIn centralEurope2023 (midnight + hour / 2)
                  (signedInState midnight) in
      let r2 := generateIn centralEurope2023 (midnight + hour) r1.2 in
      let r3 := generateIn centralEurope2023 (midnight + 3 * hour) r2.2 in
      let r4 := generateIn centralEurope2023 (midnight + 23 * hour - 1) r3.2 in
      let r5 := generateIn centralEurope2023 (midnight + 23 * hour) r4.2 in
      centralEurope2023 (midnight + 23 * hour - 1) = midnight
      /\ centralEurope2023 (midnight + 23 * hour) = midnight + 23 * hour
      /\ map (fun r => (r.1, option_map count (userImageGenData r.2)))
             [r1; r2; r3; r4; r5]
         = [(ImageGenerated, Some 1); (ImageGenerated, Some 2);
            (ImageGenerated, Some 3); (ImageQuotaExceeded, Some 3);
            (ImageGenerated, Some 1)]).
Proof.
  intros Hq Hlaws r.
  destruct (quota_consulted_unfold st Hq) as (key & user & Hg & Hkey & Huser).
  split; [|split; [|split; [|split; [|split]]]].
  - intros d t. unfold currentCount.
    destruct (Z.leb_spec (tz t) (lastGeneratedAt d));
      case_decide; done || lia.
  - intros d t. by apply currentCount_same_day.
  - subst r. unfold handleGenerateImage. rewrite Hg, Hkey, Huser.
    destruct (Z.leb_spec (DAILY_IMAGE_GENERATION_LIMIT K)
                (currentCount tz (userImageGenData st) (now st))) as [Hle|Hlt].
    + simpl. split; [done | intros _; done].
    + split; [|lia]. intros Hexit. exfalso. revert Hexit.
      destruct (img_result reply); [destruct (setDoc_error reply)|]; done.
  - intros user' image Hu Hlt Himg Hdoc n. subst r n.
    unfold handleGenerateImage. rewrite Hg, Hkey, Hu.
    destruct (Z.leb_spec (DAILY_IMAGE_GENERATION_LIMIT K)
                (currentCount tz (userImageGenData st) (now st))); [lia |].
    rewrite Himg, Hdoc. simpl. split; [done |]. split; [|done].
    apply lookup_insert_eq.
  - vm_compute. reflexivity.
  - vm_compute. repeat split; reflexivity.
Qed.

(** C4 on the first request of a signed-in user, on the day on which summer
    time begins. *)
Lemma quota_count_in_force_witness :
  let st := setInputValue (js "a cat") (signedInState 1679824800000) in
  (handleGenerateImage sampleConstants centralEurope2023
     (mkImageReply 1679824800500 (inl (js "png")) 1679824800600 None
        1679824800700) st).1 = ImageGenerated.
Proof.
  intros st.
  assert (Hq : quota_consulted st).
  { repeat split; try reflexivity. by exists sampleUser. }
  destruct (quota_count_in_force sampleConstants centralEurope2023
              (mkImageReply 1679824800500 (inl (js "png")) 1679824800600 None
                 1679824800700) st Hq centralEurope2023_laws)
    as (_ & _ & _ & Hgen & _).
  apply (Hgen sampleUser (js "png")); [reflexivity | | reflexivity ..].
  vm_compute. reflexivity.
Defined.

(** The guards of [handleGenerateImage] and the outcomes behind them, one
    goal for each exit. *)
Ltac image_guards st reply :=
  destruct (negb (truthy (trim (inputValue st))) || isLoadingBotResponse st
            || isProcessingImageGen st);
  [|destruct (if_truthy (apiKey st));
    [destruct (currentUser st);
     [destruct (_ <=? _);
      [|destruct (img_result reply); [destruct (setDoc_error reply)|]]|]|]].

(** C5. A request refused with QuotaExceeded or with LoginRequired leaves
    the log of remote calls, every session, the quota cache and the stored
    quota documents as they were, and shows the respective message. For a
    signed-out user the outcome does not depend on the quota cache, and a
    request that passes the earlier guards (a prompt, no exchange under way, a
    credential) is refused with LoginRequired. *)
Theorem image_rejection_is_pure K tz (reply : ImageReply) (st : State) :
  let r := handleGenerateImage K tz reply st in
  ((r.1 = ImageQuotaExceeded \/ r.1 = ImageLoginRequired) ->
   remoteCalls r.2 = remoteCalls st
   /\ chatSessions r.2 = chatSessions st
   /\ userImageGenData r.2 = userImageGenData st
   /\ userDocs r.2 = userDocs st)
  /\ (r.1 = ImageQuotaExceeded ->
      globalError r.2 = Some (IMAGE_LIMIT_REACHED_BN K))
  /\ (r.1 = ImageLoginRequired ->
      globalError r.2 = Some (IMAGE_GENERATION_LOGIN_REQUIRED_BN K))
  /\ (currentUser st = None ->
      (forall d reply',
          (handleGenerateImage K tz reply' (setUserImageGenData d st)).1 = r.1)
      /\ (truthy (trim (inputValue st)) = true ->
          isLoadingBotResponse st = false ->
          isProcessingImageGen st = false ->
          truthy_opt (apiKey st) = true ->
          r.1 = ImageLoginRequired)).
Proof.
  intros r. subst r. unfold handleGenerateImage.
  split; [|split; [|split]].
  1-3: image_guards st reply; simpl; intuition discriminate.
  - intros Hu. rewrite Hu. split.
    + intros d reply'. simpl. rewrite Hu.
      destruct (negb (truthy (trim (inputValue st))) || isLoadingBotResponse st
                || isProcessingImageGen st); [done |].
      by destruct (if_truthy (apiKey st)).
    + intros -> -> -> Hk. simpl.
      unfold truthy_opt in Hk. destruct (apiKey st) as [k|]; [|done].
      simpl. unfold Some_if_truthy. by rewrite Hk.
Qed.

(** ** Streaming reconciliation *)

Lemma withText_same (m : ChatMessage) :
  withText m (msg_text m ++ []) (msg_modelUsed m) = m.
Proof. destruct m. unfold withText. simpl. by rewrite app_nil_r. Qed.

Lemma appended_nil P ms : map (appended P []) ms = ms.
Proof.
  induction ms as [|m ms IH]; simpl; [done |]. rewrite IH. f_equal.
  unfold appended. case_bool_decide; [apply withText_same | done].
Qed.

Lemma appended_appended P c1 c2 ms :
  map (appended P c2) (map (appended P c1) ms) = map (appended P (c1 ++ c2)) ms.
Proof.
  rewrite map_map. apply map_ext. intros m. unfold appended.
  destruct (decide (msg_id m = P)) as [Hid|Hid].
  - rewrite (bool_decide_eq_true_2 _ Hid). unfold withText. simpl.
    rewrite (bool_decide_eq_true_2 _ Hid). by rewrite app_assoc.
  - by rewrite !(bool_decide_eq_false_2 _ Hid).
Qed.

Lemma streamed_appended P c model ms :
  map (streamed P [] model) (map (appended P c) ms)
  = map (streamed P c model) ms.
Proof.
  rewrite map_map. apply map_ext. intros m. unfold appended, streamed.
  destruct (decide (msg_id m = P)) as [Hid|Hid].
  - rewrite (bool_decide_eq_true_2 _ Hid). unfold withText. simpl.
    rewrite (bool_decide_eq_true_2 _ Hid). by rewrite app_nil_r.
  - by rewrite !(bool_decide_eq_false_2 _ Hid).
Qed.

Lemma overwritten_appended P c text model ms :
  map (overwritten P text model) (map (appended P c) ms)
  = map (overwritten P text model) ms.
Proof.
  rewrite map_map. apply map_ext. intros m. unfold appended, overwritten.
  destruct (decide (msg_id m = P)) as [Hid|Hid].
  - rewrite (bool_decide_eq_true_2 _ Hid). unfold withText. simpl.
    by rewrite (bool_decide_eq_true_2 _ Hid).
  - by rewrite !(bool_decide_eq_false_2 _ Hid).
Qed.

Lemma has_id_appended P c ms : has_id P (map (appended P c) ms) = has_id P ms.
Proof.
  unfold has_id. induction ms as [|m ms IH]; simpl; [done |]. rewrite IH.
  f_equal. unfold appended.
  destruct (decide (msg_id m = P)) as [Hid|Hid].
  - rewrite (bool_decide_eq_true_2 _ Hid). simpl.
    by rewrite (bool_decide_eq_true_2 _ Hid).
  - by rewrite !(bool_decide_eq_false_2 _ Hid).
Qed.

Lemma has_id_last P ms m : msg_id m = P -> has_id P (ms ++ [m]) = true.
Proof.
  intros H. unfold has_id. rewrite existsb_app. simpl.
  rewrite bool_decide_eq_true_2 by done. by rewrite orb_true_r.
Qed.

Lemma map_unmatched (f : ChatMessage -> ChatMessage) P ms :
  (forall m, msg_id m ≠ P -> f m = m) ->
  Forall (fun m => msg_id m ≠ P) ms -> map f ms = ms.
Proof.
  intros Hf. induction 1 as [|m ms Hm _ IH]; simpl; [done |].
  by rewrite IH, Hf.
Qed.

(** The message transform of [updateAIMessageStream], case by case. *)
Lemma streamInto_present cl t P chunk ms :
  has_id P ms = true ->
  streamInto cl t P chunk false ms = map (appended P chunk) ms.
Proof. unfold streamInto, has_id. by intros ->. Qed.

Lemma streamInto_final cl t P ms :
  streamInto cl t P [] true ms = map (streamed P [] (currentModel cl)) ms.
Proof. unfold streamInto. simpl. by rewrite andb_false_r. Qed.

Lemma streamInto_absent cl t P chunk isFinal ms :
  has_id P ms = false ->
  streamInto cl t P chunk isFinal ms
  = if truthy chunk
    then ms ++ [mkMessage P chunk SenderAI t None None None
                  (Some (currentModel cl))]
    else ms.
Proof.
  unfold streamInto, has_id. intros Habs. rewrite Habs. simpl.
  assert (Hmap : forall f, map (fun msg => if bool_decide (msg_id msg = P)
                                           then f msg else msg) ms = ms).
  { intros f. induction ms as [|m ms IH]; simpl in *; [done |].
    apply orb_false_iff in Habs as [Hm Hms]. by rewrite Hm, IH. }
  by rewrite Hmap.
Qed.

(** The registry updater, on a session that is there and on one that is
    not. *)
Lemma updateSession_hit K cl t fn ttl (r : registry) a s :
  activeChatSession cl = Some a ->
  reg_get (ses_id a) r = Some s ->
  updateSession K cl t fn ttl r
  = reg_set (ses_id a)
      (mkSession (ses_id s) (nextTitle K ttl (fn (ses_messages s)) (ses_title s))
         (fn (ses_messages s)) (ses_model s) t (ses_systemInstruction s)) r.
Proof. unfold updateSession. by intros -> ->. Qed.

Lemma updateSession_miss K cl t fn ttl (r : registry) a :
  activeChatSession cl = Some a ->
  reg_get (ses_id a) r = None ->
  updateSession K cl t fn ttl r = r.
Proof. unfold updateSession. by intros -> ->. Qed.

Lemma updateSession_other K cl t fn ttl (r : registry) a k :
  activeChatSession cl = Some a ->
  k ≠ ses_id a ->
  reg_get k (updateSession K cl t fn ttl r) = reg_get k r.
Proof.
  intros Ha Hne. unfold updateSession. rewrite Ha.
  destruct (reg_get (ses_id a) r); [|done].
  by apply reg_get_set_ne.
Qed.

Lemma update_session_messages K cl fn ttl st a ms :
  activeChatSession cl = Some a ->
  session_messages (ses_id a) st ms ->
  session_messages (ses_id a) (updateCurrentSessionMessages K cl fn ttl st)
    (fn ms).
Proof.
  intros Ha (s & Hs & <-). unfold updateCurrentSessionMessages. simpl.
  rewrite (updateSession_hit _ _ _ _ _ _ _ _ Ha Hs).
  eexists. split; [apply reg_get_set_eq | done].
Qed.

Lemma onChunk_messages K ctx a c st ms :
  activeChatSession (ctx_closure ctx) = Some a ->
  has_id (ctx_aiMessageId ctx) ms = true ->
  session_messages (ses_id a) st ms ->
  session_messages (ses_id a) (onChunk K ctx c st)
    (map (appended (ctx_aiMessageId ctx) (default [] c)) ms).
Proof.
  intros Ha Hid Hs. unfold onChunk.
  destruct c as [text|]; simpl; [|by rewrite appended_nil].
  destruct text as [|u text]; simpl; [by rewrite appended_nil |].
  rewrite <- (streamInto_present (ctx_closure ctx) (now st)) by done.
  by apply update_session_messages.
Qed.

Lemma streamChunks_messages K ctx a chunks st ms :
  activeChatSession (ctx_closure ctx) = Some a ->
  has_id (ctx_aiMessageId ctx) ms = true ->
  session_messages (ses_id a) st ms ->
  session_messages (ses_id a) (streamChunks K ctx chunks st)
    (map (appended (ctx_aiMessageId ctx) (concat (fragments chunks))) ms).
Proof.
  intros Ha. revert st ms.
  induction chunks as [|c chunks IH]; intros st ms Hid Hs; simpl.
  - by rewrite appended_nil.
  - rewrite <- appended_appended. apply IH; [by rewrite has_id_appended |].
    by apply onChunk_messages.
Qed.

(** Only the registry and the clock move while a stream is consumed. *)
Lemma streamChunks_frame K ctx chunks st :
  exists r t, streamChunks K ctx chunks st = at_time t (setChatSessions r st).
Proof.
  revert st. induction chunks as [|c chunks IH]; intros st; simpl.
  - exists (chatSessions st), (now st). by destruct st.
  - destruct (IH (onChunk K ctx c.2 (at_time c.1 st))) as (r & t & ->).
    exists r, t. unfold onChunk.
    destruct c.2 as [text|]; [destruct (truthy text)|]; done.
Qed.

Lemma app_two {A} (l : list A) (x y : A) : l ++ [x; y] = (l ++ [x]) ++ [y].
Proof. by rewrite <- app_assoc. Qed.

(** What an accepted send has done when it suspends. *)
Lemma start_accepted K st st1 ctx :
  handleSendMessage_start K st = (st1, Some ctx) ->
  ctx = mkSendCtx st (userMessageOf K st) (msg_id (placeholderOf st))
          (uploadedImageFile st)
  /\ st1 = addMessageToCurrentChat K st (placeholderOf st) None
             (setUploadedImagePreview None
                (setUploadedImageFile None
                   (setInputValue []
                      (addMessageToCurrentChat K st (userMessageOf K st)
                         (titleForSession K st)
                         (setGlobalError None
                            (setIsLoadingBotResponse true st))))))
  /\ truthy (userMessageText K st) = true.
Proof.
  unfold handleSendMessage_start.
  destruct (negb (truthy (trim (inputValue st)))
            && negb (bool_decide (is_Some (uploadedImageFile st)))
            || isLoadingBotResponse st || isProcessingImageGen st); [done |].
  destruct (chatSessionRef st); [|done].
  destruct (negb (truthy_opt (apiKey st))); [done |].
  destruct (truthy (userMessageText K st)) eqn:Htext; simpl; [|done].
  by intros [= <- <-].
Qed.

Lemma start_session K st st1 ctx a s :
  handleSendMessage_start K st = (st1, Some ctx) ->
  activeChatSession st = Some a ->
  reg_get (ses_id a) (chatSessions st) = Some s ->
  reg_get (ses_id a) (chatSessions st1)
  = Some (mkSession (ses_id s)
            (nextTitle K None
               (ses_messages s ++ [userMessageOf K st; placeholderOf st])
               (nextTitle K (titleForSession K st)
                  (ses_messages s ++ [userMessageOf K st]) (ses_title s)))
            (ses_messages s ++ [userMessageOf K st; placeholderOf st])
            (ses_model s) (now st) (ses_systemInstruction s)).
Proof.
  intros Hstart Ha Hs.
  destruct (start_accepted _ _ _ _ Hstart) as (_ & -> & _).
  unfold addMessageToCurrentChat, updateCurrentSessionMessages. simpl.
  rewrite (updateSession_hit _ _ _ _ _ _ _ _ Ha Hs).
  erewrite (updateSession_hit _ _ _ _ _ _ _ _ Ha) by apply reg_get_set_eq.
  rewrite reg_get_set_eq. simpl. by rewrite !app_two.
Qed.

Lemma resume_no_failure K ctx reply st :
  send_failure ctx reply = None ->
  handleSendMessage_resume K ctx reply st
  = setIsLoadingBotResponse false
      (onComplete K ctx
         (at_time (reply_end reply)
            (streamChunks K ctx (reply_chunks reply)
               (logRemoteCall
                  (CallSendMessageStream (msg_text (ctx_userMessage ctx))
                     (bool_decide (is_Some (ctx_file ctx)))) st)))).
Proof.
  unfold send_failure, handleSendMessage_resume.
  destruct (ctx_file ctx); [destruct (reply_fileError reply); [done |]|];
    by intros ->.
Qed.

Lemma onComplete_messages K ctx a st ms :
  activeChatSession (ctx_closure ctx) = Some a ->
  session_messages (ses_id a) st ms ->
  session_messages (ses_id a) (onComplete K ctx st)
    (map (streamed (ctx_aiMessageId ctx) [] (currentModel (ctx_closure ctx)))
       ms).
Proof.
  intros Ha Hs. unfold onComplete, updateAIMessageStream.
  rewrite <- (streamInto_final (ctx_closure ctx) (now st)).
  by apply update_session_messages.
Qed.

(** C2. In a send that runs to completion on a session that stays in the
    registry, every message carrying the id of the placeholder has the
    fragments of the stream appended in the order of their arrival, whatever
    their number and sizes, an empty or missing text adding nothing; the
    placeholder, created empty, ends as the last message of the session with
    exactly the concatenation of the fragments as its text. *)
Theorem stream_concatenates K (reply : SendReply) (st st1 : State)
    (ctx : SendCtx) (a s : ChatSession) :
  handleSendMessage_start K st = (st1, Some ctx) ->
  activeChatSession st = Some a ->
  reg_get (ses_id a) (chatSessions st) = Some s ->
  send_failure ctx reply = None ->
  let total := concat (fragments (reply_chunks reply)) in
  let P := ctx_aiMessageId ctx in
  let before := ses_messages s ++ [ctx_userMessage ctx] in
  let filled :=
    mkMessage P total SenderAI (now st) None None None
      (Some (currentModel st)) in
  exists s',
    reg_get (ses_id a) (chatSessions (handleSendMessage K reply st)) = Some s'
    /\ ses_messages s'
       = map (streamed P total (currentModel st)) before ++ [filled]
    /\ (Forall (fun m => msg_id m ≠ P) before ->
        ses_messages s' = before ++ [filled]).
Proof.
  intros Hstart Ha Hs Hok total P before filled.
  unfold handleSendMessage. rewrite Hstart.
  rewrite (resume_no_failure _ _ _ _ Hok).
  pose proof (start_session _ _ _ _ _ _ Hstart Ha Hs) as Hs1.
  destruct (start_accepted _ _ _ _ Hstart) as (Hctx & _ & _).
  assert (Hcl : ctx_closure ctx = st) by (by rewrite Hctx).
  assert (HP : msg_id (placeholderOf st) = P) by (subst P; by rewrite Hctx).
  assert (Hu : ctx_userMessage ctx = userMessageOf K st) by (by rewrite Hctx).
  set (ms0 := ses_messages s ++ [userMessageOf K st; placeholderOf st]) in *.
  assert (Hid : has_id P ms0 = true).
  { subst ms0. rewrite app_two. by apply has_id_last. }
  assert (Hfinal :
    session_messages (ses_id a) (handleSendMessage_resume K ctx reply st1)
      (map (streamed P total (currentModel st)) ms0)).
  { rewrite (resume_no_failure _ _ _ _ Hok).
    rewrite <- (streamed_appended P total). rewrite <- Hcl.
    apply (onComplete_messages K ctx a); [by rewrite Hcl |].
    apply (streamChunks_messages K ctx a (reply_chunks reply)
             (logRemoteCall
                (CallSendMessageStream (msg_text (ctx_userMessage ctx))
                   (bool_decide (is_Some (ctx_file ctx)))) st1) ms0);
      [by rewrite Hcl | done | by eexists]. }
  rewrite (resume_no_failure _ _ _ _ Hok) in Hfinal.
  destruct Hfinal as (s' & Hs' & Hms'). exists s'. split; [done |].
  assert (Heq : ses_messages s'
                = map (streamed P total (currentModel st)) before ++ [filled]).
  { rewrite Hms'. subst ms0 before. rewrite Hu.
    rewrite app_two, map_app. f_equal. simpl.
    unfold streamed. rewrite (bool_decide_eq_true_2 _ HP).
    subst filled. unfold withText. by rewrite HP. }
  split; [done |].
  intros Hfresh. rewrite Heq. f_equal.
  apply (map_unmatched _ P); [|done].
  intros m Hm. unfold streamed. by rewrite (bool_decide_eq_false_2 _ Hm).
Qed.

(** C2 on the fragments of the specification's example. *)
Lemma stream_concatenates_witness :
  let st := setInputValue (js "Say hello") (readyState 2000) in
  exists s',
    reg_get (js "1000")
      (chatSessions (handleSendMessage sampleConstants helloReply st))
    = Some s'
    /\ option_map msg_text (last (ses_messages s')) = Some (js "Hello, world").
Proof.
  intros st.
  destruct (stream_concatenates sampleConstants helloReply st _ _ _ _
              eq_refl eq_refl eq_refl eq_refl) as (s' & Hs' & Hms & _).
  exists s'. split; [exact Hs' |].
  rewrite Hms, last_snoc. reflexivity.
Defined.

(** ** Failure of a send *)

Lemma sendErrorText_spec K e :
  sendErrorText K e
  = if invalidKey e then ERROR_API_KEY_INVALID_BN K
    else ERROR_SEND_FAILED_BN K.
Proof.
  unfold sendErrorText, invalidKey.
  destruct (err_message e) as [[|c m]|]; done.
Qed.

Lemma onSendError_messages K ctx a e st ms :
  activeChatSession (ctx_closure ctx) = Some a ->
  session_messages (ses_id a) st ms ->
  session_messages (ses_id a) (onSendError K ctx e st)
    (map (overwritten (ctx_aiMessageId ctx) (sendErrorText K e)
            (currentModel (ctx_closure ctx))) ms).
Proof.
  intros Ha Hs.
  apply (update_session_messages K (ctx_closure ctx)
           (map (overwritten (ctx_aiMessageId ctx) (sendErrorText K e)
                   (currentModel (ctx_closure ctx)))) None st a ms Ha Hs).
Qed.

Lemma resume_failure K ctx reply st a ms e :
  send_failure ctx reply = Some e ->
  activeChatSession (ctx_closure ctx) = Some a ->
  has_id (ctx_aiMessageId ctx) ms = true ->
  session_messages (ses_id a) st ms ->
  exists st2 partial,
    handleSendMessage_resume K ctx reply st
    = setIsLoadingBotResponse false (onSendError K ctx e st2)
    /\ session_messages (ses_id a) st2
         (map (appended (ctx_aiMessageId ctx) partial) ms)
    /\ errorReports st2 = errorReports st.
Proof.
  intros Hfail Ha Hid Hs. unfold send_failure in Hfail.
  unfold handleSendMessage_resume.
  destruct (ctx_file ctx) as [f|];
    [destruct (reply_fileError reply) as [e'|]|].
  - injection Hfail as ->. exists (at_time (reply_end reply) st), [].
    by rewrite appended_nil.
  - rewrite Hfail. eexists _, (concat (fragments (reply_chunks reply))).
    split; [done |]. split.
    + apply (streamChunks_messages K ctx a (reply_chunks reply)
               (logRemoteCall _ st) ms Ha Hid Hs).
    + by destruct (streamChunks_frame K ctx (reply_chunks reply)
                     (logRemoteCall
                        (CallSendMessageStream (msg_text (ctx_userMessage ctx))
                           (bool_decide (is_Some (Some f)))) st))
        as (r & t & ->).
  - rewrite Hfail. eexists _, (concat (fragments (reply_chunks reply))).
    split; [done |]. split.
    + apply (streamChunks_messages K ctx a (reply_chunks reply)
               (logRemoteCall _ st) ms Ha Hid Hs).
    + by destruct (streamChunks_frame K ctx (reply_chunks reply)
                     (logRemoteCall
                        (CallSendMessageStream (msg_text (ctx_userMessage ctx))
                           (bool_decide (is_Some (@None jsstring)))) st))
        as (r & t & ->).
Qed.

(** C8. When a send fails, whether the attached file cannot be read, the
    call throws or the stream breaks after some fragments, the text of the
    placeholder, and of any message carrying its id, is replaced by the error
    message: the one for an invalid credential when the provider's message
    says that the key is not valid, the generic one otherwise. Nothing of the
    text streamed so far remains, and the same message is put on the global
    error surface, once. *)
Theorem send_failure_overwrites K (reply : SendReply) (st st1 : State)
    (ctx : SendCtx) (a s : ChatSession) (e : JsError) :
  handleSendMessage_start K st = (st1, Some ctx) ->
  activeChatSession st = Some a ->
  reg_get (ses_id a) (chatSessions st) = Some s ->
  send_failure ctx reply = Some e ->
  let errorText :=
    if invalidKey e then ERROR_API_KEY_INVALID_BN K
    else ERROR_SEND_FAILED_BN K in
  let P := ctx_aiMessageId ctx in
  let st' := handleSendMessage K reply st in
  let failed :=
    mkMessage P errorText SenderAI (now st) None None None
      (Some (currentModel st)) in
  (exists s',
      reg_get (ses_id a) (chatSessions st') = Some s'
      /\ ses_messages s'
         = map (overwritten P errorText (currentModel st))
             (ses_messages s ++ [ctx_userMessage ctx]) ++ [failed]
      /\ Forall (fun m => msg_id m = P -> msg_text m = errorText)
           (ses_messages s'))
  /\ globalError st' = Some errorText
  /\ errorReports st' = errorReports st ++ [errorText].
Proof.
  intros Hstart Ha Hs Hfail errorText P st' failed.
  pose proof (start_session _ _ _ _ _ _ Hstart Ha Hs) as Hs1.
  destruct (start_accepted _ _ _ _ Hstart) as (Hctx & Hst1 & _).
  assert (Hcl : ctx_closure ctx = st) by (by rewrite Hctx).
  assert (HP : msg_id (placeholderOf st) = P) by (subst P; by rewrite Hctx).
  assert (Hu : ctx_userMessage ctx = userMessageOf K st) by (by rewrite Hctx).
  assert (Herr : sendErrorText K e = errorText) by apply sendErrorText_spec.
  set (ms0 := ses_messages s ++ [userMessageOf K st; placeholderOf st]) in *.
  assert (Hid : has_id P ms0 = true).
  { subst ms0. rewrite app_two. by apply has_id_last. }
  destruct (resume_failure K ctx reply st1 a ms0 e Hfail)
    as (st2 & partial & Hres & Hms2 & Hrep2);
    [by rewrite Hcl | done | by eexists |].
  assert (Hst' : st' = setIsLoadingBotResponse false (onSendError K ctx e st2)).
  { subst st'. unfold handleSendMessage. by rewrite Hstart. }
  pose proof (onSendError_messages K ctx a e st2 _
                ltac:(by rewrite Hcl) Hms2) as (s' & Hs' & Hms').
  rewrite overwritten_appended, Hcl, Herr in Hms'.
  split; [|split].
  - exists s'. split; [by rewrite Hst' |].
    assert (Heq : ses_messages s'
                  = map (overwritten P errorText (currentModel st))
                      (ses_messages s ++ [ctx_userMessage ctx]) ++ [failed]).
    { rewrite Hms'. subst ms0. rewrite Hu, app_two, map_app. f_equal. simpl.
      unfold overwritten. rewrite (bool_decide_eq_true_2 _ HP).
      subst failed. unfold withText. by rewrite HP. }
    split; [done |]. rewrite Hms'. apply Forall_forall. intros m Hin.
    apply list_elem_of_In, in_map_iff in Hin as (m0 & <- & _).
    unfold overwritten. destruct (decide (msg_id m0 = P)) as [Hm|Hm].
    + by rewrite (bool_decide_eq_true_2 _ Hm).
    + by rewrite (bool_decide_eq_false_2 _ Hm).
  - rewrite Hst'. simpl. by rewrite Herr.
  - rewrite Hst'. simpl. rewrite Herr, Hrep2, Hst1. done.
Qed.

(** C8 on a stream that breaks with the provider's complaint about the
    key. *)
Lemma send_failure_overwrites_witness :
  let st := setInputValue (js "Say hello") (readyState 2000) in
  let st' := handleSendMessage sampleConstants
               (brokenReply "400: API key not valid. Please pass a valid key.")
               st in
  globalError st' = Some (js "API key invalid")
  /\ errorReports st' = [js "API key invalid"].
Proof.
  intros st st'.
  destruct (send_failure_overwrites sampleConstants
              (brokenReply "400: API key not valid. Please pass a valid key.")
              st _ _ _ _ _ eq_refl eq_refl eq_refl eq_refl)
    as (_ & Herr & Hrep).
  split; [exact Herr | exact Hrep].
Defined.

(** ** Fragments that arrive after the session was switched *)

(** C1 as stated fails. A send is begun in the first session, the second
    one is selected while the stream is in flight, and a fragment arrives: it
    is written into the placeholder of the first session. Had the placeholder
    been taken out of that session, the fragment would have put a message
    with its id back. *)
Lemma stale_fragment_counterexample :
  match handleSendMessage_start sampleConstants twoSessions with
  | (st1, Some ctx) =>
      let st2 := selectChatSession sampleConstants never_throws (js "1500") st1 in
      let st3 := onChunk sampleConstants ctx (Some (js "late")) (at_time 2500 st2) in
      let st2' := dropLastMessage "1000" st2 in
      let st3' := onChunk sampleConstants ctx (Some (js "late")) (at_time 2500 st2') in
      activeChatId st2 = Some (js "1500")
      /\ textsOf "1000" st2 = Some [js "Welcome!"; js "Say hello"; []]
      /\ textsOf "1000" st3 = Some [js "Welcome!"; js "Say hello"; js "late"]
      /\ idsOf "1000" st2'
         = Some [js "1000_ai_welcome"; js "2000_user"]
      /\ idsOf "1000" st3'
         = Some [js "1000_ai_welcome"; js "2000_user"; js "2000_ai"]
  | _ => False
  end.
Proof. vm_compute. repeat split. Qed.

Lemma streamInto_present_final cl t P chunk ms :
  has_id P ms = true ->
  streamInto cl t P chunk true ms = map (streamed P chunk (currentModel cl)) ms.
Proof. unfold streamInto, has_id. by intros ->. Qed.

(** C1, amended. A fragment is applied to the session the sender closed
    over, whichever session is active when it arrives. No other session and
    not the active-session pointer is touched. In that session the fragment is
    appended to every message carrying the placeholder id; when there is none,
    a fragment with text appends a new AI message under that id, and one
    without text (the final marker included) changes no message. Only when
    that session is no longer in the registry is the fragment without any
    effect. *)
Theorem stale_fragment_effect K (cl st : State) (a : ChatSession)
    (P chunk : jsstring) (isFinal : bool) :
  activeChatSession cl = Some a ->
  let st' := updateAIMessageStream K cl P chunk isFinal st in
  (forall k, k ≠ ses_id a ->
             reg_get k (chatSessions st') = reg_get k (chatSessions st))
  /\ activeChatId st' = activeChatId st
  /\ (reg_get (ses_id a) (chatSessions st) = None -> st' = st)
  /\ (forall s, reg_get (ses_id a) (chatSessions st) = Some s ->
        exists s',
          reg_get (ses_id a) (chatSessions st') = Some s'
          /\ (has_id P (ses_messages s) = true ->
              ses_messages s'
              = map (if isFinal then streamed P chunk (currentModel cl)
                     else appended P chunk) (ses_messages s))
          /\ (has_id P (ses_messages s) = false ->
              ses_messages s'
              = if truthy chunk
                then ses_messages s ++
                     [mkMessage P chunk SenderAI (now st) None None None
                        (Some (currentModel cl))]
                else ses_messages s)).
Proof.
  intros Ha st'. subst st'.
  unfold updateAIMessageStream, updateCurrentSessionMessages.
  split; [|split; [|split]].
  - intros k Hk. simpl. apply (updateSession_other _ _ _ _ _ _ _ _ Ha Hk).
  - done.
  - intros Hnone. rewrite (updateSession_miss _ _ _ _ _ _ _ Ha Hnone).
    by destruct st.
  - intros s Hs. simpl. rewrite (updateSession_hit _ _ _ _ _ _ _ _ Ha Hs).
    eexists. split; [apply reg_get_set_eq |]. simpl. split; intros Hid.
    + destruct isFinal;
        [by apply streamInto_present_final | by apply streamInto_present].
    + by apply streamInto_absent.
Qed.

(** C1, amended, on the send that is overtaken by a switch of session: the
    newly active session is not touched. *)
Lemma stale_fragment_effect_witness :
  match handleSendMessage_start sampleConstants twoSessions with
  | (st1, Some ctx) =>
      let st2 := at_time 2500
                   (selectChatSession sampleConstants never_throws
                      (js "1500") st1) in
      let st3 := updateAIMessageStream sampleConstants (ctx_closure ctx)
                   (ctx_aiMessageId ctx) (js "late") false st2 in
      reg_get (js "1500") (chatSessions st3)
      = reg_get (js "1500") (chatSessions st2)
  | _ => False
  end.
Proof.
  destruct (handleSendMessage_start sampleConstants twoSessions)
    as [st1 [ctx|]] eqn:Hstart; [|discriminate Hstart].
  intros st2 st3.
  destruct (start_accepted _ _ _ _ Hstart) as (-> & _ & _).
  destruct (stale_fragment_effect sampleConstants twoSessions st2
              (sampleSession "1000" "First"
                 [plainMessage "1000_ai_welcome" "Welcome!" SenderAI] 1000)
              (msg_id (placeholderOf twoSessions)) (js "late") false eq_refl)
    as (Hframe & _).
  apply Hframe. discriminate.
Defined.

(** ** Derivation of the title *)

Lemma deriveTitle_short (text : jsstring) :
  (length text <= 35)%nat -> deriveTitle text = text.
Proof.
  intros H. unfold deriveTitle, substring0.
  rewrite take_ge by done.
  destruct (Z.ltb_spec 35 (Z.of_nat (length text))); [lia |].
  apply app_nil_r.
Qed.

Lemma deriveTitle_long (text : jsstring) :
  (35 < length text)%nat -> deriveTitle text = take 35 text ++ js "...".
Proof.
  intros H. unfold deriveTitle, substring0.
  destruct (Z.ltb_spec 35 (Z.of_nat (length text))); [done | lia].
Qed.

Lemma deriveTitle_truthy (text : jsstring) :
  truthy text = true -> truthy (deriveTitle text) = true.
Proof. by destruct text. Qed.

Lemma only_user_first u ms m :
  only_user u ms -> firstUserMessage ms = Some m -> m = u.
Proof.
  unfold firstUserMessage. induction 1 as [|m0 ms Hm0 _ IH]; simpl; [done |].
  destruct (decide (msg_sender m0 = SenderUser)) as [Hs|Hs].
  - rewrite (bool_decide_eq_true_2 _ Hs). simpl.
    destruct (truthy (msg_text m0)); [|done]. intros [= <-]. by apply Hm0.
  - by rewrite (bool_decide_eq_false_2 _ Hs).
Qed.

Lemma only_user_app u ms1 ms2 :
  only_user u ms1 -> only_user u ms2 -> only_user u (ms1 ++ ms2).
Proof. apply Forall_app_2. Qed.

Lemma only_user_map u (f : ChatMessage -> ChatMessage) ms :
  f u = u -> (forall m, msg_sender (f m) = msg_sender m) ->
  only_user u ms -> only_user u (map f ms).
Proof.
  intros Hu Hf. induction 1 as [|m ms Hm _ IH]; simpl; constructor; [|done].
  rewrite Hf. intros Hs. by rewrite (Hm Hs).
Qed.

Lemma only_user_transform cl P u f ms :
  msg_id u ≠ P -> stream_transform cl P f ->
  only_user u ms -> only_user u (f ms).
Proof.
  intros Hu [(t & chunk & isFinal & ->)|(text & ->)] Hms.
  - unfold streamInto.
    assert (Hmap : only_user u
      (map (fun msg =>
              if bool_decide (msg_id msg = P)
              then mkMessage (msg_id msg) (msg_text msg ++ chunk)
                     (msg_sender msg) (msg_timestamp msg) (msg_imageUrl msg)
                     (msg_isImageQuery msg) (msg_generatedImage msg)
                     (if isFinal then Some (currentModel cl)
                      else msg_modelUsed msg)
              else msg) ms)).
    { apply only_user_map; [| |done].
      - by rewrite (bool_decide_eq_false_2 _ Hu).
      - intros m. by case_bool_decide. }
    destruct (_ && _); [|done].
    apply only_user_app; [done |]. by repeat constructor.
  - apply only_user_map; [| |done].
    + unfold overwritten. by rewrite (bool_decide_eq_false_2 _ Hu).
    + intros m. unfold overwritten. by case_bool_decide.
Qed.

(** A settled title withstands every update that names no title. *)
Lemma title_settled_update K T u s f t :
  title_settled K T u s ->
  (T ≠ DEFAULT_CHAT_TITLE_BN K \/ only_user u (f (ses_messages s))) ->
  title_settled K T u (updatedSession K s f None t).
Proof.
  intros (HT & Hwhy) Hf. unfold title_settled, updatedSession. simpl.
  unfold nextTitle. simpl. rewrite HT.
  destruct Hwhy as [Hne|(Hold & Hd)].
  - rewrite (bool_decide_eq_false_2 _ Hne), andb_false_r. auto.
  - destruct Hf as [Hne|Hnew].
    { rewrite (bool_decide_eq_false_2 _ Hne), andb_false_r. auto. }
    split; [|by right].
    destruct (_ && _); [|done].
    destruct (firstUserMessage (f (ses_messages s))) as [m|] eqn:Hm; [|done].
    by rewrite (only_user_first _ _ _ Hnew Hm).
Qed.

Lemma update_session_inv K cl fn ttl st a (J J' : ChatSession -> Prop) :
  activeChatSession cl = Some a ->
  (forall s, J s -> J' (updatedSession K s fn ttl (now st))) ->
  session_inv (ses_id a) st J ->
  session_inv (ses_id a) (updateCurrentSessionMessages K cl fn ttl st) J'.
Proof.
  intros Ha HJ (s & Hs & Hj). unfold updateCurrentSessionMessages. simpl.
  rewrite (updateSession_hit _ _ _ _ _ _ _ _ Ha Hs).
  eexists. split; [apply reg_get_set_eq |]. by apply HJ.
Qed.

Section Settled.

Context (K : Constants) (ctx : SendCtx) (a : ChatSession) (T : jsstring)
  (u : ChatMessage).
Hypothesis Ha : activeChatSession (ctx_closure ctx) = Some a.
Hypothesis Hu : msg_id u ≠ ctx_aiMessageId ctx.

Lemma transform_settled f st :
  stream_transform (ctx_closure ctx) (ctx_aiMessageId ctx) f ->
  session_inv (ses_id a) st (title_settled K T u) ->
  session_inv (ses_id a)
    (updateCurrentSessionMessages K (ctx_closure ctx) f None st)
    (title_settled K T u).
Proof.
  intros Hf. apply update_session_inv; [done |].
  intros s Hs. apply title_settled_update; [done |].
  destruct Hs as (_ & [Hne|(Hold & _)]); [by left | right].
  by apply (only_user_transform (ctx_closure ctx) (ctx_aiMessageId ctx)).
Qed.

Lemma onChunk_settled c st :
  session_inv (ses_id a) st (title_settled K T u) ->
  session_inv (ses_id a) (onChunk K ctx c st) (title_settled K T u).
Proof.
  intros Hs. unfold onChunk.
  destruct c as [text|]; [destruct (truthy text)|]; try done.
  apply transform_settled; [|done]. left. by eexists _, _, _.
Qed.

Lemma streamChunks_settled chunks st :
  session_inv (ses_id a) st (title_settled K T u) ->
  session_inv (ses_id a) (streamChunks K ctx chunks st) (title_settled K T u).
Proof.
  revert st. induction chunks as [|c chunks IH]; intros st Hs; simpl; [done |].
  apply IH. by apply onChunk_settled.
Qed.

Lemma onSendError_settled e st :
  session_inv (ses_id a) st (title_settled K T u) ->
  session_inv (ses_id a) (onSendError K ctx e st) (title_settled K T u).
Proof.
  intros Hs.
  apply (transform_settled
           (map (overwritten (ctx_aiMessageId ctx) (sendErrorText K e)
                   (currentModel (ctx_closure ctx)))) st); [|done].
  right. by eexists.
Qed.

Lemma resume_settled reply st :
  session_inv (ses_id a) st (title_settled K T u) ->
  session_inv (ses_id a) (handleSendMessage_resume K ctx reply st)
    (title_settled K T u).
Proof.
  intros Hs. unfold handleSendMessage_resume.
  destruct (match ctx_file ctx with
            | Some _ => reply_fileError reply
            | None => None
            end) as [e|].
  - by apply (onSendError_settled e (at_time (reply_end reply) st)).
  - pose proof (streamChunks_settled (reply_chunks reply)
                  (logRemoteCall
                     (CallSendMessageStream (msg_text (ctx_userMessage ctx))
                        (bool_decide (is_Some (ctx_file ctx)))) st) Hs) as Hs2.
    destruct (reply_error reply) as [e|].
    + by apply (onSendError_settled e (at_time (reply_end reply) _)).
    + apply (transform_settled _ (at_time (reply_end reply) _)); [|done].
      left. by eexists _, _, _.
Qed.

End Settled.

Lemma user_id_not_placeholder K st :
  msg_id (userMessageOf K st) ≠ msg_id (placeholderOf st).
Proof.
  simpl. intros H. apply app_inv_head in H. discriminate H.
Qed.

(** The session of an accepted send, when the send suspends, has its title
    settled as soon as the title of the first update is. *)
Lemma start_settled K st st1 ctx a T :
  handleSendMessage_start K st = (st1, Some ctx) ->
  activeChatSession st = Some a ->
  reg_get (ses_id a) (chatSessions st) = Some a ->
  nextTitle K (titleForSession K st) (ses_messages a ++ [userMessageOf K st])
    (ses_title a) = T ->
  (T ≠ DEFAULT_CHAT_TITLE_BN K
   \/ (Forall (fun m => msg_sender m = SenderAI) (ses_messages a)
       /\ deriveTitle (userMessageText K st) = T)) ->
  session_inv (ses_id a) st1 (title_settled K T (userMessageOf K st)).
Proof.
  intros Hstart Ha Hs HT Hwhy.
  pose proof (start_session _ _ _ _ _ _ Hstart Ha Hs) as Hs1.
  rewrite HT in Hs1. eexists. split; [exact Hs1 |].
  set (mid := mkSession (ses_id a) T (ses_messages a ++ [userMessageOf K st])
                (ses_model a) (now st) (ses_systemInstruction a)).
  assert (Hmid : title_settled K T (userMessageOf K st) mid).
  { split; [done |]. destruct Hwhy as [Hne|(Hai & Hd)]; [by left | right].
    split; [|done]. apply only_user_app; [|by repeat constructor].
    eapply Forall_impl; [exact Hai |]. simpl. intros m -> [=]. }
  pose proof (title_settled_update K T (userMessageOf K st) mid
                (fun prev => prev ++ [placeholderOf st]) (now st) Hmid) as Hupd.
  unfold updatedSession in Hupd. simpl in Hupd. rewrite <- !app_two in Hupd.
  apply Hupd. destruct Hmid as (_ & [Hne|(Hold & _)]); [by left | right].
  simpl. rewrite app_two. apply only_user_app; [done |].
  repeat constructor. intros [=].
Qed.

(** C3, amended. A send into a session whose title is the default one and
    in which no user has spoken yet sets the title to the first 35 code units
    of the text of the message, followed by the ellipsis marker exactly when
    the text is longer than 35, and the title then stands at the end of the
    exchange however it ends. A send into a session whose title is not the
    default one leaves the title as it is: a derived title is overwritten by
    no later message unless it coincides with the default title. *)
Theorem title_from_first_message K (reply : SendReply) (st st1 : State)
    (ctx : SendCtx) (a : ChatSession) :
  handleSendMessage_start K st = (st1, Some ctx) ->
  activeChatSession st = Some a ->
  reg_get (ses_id a) (chatSessions st) = Some a ->
  let text := msg_text (ctx_userMessage ctx) in
  let titleAfter :=
    option_map ses_title
      (reg_get (ses_id a) (chatSessions (handleSendMessage K reply st))) in
  (ses_title a = DEFAULT_CHAT_TITLE_BN K ->
   Forall (fun m => msg_sender m = SenderAI) (ses_messages a) ->
   titleAfter = Some (deriveTitle text))
  /\ (ses_title a ≠ DEFAULT_CHAT_TITLE_BN K -> titleAfter = Some (ses_title a))
  /\ ((length text <= 35)%nat -> deriveTitle text = text)
  /\ ((35 < length text)%nat -> deriveTitle text = take 35 text ++ js "...").
Proof.
  intros Hstart Ha Hs text titleAfter.
  destruct (start_accepted _ _ _ _ Hstart) as (Hctx & _ & Htext).
  assert (Hcl : activeChatSession (ctx_closure ctx) = Some a)
    by (by rewrite Hctx).
  assert (Hid : msg_id (userMessageOf K st) ≠ ctx_aiMessageId ctx)
    by (rewrite Hctx; apply user_id_not_placeholder).
  assert (Htxt : text = userMessageText K st) by (subst text; by rewrite Hctx).
  assert (Hend : forall T,
    session_inv (ses_id a) st1 (title_settled K T (userMessageOf K st)) ->
    titleAfter = Some T).
  { intros T Hinv. subst titleAfter. unfold handleSendMessage. rewrite Hstart.
    destruct (resume_settled K ctx a T (userMessageOf K st) Hcl Hid reply
                st1 Hinv) as (a' & -> & <- & _).
    done. }
  split; [|split; [|split]].
  - intros Hdef Hai. apply Hend.
    apply (start_settled _ _ _ _ _ _ Hstart Ha Hs).
    + unfold titleForSession. rewrite Ha, (bool_decide_eq_true_2 _ Hdef).
      unfold nextTitle. simpl. rewrite <- Htxt.
      by rewrite (deriveTitle_truthy text ltac:(by rewrite Htxt)).
    + right. by rewrite <- Htxt.
  - intros Hne. apply Hend.
    apply (start_settled _ _ _ _ _ _ Hstart Ha Hs); [|by left].
    unfold titleForSession. rewrite Ha, (bool_decide_eq_false_2 _ Hne).
    unfold nextTitle. simpl.
    by rewrite (bool_decide_eq_false_2 _ Hne), andb_false_r.
  - apply deriveTitle_short.
  - apply deriveTitle_long.
Qed.

(** C3, amended, on the message of the specification's example. *)
Lemma title_from_first_message_witness :
  let st :=
    setInputValue
      (js "Tell me about black holes and their event horizons in detail")
      (readyState 2000) in
  option_map ses_title
    (reg_get (js "1000")
       (chatSessions (handleSendMessage sampleConstants helloReply st)))
  = Some (js "Tell me about black holes and their...").
Proof.
  intros st.
  destruct (title_from_first_message sampleConstants helloReply st _ _ _
              eq_refl eq_refl eq_refl) as (Hfirst & _).
  apply Hfirst; [reflexivity | by repeat constructor].
Defined.

(** C3 as stated fails. The repair of a stored session without title takes
    the first 30 code units of the first user message and adds no marker;
    and a title that was derived from a first message equal to the default
    title (here a sample value of it) is replaced at the next message. *)
Lemma title_counterexample :
  let text := js "Tell me about black holes and their event horizons in detail" in
  option_map ses_title (reg_get (js "1000") (chatSessions restoredUntitled))
  = Some (js "Tell me about black holes and ")
  /\ deriveTitle text = js "Tell me about black holes and their..."
  /\ option_map ses_title
       (reg_get (js "1000") (chatSessions afterDefaultTitledSend))
     = Some (js "New Chat")
  /\ option_map ses_title (reg_get (js "1000") (chatSessions afterSecondSend))
     = Some (js "What is a pulsar?").
Proof. vm_compute. repeat split. Qed.

(** ** Restore of the registry *)

Lemma insert_desc_head x l :
  head (insert_desc x l)
  = match head l with
    | Some y => if ses_timestamp y <=? ses_timestamp x then Some x else Some y
    | None => Some x
    end.
Proof. destruct l as [|y l]; simpl; [done |]. by destruct (_ <=? _). Qed.

(** The head of the sorted list is a most recently active session. *)
Lemma sort_desc_head (l : list ChatSession) :
  match head (sort_desc l) with
  | Some h =>
      h ∈ l /\ Forall (fun x => ses_timestamp x <= ses_timestamp h) l
  | None => l = []
  end.
Proof.
  induction l as [|x l IH]; simpl; [done |].
  rewrite insert_desc_head.
  destruct (head (sort_desc l)) as [h|].
  - destruct IH as (Hin & Hall).
    destruct (Z.leb_spec (ses_timestamp h) (ses_timestamp x)).
    + split; [apply list_elem_of_here |]. constructor; [lia |].
      eapply Forall_impl; [exact Hall |]. simpl. intros. lia.
    + split; [by apply list_elem_of_further |]. constructor; [lia | done].
  - subst l. split; [apply list_elem_of_here |]. by repeat constructor.
Qed.

Lemma backfillTitle_id K s : ses_id (backfillTitle K s) = ses_id s.
Proof. unfold backfillTitle. by destruct (truthy (ses_title s)). Qed.

Lemma backfillTitle_timestamp K s :
  ses_timestamp (backfillTitle K s) = ses_timestamp s.
Proof. unfold backfillTitle. by destruct (truthy (ses_title s)). Qed.

Lemma loadAll_catch_state K thr mdl st :
  let fresh := freshSession K mdl (now st) in
  let st' := loadAll_catch K thr mdl st in
  chatSessions st' = [(ses_id fresh, fresh)]
  /\ activeChatId st' = Some (ses_id fresh)
  /\ globalError st' = Some (ERROR_INIT_FAILED_BN K)
  /\ errorReports st' = errorReports st ++ [ERROR_INIT_FAILED_BN K].
Proof.
  intros fresh st'. subst st'. unfold loadAll_catch. simpl.
  destruct (if_truthy (apiKey st)) as [key|]; [|done].
  by destruct (thr key _).
Qed.

Lemma obj_get_map k (f : ChatSession -> ChatSession) (r : registry) :
  obj_get k (map (fun kv => (kv.1, f kv.2)) r)
  = match obj_get k r with
    | Own s => Own (f s)
    | Inherited => Inherited
    | Missing => Missing
    end.
Proof.
  unfold obj_get. rewrite reg_get_map.
  destruct (reg_get k r); simpl; [done |]. by destruct (bool_decide _).
Qed.

Lemma obj_get_opt_map k (f : ChatSession -> ChatSession) (r : registry) :
  obj_get_opt k (map (fun kv => (kv.1, f kv.2)) r)
  = match obj_get_opt k r with
    | Own s => Own (f s)
    | Inherited => Inherited
    | Missing => Missing
    end.
Proof.
  unfold obj_get_opt. destruct (if_truthy k); [apply obj_get_map | done].
Qed.

Lemma chatFor_backfillTitle K s : chatFor K (backfillTitle K s) = chatFor K s.
Proof. unfold chatFor, backfillTitle. by destruct (truthy (ses_title s)). Qed.

(** Where an exception leaves the [try] block, only the registry and the
    active id may have been set. *)
Lemma loadAll_try_throw K thr key sid mdl st st1 :
  loadAll_try K thr key sid mdl st = inr st1 ->
  now st1 = now st /\ errorReports st1 = errorReports st.
Proof.
  unfold loadAll_try.
  destruct (match storedHistory st with
            | NoHistory => Some []
            | Unparseable => None
            | Parsed r => Some (map (fun kv => (kv.1, backfillTitle K kv.2)) r)
            end) as [loaded|]; [|by intros [= <-]].
  destruct (obj_get_opt _ loaded) as [s| |].
  - destruct (thr key _); [by intros [= <-] | done].
  - by intros [= <-].
  - destruct ((0 <? Z.of_nat (length loaded)) && negb (truthy_opt sid)).
    + destruct (head (sort_desc (reg_values loaded))) as [h|]; simpl;
        [|by intros [= <-]].
      destruct (obj_get (ses_id h) loaded) as [s| |]; [|by intros [= <-]..].
      destruct (thr key _); [by intros [= <-] | done].
    + destruct (thr key _); [by intros [= <-] | done].
Qed.

(** What the restore leaves when an exception was caught. *)
Lemma loadAll_caught K thr key sid mdl st st1 :
  loadAll_try K thr key sid mdl st = inr st1 ->
  let fresh := freshSession K mdl (now st) in
  let st' := loadAll K thr key sid mdl st in
  chatSessions st' = [(ses_id fresh, fresh)]
  /\ activeChatId st' = Some (ses_id fresh)
  /\ globalError st' = Some (ERROR_INIT_FAILED_BN K)
  /\ errorReports st' = errorReports st ++ [ERROR_INIT_FAILED_BN K].
Proof.
  intros Htry fresh st'. subst st' fresh. unfold loadAll. rewrite Htry.
  destruct (loadAll_try_throw _ _ _ _ _ _ _ Htry) as (Hnow & Hrep).
  destruct (loadAll_catch_state K thr mdl st1) as (Hreg & Hact & Herr & Hlog).
  simpl. by rewrite Hreg, Hact, Herr, Hlog, Hnow, Hrep.
Qed.

Lemma loadAll_resolves K thr key sid mdl st :
  exists a s,
    activeChatId (loadAll K thr key sid mdl st) = Some a
    /\ reg_get a (chatSessions (loadAll K thr key sid mdl st)) = Some s.
Proof.
  destruct (loadAll_try K thr key sid mdl st) as [st1|st1] eqn:Htry.
  - unfold loadAll. rewrite Htry.
    destruct (loadAll_try_binds _ _ _ _ _ _ _ Htry) as (a & s & Ha & Hs & _).
    by exists a, s.
  - destruct (loadAll_caught _ _ _ _ _ _ _ Htry) as (Hreg & Hact & _).
    eexists _, _. rewrite Hact, Hreg. split; [done |]. simpl.
    by rewrite decide_True.
Qed.

(** The active id of a restore is not empty when no stored session has the
    empty id, so that the chat panel resolves it. *)
Lemma loadAll_panel_resolves K thr key sid mdl st :
  (forall r, storedHistory st = Parsed r ->
             Forall (fun kv => truthy (ses_id kv.2) = true) r) ->
  is_Some (activeChatSession (loadAll K thr key sid mdl st)).
Proof.
  intros Hids.
  destruct (loadAll_try K thr key sid mdl st) as [st1|st1] eqn:Htry.
  - unfold loadAll. rewrite Htry. revert Htry. unfold loadAll_try.
    set (stored := if truthy_opt sid then sid else storedActiveChatId st).
    destruct (match storedHistory st with
              | NoHistory => Some []
              | Unparseable => None
              | Parsed r =>
                  Some (map (fun kv => (kv.1, backfillTitle K kv.2)) r)
              end) as [loaded|] eqn:Hdec; [|done].
    assert (Hloaded : Forall (fun s => truthy (ses_id s) = true)
                        (reg_values loaded)).
    { destruct (storedHistory st) as [| |r]; [|done|];
        injection Hdec as <-; [constructor |].
      specialize (Hids r eq_refl). unfold reg_values. rewrite map_map.
      apply Forall_map. eapply Forall_impl; [exact Hids |].
      intros [k s]. simpl. by rewrite backfillTitle_id. }
    destruct (obj_get_opt stored loaded) as [s| |] eqn:Hfound; [|done|].
    + apply obj_get_opt_Own in Hfound as (a & Hst & Ha & Hs).
      destruct (thr key _); [done |]. intros [= <-].
      unfold activeChatSession, reg_get_opt. simpl. rewrite Hst. simpl.
      unfold Some_if_truthy. by rewrite Ha, Hs.
    + destruct ((0 <? Z.of_nat (length loaded)) && negb (truthy_opt sid)).
      * pose proof (sort_desc_head (reg_values loaded)) as Hhead.
        destruct (head (sort_desc (reg_values loaded))) as [h|]; simpl;
          [|done].
        destruct Hhead as (Hin & _).
        assert (Hh : truthy (ses_id h) = true).
        { rewrite Forall_forall in Hloaded. by apply Hloaded. }
        destruct (obj_get (ses_id h) loaded) as [s| |] eqn:Hs; [|done..].
        apply obj_get_Own in Hs.
        destruct (thr key _); [done |]. intros [= <-].
        unfold activeChatSession, reg_get_opt. simpl.
        unfold Some_if_truthy. by rewrite Hh, Hs.
      * destruct (thr key _); [done |]. intros [= <-].
        unfold activeChatSession, reg_get_opt. simpl.
        unfold Some_if_truthy. rewrite Number_toString_truthy.
        by rewrite reg_get_set_eq.
  - destruct (loadAll_caught _ _ _ _ _ _ _ Htry) as (Hreg & Hact & _).
    unfold activeChatSession, reg_get_opt. rewrite Hact, Hreg. simpl.
    unfold Some_if_truthy. rewrite Number_toString_truthy. simpl.
    by rewrite decide_True.
Qed.

(** The restore on a stored registry, once the session to bind is known. *)
Lemma loadAll_try_newest K thr key mdl st r :
  storedHistory st = Parsed r ->
  r ≠ [] ->
  obj_get_opt (storedActiveChatId st) r = Missing ->
  exists h,
    head (sort_desc (reg_values (backfilled K r))) = Some h
    /\ loadAll_try K thr key None mdl st
       = let st1 := setActiveChatId (Some (ses_id h))
                      (setChatSessions (backfilled K r) st) in
         match reg_get (ses_id h) r with
         | Some s =>
             if thr key (chatFor K s) then inr st1
             else inl (setChatSessionRef (Some (chatFor K s)) st1)
         | None => inr st1
         end.
Proof.
  intros Hr Hne Hnone. unfold loadAll_try, backfilled. rewrite Hr. simpl.
  rewrite obj_get_opt_map, Hnone.
  set (loaded := map (fun kv => (kv.1, backfillTitle K kv.2)) r).
  assert (Hlen : (0 <? Z.of_nat (length loaded)) = true).
  { apply Z.ltb_lt. unfold loaded. rewrite length_map.
    destruct r; [done | simpl; lia]. }
  rewrite Hlen. simpl.
  pose proof (sort_desc_head (reg_values loaded)) as Hhead.
  destruct (head (sort_desc (reg_values loaded))) as [h|];
    [|exfalso; unfold loaded in Hhead; destruct r;
      [done | discriminate Hhead]].
  exists h. split; [done |]. simpl.
  unfold loaded at 1. rewrite obj_get_map. unfold obj_get.
  destruct (reg_get (ses_id h) r) as [s|].
  - fold (chatFor K (backfillTitle K s)). rewrite chatFor_backfillTitle.
    by destruct (thr key _).
  - by destruct (bool_decide _).
Qed.

(** C7 as stated fails, in three ways. A recorded id that names a property
    which every object inherits is taken for a session: the handle cannot be
    built from it, and the two stored sessions are given up for a new one
    where the most recent of them should become active. The same happens when
    the library refuses the handle. And a session stored under the empty id
    becomes active without being resolvable by the chat panel, to which the
    empty id is no id. *)
Lemma loadAll_counterexample :
  let inherited :=
    loadAll sampleConstants never_throws (js "key") None None
      (twoStored (Some (js "constructor"))) in
  let refused :=
    loadAll sampleConstants always_throws (js "key") None None
      (twoStored (Some (js "900"))) in
  let unnamed := sampleSession "" "First" [] 1000 in
  let empty :=
    loadAll sampleConstants never_throws (js "key") None None
      (storedState (Some (js "key")) 5000 (Parsed [([], unnamed)]) None) in
  (map fst (chatSessions inherited) = [js "5000"]
   /\ activeChatId inherited = Some (js "5000")
   /\ errorReports inherited = [js "initialization failed"])
  /\ (map fst (chatSessions refused) = [js "5000"]
      /\ activeChatId refused = Some (js "5000")
      /\ errorReports refused = [js "initialization failed"])
  /\ (chatSessions empty = [([], unnamed)]
      /\ activeChatId empty = Some []
      /\ activeChatSession empty = None
      /\ errorReports empty = []).
Proof. vm_compute. repeat split. Qed.

(** C7, amended. Whatever the durable store holds, the restore ends with one
    active id that is a key of the registry, with or without a credential,
    and the chat panel resolves it to a session when no stored session has
    the empty id. Every exception of the restore is caught and reported once
    as an initialization error, and the registry is replaced by one new
    session, which is active: so when the stored history cannot be decoded,
    and when the recorded id names an inherited property. When there is no
    history or the decoded registry is empty, the registry consists of one
    new session, which is active. When the registry is not empty and the
    recorded id resolves to nothing, a session of the greatest timestamp is
    chosen: if a session is stored under its id and the handle for that one
    can be built, all sessions are kept, the id is made active and nothing is
    reported; if not, the exception is caught as said. A recorded id that
    resolves stays the active one if the handle can be built. *)
Theorem loadAll_has_active_session K thr (key : jsstring)
    (mdl : option ModelType) (st : State) :
  let st' := loadAll K thr key None mdl st in
  let fresh := freshSession K mdl (now st) in
  let caught :=
    chatSessions st' = [(ses_id fresh, fresh)]
    /\ activeChatId st' = Some (ses_id fresh)
    /\ globalError st' = Some (ERROR_INIT_FAILED_BN K)
    /\ errorReports st' = errorReports st ++ [ERROR_INIT_FAILED_BN K] in
  (forall sid,
      (exists a s,
          activeChatId (loadAll K thr key sid mdl st) = Some a
          /\ reg_get a (chatSessions (loadAll K thr key sid mdl st)) = Some s)
      /\ (exists a s,
             activeChatId (initializeChatLogic K thr sid mdl st) = Some a
             /\ reg_get a (chatSessions (initializeChatLogic K thr sid mdl st))
                = Some s))
  /\ (forall sid,
        (forall r, storedHistory st = Parsed r ->
                   Forall (fun kv => truthy (ses_id kv.2) = true) r) ->
        is_Some (activeChatSession (loadAll K thr key sid mdl st))
        /\ is_Some (activeChatSession (initializeChatLogic K thr sid mdl st)))
  /\ (forall st1, loadAll_try K thr key None mdl st = inr st1 -> caught)
  /\ (storedHistory st = Unparseable -> caught)
  /\ (forall r a,
        decoded K (storedHistory st) = Some r ->
        if_truthy (storedActiveChatId st) = Some a ->
        reg_get a r = None ->
        a ∈ INHERITED_KEYS ->
        caught)
  /\ (decoded K (storedHistory st) = Some [] ->
      chatSessions st' = [(ses_id fresh, fresh)]
      /\ activeChatId st' = Some (ses_id fresh))
  /\ (forall r,
        storedHistory st = Parsed r ->
        r ≠ [] ->
        obj_get_opt (storedActiveChatId st) r = Missing ->
        exists k s,
          (k, s) ∈ r
          /\ Forall (fun kv => ses_timestamp kv.2 <= ses_timestamp s) r
          /\ (forall s',
                reg_get (ses_id s) r = Some s' ->
                thr key (chatFor K s') = false ->
                activeChatId st' = Some (ses_id s)
                /\ reg_get (ses_id s) (chatSessions st')
                   = Some (backfillTitle K s')
                /\ chatSessions st' = backfilled K r
                /\ chatSessionRef st' = Some (chatFor K s')
                /\ errorReports st' = errorReports st)
          /\ (reg_get (ses_id s) r = None
              \/ (exists s', reg_get (ses_id s) r = Some s'
                             /\ thr key (chatFor K s') = true) ->
              caught))
  /\ (forall r s,
        storedHistory st = Parsed r ->
        reg_get_opt (storedActiveChatId st) r = Some s ->
        (thr key (chatFor K s) = false ->
         activeChatId st' = storedActiveChatId st
         /\ chatSessions st' = backfilled K r
         /\ chatSessionRef st' = Some (chatFor K s)
         /\ errorReports st' = errorReports st)
        /\ (thr key (chatFor K s) = true -> caught)).
Proof.
  intros st' fresh caught.
  assert (Hcaught : forall st1,
             loadAll_try K thr key None mdl st = inr st1 -> caught).
  { intros st1 Htry. apply (loadAll_caught _ _ _ _ _ _ _ Htry). }
  split; [|split; [|split; [exact Hcaught |split; [|split; [|split;
    [|split]]]]]].
  - intros sid. split; [apply loadAll_resolves |].
    unfold initializeChatLogic.
    destruct (if_truthy (apiKey st)) as [k|]; [apply loadAll_resolves |].
    eexists _, _. simpl. split; [done |]. simpl. by rewrite decide_True.
  - intros sid Hids. split; [by apply loadAll_panel_resolves |].
    unfold initializeChatLogic.
    destruct (if_truthy (apiKey st)) as [k|];
      [by apply loadAll_panel_resolves |].
    unfold activeChatSession, reg_get_opt. simpl. unfold Some_if_truthy.
    rewrite Number_toString_truthy. simpl. by rewrite decide_True.
  - intros Hbad. apply (Hcaught st). unfold loadAll_try. by rewrite Hbad.
  - intros r a Hdec Ha Hnone Hin.
    apply (Hcaught (setActiveChatId (storedActiveChatId st)
                      (setChatSessions r st))).
    unfold loadAll_try. unfold decoded in Hdec. rewrite Hdec. simpl.
    unfold obj_get_opt, obj_get.
    by rewrite Ha, Hnone, (bool_decide_eq_true_2 _ Hin).
  - intros Hdec.
    destruct (loadAll_try K thr key None mdl st) as [st1|st1] eqn:Htry.
    + subst st'. unfold loadAll. rewrite Htry. revert Htry.
      unfold loadAll_try. unfold decoded in Hdec. rewrite Hdec. simpl.
      destruct (obj_get_opt _ []) as [s| |] eqn:Hfound; [|done|].
      * by apply obj_get_opt_Own in Hfound as (a & _ & _ & Hs).
      * simpl. destruct (thr key _); [done |]. by intros [= <-].
    + by destruct (Hcaught st1 eq_refl) as (Hreg & Hact & _).
  - intros r Hr Hne Hnone.
    destruct (loadAll_try_newest K thr key mdl st r Hr Hne Hnone)
      as (h & Hhead & Htry).
    pose proof (sort_desc_head (reg_values (backfilled K r))) as Hmax.
    rewrite Hhead in Hmax. destruct Hmax as (Hin & Hmax).
    unfold reg_values, backfilled in Hin. rewrite map_map in Hin.
    apply list_elem_of_In, in_map_iff in Hin as ([k s] & Hh & Hin).
    simpl in Hh. apply list_elem_of_In in Hin.
    assert (Hid : ses_id h = ses_id s)
      by (by rewrite <- Hh, backfillTitle_id).
    exists k, s. split; [done |]. split; [|split].
    + apply Forall_forall. intros [k1 s1] Hin1. simpl.
      unfold reg_values, backfilled in Hmax. rewrite map_map in Hmax.
      rewrite Forall_forall in Hmax.
      specialize (Hmax (backfillTitle K s1)).
      rewrite <- Hh, !backfillTitle_timestamp in Hmax. apply Hmax.
      apply list_elem_of_In, in_map_iff. exists (k1, s1).
      split; [done | by apply list_elem_of_In].
    + intros s' Hs' Hthr. subst st'. unfold loadAll.
      rewrite Htry, Hid, Hs', Hthr. simpl.
      repeat split; try done.
      unfold backfilled. by rewrite reg_get_map, Hs'.
    + intros Hfail.
      apply (Hcaught (setActiveChatId (Some (ses_id h))
                        (setChatSessions (backfilled K r) st))).
      rewrite Htry, Hid.
      destruct Hfail as [-> | (s' & -> & ->)]; done.
  - intros r s Hr Hs.
    assert (Htry : loadAll_try K thr key None mdl st
                   = let st1 := setActiveChatId (storedActiveChatId st)
                                  (setChatSessions (backfilled K r) st) in
                     if thr key (chatFor K s) then inr st1
                     else inl (setChatSessionRef (Some (chatFor K s)) st1)).
    { unfold loadAll_try. rewrite Hr. simpl.
      rewrite obj_get_opt_map, obj_get_opt_cases, Hs.
      fold (chatFor K (backfillTitle K s)). rewrite chatFor_backfillTitle.
      by destruct (thr key _). }
    split.
    + intros Hthr. subst st'. unfold loadAll. rewrite Htry. simpl.
      by rewrite Hthr.
    + intros Hthr.
      apply (Hcaught (setActiveChatId (storedActiveChatId st)
                        (setChatSessions (backfilled K r) st))).
      rewrite Htry. simpl. by rewrite Hthr.
Qed.

(** C7 on two stored sessions and a recorded id that names neither. *)
Lemma loadAll_has_active_session_witness :
  activeChatId
    (loadAll sampleConstants never_throws (js "key") None None
       (twoStored (Some (js "900"))))
  = Some (js "1500").
Proof.
  destruct (loadAll_has_active_session sampleConstants never_throws (js "key")
              None (twoStored (Some (js "900"))))
    as (_ & _ & _ & _ & _ & _ & Hpick & _).
  destruct (Hpick [(js "1000", sampleSession "1000" "First" [] 1000);
                   (js "1500", sampleSession "1500" "Second" [] 1500)])
    as (k & s & Hin & Hmax & Hkeep & _);
    [reflexivity | discriminate | reflexivity |].
  apply elem_of_cons in Hin as [[= _ ->]|Hin]; simpl in Hmax.
  - apply Forall_cons in Hmax as (_ & Hmax).
    apply Forall_cons in Hmax as (Hle & _). simpl in Hle. lia.
  - apply elem_of_cons in Hin as [[= _ ->]|Hin];
      [|by apply elem_of_nil in Hin].
    by destruct (Hkeep (sampleSession "1500" "Second" [] 1500)
                   eq_refl eq_refl) as (Hact & _).
Defined.

(** ** Sending without a credential *)

Lemma start_without_key K st :
  truthy_opt (apiKey st) = false ->
  exists e, handleSendMessage_start K st = (st, None)
            \/ handleSendMessage_start K st = (setGlobalError (Some e) st, None).
Proof.
  intros Hkey. unfold handleSendMessage_start.
  destruct (_ || _); [exists []; by left |].
  destruct (chatSessionRef st); [|eexists; by right].
  rewrite Hkey. simpl. eexists. by right.
Qed.

(** C9 as stated fails. The application is started without a credential:
    the initialization puts the message of the missing credential on the
    error surface, and the effect of the chat panel on the new active session
    clears it. In the state reached, the input and the send button are
    disabled; a send that is attempted all the same returns at once, and the
    error surface stays empty. With a text in the input, which the disabled
    input does not take, the send stops at the guard on the handle, with the
    message of a session that is not ready. *)
Lemma send_without_credential_counterexample :
  let st0 := bootState None 1000 in
  let st1 := initializeChatLogic sampleConstants never_throws None None st0 in
  let st2 := onActiveChatChange st0 st1 in
  globalError st1 = Some (js "API key missing")
  /\ globalError st2 = None
  /\ isInputCompletelyDisabled false st2 = true
  /\ sendDisabled false st2 = true
  /\ handleSendMessage sampleConstants helloReply st2 = st2
  /\ globalError
       (handleSendMessage sampleConstants helloReply
          (setInputValue (js "hi") st2))
     = Some (js "session not ready").
Proof. vm_compute. repeat split. Qed.

(** C9, amended. Without a credential the input and the send button are
    disabled, whatever else the state is, so that no send reaches the
    handler; a send that is attempted all the same makes no remote call and
    leaves the registry as it is. The missing credential is reported once, by
    the initialization, which binds no conversation handle, as no other
    handler does without a credential; a send then stops at the latest at
    the guard on the handle. *)
Theorem send_without_credential K thr (reply : SendReply) (st : State) :
  truthy_opt (apiKey st) = false ->
  (forall authLoading,
      isInputCompletelyDisabled authLoading st = true
      /\ sendDisabled authLoading st = true)
  /\ remoteCalls (handleSendMessage K reply st) = remoteCalls st
  /\ chatSessions (handleSendMessage K reply st) = chatSessions st
  /\ (forall sid mdl,
        let st1 := initializeChatLogic K thr sid mdl st in
        globalError st1 = Some (ERROR_API_KEY_MISSING_BN K)
        /\ errorReports st1 = errorReports st ++ [ERROR_API_KEY_MISSING_BN K]
        /\ truthy_opt (apiKey st1) = false)
  /\ (forall sid mdl sessionId model,
        chatSessionRef (initializeChatLogic K thr sid mdl st)
        = chatSessionRef st
        /\ chatSessionRef (selectChatSession K thr sessionId st)
           = chatSessionRef st
        /\ chatSessionRef (startNewChat K thr model st) = chatSessionRef st)
  /\ (chatSessionRef st = None ->
      truthy (trim (inputValue st)) = true ->
      isLoadingBotResponse st = false ->
      isProcessingImageGen st = false ->
      handleSendMessage K reply st
      = setGlobalError (Some (ERROR_SESSION_NOT_READY_BN K)) st).
Proof.
  intros Hkey.
  assert (Hno : if_truthy (apiKey st) = None).
  { unfold truthy_opt in Hkey. unfold if_truthy, Some_if_truthy.
    destruct (apiKey st); [by rewrite Hkey | done]. }
  split; [|split; [|split; [|split; [|split]]]].
  - intros authLoading.
    assert (Hdis : isInputCompletelyDisabled authLoading st = true).
    { unfold isInputCompletelyDisabled. rewrite Hkey. simpl.
      by rewrite !orb_true_r. }
    split; [done |]. unfold sendDisabled. by rewrite Hdis.
  - unfold handleSendMessage.
    by destruct (start_without_key K st Hkey) as (e & [-> | ->]).
  - unfold handleSendMessage.
    by destruct (start_without_key K st Hkey) as (e & [-> | ->]).
  - intros sid mdl st1. subst st1. unfold initializeChatLogic.
    by rewrite Hno.
  - intros sid mdl sessionId model. split; [|split].
    + unfold initializeChatLogic. by rewrite Hno.
    + unfold selectChatSession. case_bool_decide; [done |].
      destruct (reg_get sessionId (chatSessions st)); [|done].
      simpl. by rewrite Hno.
    + unfold startNewChat. simpl. by rewrite Hno.
  - intros Href Hin Hl Hp. unfold handleSendMessage, handleSendMessage_start.
    by rewrite Hin, Hl, Hp, Href.
Qed.

(** C9 on the application that was started without a credential. *)
Lemma send_without_credential_witness :
  let st := onActiveChatChange (bootState None 1000)
              (initializeChatLogic sampleConstants never_throws None None
                 (bootState None 1000)) in
  sendDisabled false st = true
  /\ remoteCalls (handleSendMessage sampleConstants helloReply st) = [].
Proof.
  intros st.
  destruct (send_without_credential sampleConstants never_throws helloReply
              st eq_refl) as (Hdis & Hcalls & _).
  destruct (Hdis false) as (_ & Hsend).
  split; [exact Hsend |]. rewrite Hcalls. vm_compute. reflexivity.
Defined.

(** ** The order of the sidebar *)

Lemma insert_desc_perm x l : insert_desc x l ≡ₚ x :: l.
Proof.
  induction l as [|y l IH]; simpl; [done |].
  destruct (_ <=? _); [done |]. rewrite IH. apply Permutation_swap.
Qed.

Lemma sort_desc_perm l : sort_desc l ≡ₚ l.
Proof.
  induction l as [|x l IH]; simpl; [done |].
  by rewrite insert_desc_perm, IH.
Qed.

Lemma insert_desc_sorted x l :
  StronglySorted not_after l -> StronglySorted not_after (insert_desc x l).
Proof.
  induction 1 as [|y l Hl IH Hy]; simpl; [by repeat constructor |].
  destruct (Z.leb_spec (ses_timestamp y) (ses_timestamp x)).
  - constructor; [by constructor |]. constructor; [done |].
    eapply Forall_impl; [exact Hy |]. unfold not_after. simpl. lia.
  - constructor; [done |].
    rewrite insert_desc_perm. constructor; [unfold not_after; lia | done].
Qed.

Lemma sort_desc_sorted l : StronglySorted not_after (sort_desc l).
Proof.
  induction l as [|x l IH]; simpl; [constructor |].
  by apply insert_desc_sorted.
Qed.

Lemma insert_desc_stable t x l :
  List.filter (fun s => ses_timestamp s =? t) (insert_desc x l)
  = List.filter (fun s => ses_timestamp s =? t) (x :: l).
Proof.
  induction l as [|y l IH]; [done |].
  change (insert_desc x (y :: l))
    with (if ses_timestamp y <=? ses_timestamp x then x :: y :: l
          else y :: insert_desc x l).
  destruct (Z.leb_spec (ses_timestamp y) (ses_timestamp x)); [done |].
  change (List.filter ?f (y :: ?l'))
    with (if f y then y :: List.filter f l' else List.filter f l').
  rewrite IH. simpl.
  destruct (Z.eqb_spec (ses_timestamp y) t), (Z.eqb_spec (ses_timestamp x) t);
    done || lia.
Qed.

Lemma sort_desc_stable t l :
  List.filter (fun s => ses_timestamp s =? t) (sort_desc l)
  = List.filter (fun s => ses_timestamp s =? t) l.
Proof.
  induction l as [|x l IH]; [done |].
  change (sort_desc (x :: l)) with (insert_desc x (sort_desc l)).
  rewrite insert_desc_stable. simpl. by rewrite IH.
Qed.

(** X1. The list of the sidebar holds exactly the sessions of the registry,
    each as often as the registry does, the more recently active first, and
    sessions of the same timestamp in the order of the registry. *)
Theorem sidebar_order (st : State) :
  sortedChatSessions st ≡ₚ reg_values (chatSessions st)
  /\ StronglySorted not_after (sortedChatSessions st)
  /\ (forall t,
        List.filter (fun s => ses_timestamp s =? t) (sortedChatSessions st)
        = List.filter (fun s => ses_timestamp s =? t)
            (reg_values (chatSessions st))).
Proof.
  unfold sortedChatSessions. split; [apply sort_desc_perm |].
  split; [apply sort_desc_sorted | intros t; apply sort_desc_stable].
Qed.

Lemma reg_get_values k v (r : registry) :
  reg_get k r = Some v -> v ∈ reg_values r.
Proof.
  unfold reg_values. induction r as [|[k0 v0] r IH]; simpl; [done |].
  destruct (decide (k0 = k)).
  - intros [= ->]. apply list_elem_of_here.
  - intros H. apply list_elem_of_further. by apply IH.
Qed.

Lemma reg_values_set k v (r : registry) x :
  x ∈ reg_values (reg_set k v r) -> x = v \/ x ∈ reg_values r.
Proof.
  unfold reg_set. destruct (reg_get k r); [apply reg_update_values |].
  unfold reg_values. rewrite (reg_put_perm k v r). simpl.
  rewrite elem_of_cons. tauto.
Qed.

Lemma reg_values_set_in k v (r : registry) : v ∈ reg_values (reg_set k v r).
Proof. apply (reg_get_values k). apply reg_get_set_eq. Qed.

(** The head of the sidebar after a session was written that is more
    recent than all the others. *)
Lemma sort_desc_head_set k v (r : registry) :
  Forall (fun kv => ses_timestamp kv.2 < ses_timestamp v) r ->
  head (sort_desc (reg_values (reg_set k v r))) = Some v.
Proof.
  intros Hold.
  pose proof (sort_desc_head (reg_values (reg_set k v r))) as Hhead.
  destruct (head _) as [h|].
  - destruct Hhead as (Hin & Hmax). f_equal.
    destruct (reg_values_set _ _ _ _ Hin) as [->|Hr]; [done |].
    rewrite Forall_forall in Hmax.
    specialize (Hmax v (reg_values_set_in k v r)).
    unfold reg_values in Hr.
    apply list_elem_of_In, in_map_iff in Hr as (kv & <- & Hkv).
    rewrite Forall_forall in Hold.
    specialize (Hold kv ltac:(by apply list_elem_of_In)). lia.
  - pose proof (reg_values_set_in k v r) as Hin. rewrite Hhead in Hin.
    by apply elem_of_nil in Hin.
Qed.

(** X2. A chat started at a time later than the last activity of every
    session stands first in the sidebar, whether or not the conversation
    handle could be built: started by the button of the sidebar it has the
    model the sidebar shows, started by the button of the chat panel the
    model of the panel. Both are the model of the active session; without an
    active session the sidebar shows the default model and the panel the
    regular one. *)
Theorem new_chat_heads_sidebar K thr (model : ModelType) (st : State) :
  Forall (fun kv => ses_timestamp kv.2 < now st) (chatSessions st) ->
  let fresh m := createNewChatSessionObject K (now st) m None None None in
  head (sortedChatSessions (startNewChat K thr model st)) = Some (fresh model)
  /\ head (sortedChatSessions (handleNewChatClick K thr st))
     = Some (fresh (sidebarCurrentModel K st))
  /\ head (sortedChatSessions (onNewChatRequest K thr st))
     = Some (fresh (currentModel st))
  /\ (forall a, activeChatSession st = Some a ->
        sidebarCurrentModel K st = ses_model a
        /\ currentModel st = ses_model a)
  /\ (activeChatSession st = None ->
      sidebarCurrentModel K st = DEFAULT_MODEL_TYPE K
      /\ currentModel st = B1_REGULAR).
Proof.
  intros Hold fresh.
  assert (Hany : forall m,
    head (sortedChatSessions (startNewChat K thr m st)) = Some (fresh m)).
  { intros m. unfold sortedChatSessions. rewrite startNewChat_sessions.
    by apply sort_desc_head_set. }
  split; [apply Hany |]. split; [apply Hany |]. split; [apply Hany |].
  unfold sidebarCurrentModel, currentModel, activeChatSession, reg_get_opt.
  destruct (if_truthy (activeChatId st)) as [a|];
    [destruct (reg_get a (chatSessions st)) |]; split; try done.
  by intros ? [= ->].
Qed.

Lemma new_chat_heads_sidebar_witness :
  let st := setActiveChatId (Some (js "1000"))
              (setChatSessions
                 [(js "1000", sampleSession "1000" "First" [] 1000);
                  (js "1500", sampleSession "1500" "Second" [] 1500)]
                 (bootState (Some (js "key")) 2000)) in
  option_map ses_id
    (head (sortedChatSessions
             (startNewChat sampleConstants never_throws B2_CODING st)))
  = Some (js "2000").
Proof.
  intros st.
  destruct (new_chat_heads_sidebar sampleConstants never_throws B2_CODING st)
    as (Hhead & _); [repeat constructor |].
  by rewrite Hhead.
Defined.

(** ** What every handler keeps of the registry *)

Lemma streamChunks_registry K ctx (Q : registry -> Prop) chunks st :
  update_closed K (ctx_closure ctx) Q ->
  Q (chatSessions st) -> Q (chatSessions (streamChunks K ctx chunks st)).
Proof.
  intros HQ. revert st. induction chunks as [|c chunks IH]; intros st Hst;
    simpl; [done |].
  apply IH. unfold onChunk.
  destruct c.2 as [text|]; [destruct (truthy text)|]; try done.
  by apply HQ.
Qed.

Lemma resume_registry K ctx reply (Q : registry -> Prop) st :
  update_closed K (ctx_closure ctx) Q ->
  Q (chatSessions st) ->
  Q (chatSessions (handleSendMessage_resume K ctx reply st)).
Proof.
  intros HQ Hst. unfold handleSendMessage_resume.
  destruct (match ctx_file ctx with
            | Some _ => reply_fileError reply
            | None => None
            end) as [e|]; simpl.
  - by apply HQ.
  - pose proof (streamChunks_registry K ctx Q (reply_chunks reply)
                  (logRemoteCall
                     (CallSendMessageStream (msg_text (ctx_userMessage ctx))
                        (bool_decide (is_Some (ctx_file ctx)))) st) HQ Hst).
    destruct (reply_error reply); simpl; by apply HQ.
Qed.

(** Every write of a send goes through the updater of the render in which
    the send began. *)
Lemma handleSendMessage_registry K reply (Q : registry -> Prop) st :
  update_closed K st Q ->
  Q (chatSessions st) -> Q (chatSessions (handleSendMessage K reply st)).
Proof.
  intros HQ Hst. unfold handleSendMessage.
  destruct (handleSendMessage_start K st) as [st1 [ctx|]] eqn:Hstart.
  - destruct (start_accepted _ _ _ _ Hstart) as (Hctx & -> & _).
    apply resume_registry; [by rewrite Hctx |].
    simpl. apply HQ. by apply HQ.
  - revert Hstart. unfold handleSendMessage_start.
    destruct (_ || _); [by intros [= <-] |].
    destruct (chatSessionRef st); [|by intros [= <-]].
    destruct (negb (truthy_opt (apiKey st))); [by intros [= <-] |].
    destruct (negb (truthy (userMessageText K st))); [by intros [= <-] | done].
Qed.

Lemma handleGenerateImage_registry K tz reply (Q : registry -> Prop) st :
  update_closed K st Q ->
  Q (chatSessions st) ->
  Q (chatSessions (handleGenerateImage K tz reply st).2).
Proof.
  intros HQ Hst. unfold handleGenerateImage.
  image_guards st reply; simpl; try done; repeat apply HQ; done.
Qed.

Lemma reg_get_elem k s (r : registry) : reg_get k r = Some s -> (k, s) ∈ r.
Proof.
  induction r as [|[k0 v0] r IH]; simpl; [done |].
  destruct (decide (k0 = k)) as [->|].
  - intros [= ->]. apply list_elem_of_here.
  - intros H. apply list_elem_of_further. by apply IH.
Qed.

Lemma registry_ok_get K (r : registry) k s :
  registry_ok K r -> reg_get k r = Some s -> session_ok K k s.
Proof.
  intros (Hall & _) Hget. apply reg_get_elem in Hget.
  rewrite Forall_forall in Hall. apply (Hall (k, s) Hget).
Qed.

Lemma reg_get_None_keys k (r : registry) :
  reg_get k r = None -> k ∉ map fst r.
Proof.
  induction r as [|[k0 v0] r IH]; simpl; [intros _; apply not_elem_of_nil |].
  destruct (decide (k0 = k)); [done |]. intros H.
  apply not_elem_of_cons. split; [done | by apply IH].
Qed.

Lemma reg_set_keys_present k v (r : registry) s :
  reg_get k r = Some s -> map fst (reg_set k v r) = map fst r.
Proof. intros H. unfold reg_set. rewrite H. apply reg_update_keys. Qed.

Lemma reg_update_all (P : jsstring * ChatSession -> Prop) k v (r : registry) :
  P (k, v) -> Forall P r -> Forall P (reg_update k v r).
Proof.
  intros Hv. induction 1 as [|[k0 v0] r H0 Hall IH]; simpl; [constructor |].
  destruct (decide (k0 = k)); constructor; done.
Qed.

Lemma reg_set_ok K k v (r : registry) :
  session_ok K k v -> registry_ok K r -> registry_ok K (reg_set k v r).
Proof.
  intros Hv (Hall & Hdup). destruct (reg_get k r) as [s|] eqn:Hget.
  - split; [|by rewrite (reg_set_keys_present _ _ _ _ Hget)].
    unfold reg_set. rewrite Hget. by apply reg_update_all.
  - unfold registry_ok. rewrite (reg_set_fresh _ _ _ Hget). simpl.
    split; [by constructor |]. apply NoDup_cons. split; [|done].
    by apply reg_get_None_keys.
Qed.

Lemma update_closed_ok K cl : update_closed K cl (registry_ok K).
Proof.
  intros r t f ttl Hr. unfold updateSession.
  destruct (activeChatSession cl) as [a|]; [|done].
  destruct (reg_get (ses_id a) r) as [s|] eqn:Hs; [|done].
  destruct (registry_ok_get _ _ _ _ Hr Hs) as (Hid & Hinstr).
  apply reg_set_ok; [|done]. by split.
Qed.

Lemma fresh_session_ok K t model :
  session_ok K (Number_toString t)
    (createNewChatSessionObject K t model None None None).
Proof. by split. Qed.

Lemma backfill_ok K (r : registry) :
  registry_ok K r ->
  registry_ok K (map (fun kv => (kv.1, backfillTitle K kv.2)) r).
Proof.
  intros (Hall & Hdup). split.
  - apply Forall_forall. intros kv Hin.
    apply list_elem_of_In, in_map_iff in Hin as ([k s] & <- & Hin).
    rewrite Forall_forall in Hall.
    destruct (Hall (k, s) ltac:(by apply list_elem_of_In)) as (Hk & Hi).
    simpl in *. unfold session_ok, backfillTitle. simpl.
    by destruct (truthy (ses_title s)).
  - by rewrite map_map.
Qed.

Lemma loadAll_ok K thr key sid mdl st :
  (forall r, storedHistory st = Parsed r -> registry_ok K r) ->
  registry_ok K (chatSessions (loadAll K thr key sid mdl st)).
Proof.
  intros Hstored.
  assert (Hone : forall t m, registry_ok K
            [(ses_id (createNewChatSessionObject K t m None None None),
              createNewChatSessionObject K t m None None None)]).
  { intros t m. split; [by repeat constructor |]. apply NoDup_singleton. }
  unfold loadAll.
  destruct (loadAll_try K thr key sid mdl st) as [st1|st1] eqn:Htry.
  - revert Htry. unfold loadAll_try.
    assert (Hloaded : forall l,
      match storedHistory st with
      | NoHistory => Some []
      | Unparseable => None
      | Parsed r => Some (map (fun kv => (kv.1, backfillTitle K kv.2)) r)
      end = Some l -> registry_ok K l).
    { destruct (storedHistory st) as [| |r]; intros l [= <-].
      - split; [constructor | apply NoDup_nil_2].
      - apply backfill_ok. by apply Hstored. }
    destruct (match storedHistory st with
              | NoHistory => Some []
              | Unparseable => None
              | Parsed r => Some (map (fun kv => (kv.1, backfillTitle K kv.2)) r)
              end) as [loaded|]; [|done].
    specialize (Hloaded loaded eq_refl).
    destruct (obj_get_opt _ loaded) as [s| |].
    + destruct (thr key _); [done |]. by intros [= <-].
    + done.
    + destruct (_ && _).
      * destruct (head _); simpl; [|done].
        destruct (obj_get _ loaded); [|done..].
        destruct (thr key _); [done |]. by intros [= <-].
      * destruct (thr key _); [done |]. intros [= <-]. simpl.
        apply reg_set_ok; [apply fresh_session_ok | done].
  - destruct (loadAll_catch_state K thr mdl st1) as (Hreg & _).
    simpl. rewrite Hreg. apply Hone.
Qed.

(** X3. Every handler leaves the registry in order: each session is stored
    under its own id, no id is stored twice, and each session carries the
    system instruction of its model. The restore does so when the stored
    registry is in order, which is the case for what the flush writes. *)
Theorem handlers_keep_registry_in_order K thr tz (st : State) :
  registry_ok K (chatSessions st) ->
  (forall model, registry_ok K (chatSessions (startNewChat K thr model st)))
  /\ (forall id, registry_ok K (chatSessions (selectChatSession K thr id st)))
  /\ (forall model,
        registry_ok K (chatSessions (handleModelChangeOnSidebar K thr model st)))
  /\ (forall reply, registry_ok K (chatSessions (handleSendMessage K reply st)))
  /\ (forall reply,
        registry_ok K (chatSessions (handleGenerateImage K tz reply st).2))
  /\ (forall r, storedHistory (persistEffect st) = Parsed r ->
                storedHistory st = Parsed r \/ registry_ok K r)
  /\ (forall sid mdl,
        (forall r, storedHistory st = Parsed r -> registry_ok K r) ->
        registry_ok K (chatSessions (initializeChatLogic K thr sid mdl st))).
Proof.
  intros Hok.
  assert (Hnew : forall model,
            registry_ok K (chatSessions (startNewChat K thr model st))).
  { intros model. rewrite startNewChat_sessions.
    apply reg_set_ok; [apply fresh_session_ok | done]. }
  split; [done |]. split; [|split; [|split; [|split; [|split]]]].
  - intros id. unfold selectChatSession. case_bool_decide; [done |].
    destruct (reg_get id (chatSessions st)); [|done]. simpl.
    destruct (if_truthy (apiKey st)) as [key|]; [|done].
    by destruct (thr key _).
  - intros model. unfold handleModelChangeOnSidebar.
    destruct (if_truthy (activeChatId st)); [|done].
    case_bool_decide; [done | apply Hnew].
  - intros reply. apply handleSendMessage_registry; [|done].
    apply update_closed_ok.
  - intros reply. apply handleGenerateImage_registry; [|done].
    apply update_closed_ok.
  - intros r. unfold persistEffect. destruct (_ && _); simpl; [|by left].
    intros [= <-]. by right.
  - intros sid mdl Hstored. unfold initializeChatLogic.
    destruct (if_truthy (apiKey st)) as [key|].
    + by apply loadAll_ok.
    + simpl. split; [by repeat constructor | apply NoDup_singleton].
Qed.

Lemma handlers_keep_registry_in_order_witness :
  registry_ok sampleConstants
    (chatSessions
       (handleSendMessage sampleConstants helloReply
          (setInputValue (js "Say hello") (readyState 2000)))).
Proof.
  destruct (handlers_keep_registry_in_order sampleConstants never_throws utc
              (setInputValue (js "Say hello") (readyState 2000)))
    as (_ & _ & _ & Hsend & _).
  - split; [by repeat constructor | apply NoDup_singleton].
  - apply Hsend.
Defined.

(** ** What a send leaves alone *)

(** A transform that rewrites the messages of id [P] and keeps their id,
    keeps the ids in their order and every other message as it is. *)
Lemma map_keeps_ids (g : ChatMessage -> ChatMessage) P ms :
  (forall m, msg_id (g m) = msg_id m) ->
  (forall m, msg_id m ≠ P -> g m = m) ->
  map msg_id (map g ms) = map msg_id ms
  /\ without_id P (map g ms) = without_id P ms.
Proof.
  intros Hid Hother. unfold without_id. split.
  - rewrite map_map. by apply map_ext.
  - induction ms as [|m ms IH]; simpl; [done |]. rewrite Hid, IH.
    destruct (decide (msg_id m = P)) as [Hm|Hm].
    + by rewrite (bool_decide_eq_true_2 _ Hm).
    + by rewrite (bool_decide_eq_false_2 _ Hm), (Hother m Hm).
Qed.

Lemma appended_keeps P c ms :
  map msg_id (map (appended P c) ms) = map msg_id ms
  /\ without_id P (map (appended P c) ms) = without_id P ms.
Proof.
  apply map_keeps_ids; intros m; unfold appended.
  - by case_bool_decide.
  - intros Hm. by rewrite (bool_decide_eq_false_2 _ Hm).
Qed.

Lemma streamed_keeps P c model ms :
  map msg_id (map (streamed P c model) ms) = map msg_id ms
  /\ without_id P (map (streamed P c model) ms) = without_id P ms.
Proof.
  apply map_keeps_ids; intros m; unfold streamed.
  - by case_bool_decide.
  - intros Hm. by rewrite (bool_decide_eq_false_2 _ Hm).
Qed.

Lemma overwritten_keeps P text model ms :
  map msg_id (map (overwritten P text model) ms) = map msg_id ms
  /\ without_id P (map (overwritten P text model) ms) = without_id P ms.
Proof.
  apply map_keeps_ids; intros m; unfold overwritten.
  - by case_bool_decide.
  - intros Hm. by rewrite (bool_decide_eq_false_2 _ Hm).
Qed.

Lemma updateSession_keys K cl keys : update_closed K cl (fun r => map fst r = keys).
Proof.
  intros r t f ttl Hr. unfold updateSession.
  destruct (activeChatSession cl) as [a|]; [|done].
  destruct (reg_get (ses_id a) r) as [s|] eqn:Hs; [|done].
  by rewrite (reg_set_keys_present _ _ _ _ Hs).
Qed.

Lemma updateSession_others K cl a k v :
  activeChatSession cl = Some a -> k ≠ ses_id a ->
  update_closed K cl (fun r => reg_get k r = v).
Proof.
  intros Ha Hk r t f ttl Hr.
  by rewrite (updateSession_other _ _ _ _ _ _ _ _ Ha Hk).
Qed.

(** The messages of the session of an accepted send when the exchange has
    ended, whichever way. *)
Lemma send_final_messages K reply st st1 ctx a s :
  handleSendMessage_start K st = (st1, Some ctx) ->
  activeChatSession st = Some a ->
  reg_get (ses_id a) (chatSessions st) = Some s ->
  exists g,
    (forall m, msg_id (g m) = msg_id m)
    /\ (forall m, msg_id m ≠ ctx_aiMessageId ctx -> g m = m)
    /\ session_messages (ses_id a) (handleSendMessage K reply st)
         (map g (ses_messages s ++ [userMessageOf K st; placeholderOf st])).
Proof.
  intros Hstart Ha Hs.
  pose proof (start_session _ _ _ _ _ _ Hstart Ha Hs) as Hs1.
  destruct (start_accepted _ _ _ _ Hstart) as (Hctx & _ & _).
  assert (Hcl : activeChatSession (ctx_closure ctx) = Some a)
    by (by rewrite Hctx).
  assert (HP : msg_id (placeholderOf st) = ctx_aiMessageId ctx)
    by (by rewrite Hctx).
  set (P := ctx_aiMessageId ctx) in *.
  set (ms0 := ses_messages s ++ [userMessageOf K st; placeholderOf st]) in *.
  assert (Hid : has_id P ms0 = true).
  { subst ms0. rewrite app_two. by apply has_id_last. }
  assert (Hms1 : session_messages (ses_id a) st1 ms0) by (by eexists).
  unfold handleSendMessage. rewrite Hstart.
  destruct (send_failure ctx reply) as [e|] eqn:Hfail.
  - destruct (resume_failure K ctx reply st1 a ms0 e Hfail Hcl Hid Hms1)
      as (st2 & partial & -> & Hms2 & _).
    pose proof (onSendError_messages K ctx a e st2 _ Hcl Hms2) as Hfin.
    rewrite overwritten_appended in Hfin.
    exists (overwritten P (sendErrorText K e) (currentModel (ctx_closure ctx))).
    split; [|split; [|exact Hfin]]; intros m; unfold overwritten.
    + by destruct (bool_decide (msg_id m = P)).
    + intros Hm. by rewrite (bool_decide_eq_false_2 _ Hm).
  - rewrite (resume_no_failure _ _ _ _ Hfail).
    pose proof (streamChunks_messages K ctx a (reply_chunks reply)
                  (logRemoteCall
                     (CallSendMessageStream (msg_text (ctx_userMessage ctx))
                        (bool_decide (is_Some (ctx_file ctx)))) st1)
                  ms0 Hcl Hid Hms1) as Hms2.
    pose proof (onComplete_messages K ctx a
                  (at_time (reply_end reply) _) _ Hcl Hms2) as Hfin.
    rewrite streamed_appended in Hfin.
    exists (streamed P (concat (fragments (reply_chunks reply)))
              (currentModel (ctx_closure ctx))).
    split; [|split; [|exact Hfin]]; intros m; unfold streamed.
    + by destruct (bool_decide (msg_id m = P)).
    + intros Hm. by rewrite (bool_decide_eq_false_2 _ Hm).
Qed.

(** X4. A send never removes or reorders anything. The ids of the sessions
    stay as they are, in their order, and every session but the one the send
    began in is untouched. In that session an accepted send, however the
    exchange ends, adds exactly the user message and the placeholder behind
    the messages that were there, and changes no message that does not carry
    the placeholder id. *)
Theorem send_only_appends K (reply : SendReply) (st : State) :
  map fst (chatSessions (handleSendMessage K reply st))
  = map fst (chatSessions st)
  /\ (forall a k, activeChatSession st = Some a -> k ≠ ses_id a ->
        reg_get k (chatSessions (handleSendMessage K reply st))
        = reg_get k (chatSessions st))
  /\ (forall st1 ctx a s,
        handleSendMessage_start K st = (st1, Some ctx) ->
        activeChatSession st = Some a ->
        reg_get (ses_id a) (chatSessions st) = Some s ->
        exists s',
          reg_get (ses_id a) (chatSessions (handleSendMessage K reply st))
          = Some s'
          /\ map msg_id (ses_messages s')
             = map msg_id (ses_messages s)
               ++ [msg_id (ctx_userMessage ctx); ctx_aiMessageId ctx]
          /\ without_id (ctx_aiMessageId ctx) (ses_messages s')
             = without_id (ctx_aiMessageId ctx) (ses_messages s)
               ++ [ctx_userMessage ctx]).
Proof.
  split; [|split].
  - by apply (handleSendMessage_registry K reply
                (fun r => map fst r = map fst (chatSessions st)));
      [apply updateSession_keys |].
  - intros a k Ha Hk.
    by apply (handleSendMessage_registry K reply
                (fun r => reg_get k r = reg_get k (chatSessions st)));
      [apply (updateSession_others K st a) |].
  - intros st1 ctx a s Hstart Ha Hs.
    destruct (send_final_messages K reply st st1 ctx a s Hstart Ha Hs)
      as (g & Hid & Hother & s' & Hs' & Hms).
    destruct (start_accepted _ _ _ _ Hstart) as (Hctx & _ & _).
    destruct (map_keeps_ids g (ctx_aiMessageId ctx)
                (ses_messages s ++ [userMessageOf K st; placeholderOf st])
                Hid Hother) as (Hids & Hrest).
    exists s'. split; [done |]. rewrite Hms, Hids, Hrest, Hctx. simpl.
    split; [by rewrite map_app |].
    unfold without_id. rewrite List.filter_app. simpl.
    rewrite (bool_decide_eq_false_2 _ (user_id_not_placeholder K st)).
    by rewrite bool_decide_eq_true_2.
Qed.

Lemma send_only_appends_witness :
  let st := setInputValue (js "Say hello") (readyState 2000) in
  exists s',
    reg_get (js "1000")
      (chatSessions (handleSendMessage sampleConstants
                       (brokenReply "network down") st)) = Some s'
    /\ map msg_id (ses_messages s')
       = [js "1000_ai_welcome"; js "2000_user"; js "2000_ai"].
Proof.
  intros st.
  destruct (send_only_appends sampleConstants (brokenReply "network down") st)
    as (_ & _ & Hadd).
  destruct (Hadd _ _ _ _ eq_refl eq_refl eq_refl) as (s' & Hs' & Hids & _).
  exists s'. split; [exact Hs' | exact Hids].
Defined.

(** ** One exchange at a time *)

(** The state in which the continuation of a send ends, but for the
    registry. *)
Lemma resume_frame K ctx reply st :
  exists r,
    handleSendMessage_resume K ctx reply st
    = mkState (apiKey st) (currentUser st) (activeChatId st) r
        (match send_failure ctx reply with
         | Some e => Some (sendErrorText K e)
         | None => globalError st
         end)
        (isChatInitializing st) (isSidebarOpen st) (chatSessionRef st)
        (inputValue st) false (uploadedImageFile st) (uploadedImagePreview st)
        (isProcessingImageGen st) (userImageGenData st) (reply_end reply)
        (storedHistory st) (storedActiveChatId st) (userDocs st)
        (match ctx_file ctx, reply_fileError reply with
         | Some _, Some _ => remoteCalls st
         | _, _ =>
             remoteCalls st ++
             [CallSendMessageStream (msg_text (ctx_userMessage ctx))
                (bool_decide (is_Some (ctx_file ctx)))]
         end)
        (match send_failure ctx reply with
         | Some e => errorReports st ++ [sendErrorText K e]
         | None => errorReports st
         end).
Proof.
  unfold handleSendMessage_resume, send_failure.
  destruct (ctx_file ctx) as [f|];
    [destruct (reply_fileError reply) as [e|]; [by eexists |]|].
  - destruct (streamChunks_frame K ctx (reply_chunks reply)
                (logRemoteCall
                   (CallSendMessageStream (msg_text (ctx_userMessage ctx))
                      (bool_decide (is_Some (Some f)))) st)) as (r & t & ->).
    destruct (reply_error reply); by eexists.
  - destruct (streamChunks_frame K ctx (reply_chunks reply)
                (logRemoteCall
                   (CallSendMessageStream (msg_text (ctx_userMessage ctx))
                      (bool_decide (is_Some (@None jsstring)))) st))
      as (r & t & ->).
    destruct (reply_error reply); by eexists.
Qed.

Lemma start_rejected K st st1 :
  handleSendMessage_start K st = (st1, None) ->
  chatSessions st1 = chatSessions st /\ remoteCalls st1 = remoteCalls st
  /\ isLoadingBotResponse st1 = isLoadingBotResponse st
  /\ isProcessingImageGen st1 = isProcessingImageGen st.
Proof.
  unfold handleSendMessage_start.
  destruct (_ || isLoadingBotResponse st || isProcessingImageGen st) eqn:Hbusy;
    [by intros [= <-] |].
  apply orb_false_iff in Hbusy as (Hbusy & _).
  apply orb_false_iff in Hbusy as (_ & Hload).
  destruct (chatSessionRef st); [|by intros [= <-]].
  destruct (negb (truthy_opt (apiKey st))); [by intros [= <-] |].
  destruct (negb (truthy (userMessageText K st))); [|done].
  intros [= <-]. simpl. by rewrite Hload.
Qed.

(** X5. At most one exchange is under way. While a response is loading or
    an image is being generated, a send and an image request change nothing;
    an accepted send raises the loading flag before it suspends, so this
    holds until its continuation has run; and when an exchange has ended,
    whichever way, its flag is down again and the flag of the other kind is
    as it was. *)
Theorem exchange_is_exclusive K tz (st : State) :
  (isLoadingBotResponse st = true \/ isProcessingImageGen st = true ->
   forall reply ireply,
     handleSendMessage K reply st = st
     /\ handleGenerateImage K tz ireply st = (ImageIgnored, st))
  /\ (forall st1 ctx,
        handleSendMessage_start K st = (st1, Some ctx) ->
        isLoadingBotResponse st1 = true)
  /\ (forall reply,
        isLoadingBotResponse st = false ->
        isLoadingBotResponse (handleSendMessage K reply st) = false)
  /\ (forall reply,
        isProcessingImageGen (handleSendMessage K reply st)
        = isProcessingImageGen st)
  /\ (forall ireply,
        isProcessingImageGen st = false ->
        isProcessingImageGen (handleGenerateImage K tz ireply st).2 = false)
  /\ (forall ireply,
        isLoadingBotResponse (handleGenerateImage K tz ireply st).2
        = isLoadingBotResponse st).
Proof.
  split; [|split; [|split; [|split; [|split]]]].
  - intros Hbusy reply ireply.
    unfold handleSendMessage, handleSendMessage_start, handleGenerateImage.
    destruct Hbusy as [-> | ->]; by rewrite ?orb_true_r.
  - intros st1 ctx Hstart.
    by destruct (start_accepted _ _ _ _ Hstart) as (_ & -> & _).
  - intros reply Hidle. unfold handleSendMessage.
    destruct (handleSendMessage_start K st) as [st1 [ctx|]] eqn:Hstart.
    + by destruct (resume_frame K ctx reply st1) as (r & ->).
    + destruct (start_rejected _ _ _ Hstart) as (_ & _ & -> & _). done.
  - intros reply. unfold handleSendMessage.
    destruct (handleSendMessage_start K st) as [st1 [ctx|]] eqn:Hstart.
    + destruct (resume_frame K ctx reply st1) as (r & ->). simpl.
      by destruct (start_accepted _ _ _ _ Hstart) as (_ & -> & _).
    + by destruct (start_rejected _ _ _ Hstart) as (_ & _ & _ & ->).
  - intros ireply Hidle. unfold handleGenerateImage.
    image_guards st ireply; done.
  - intros ireply. unfold handleGenerateImage.
    image_guards st ireply; done.
Qed.

(** What a send does not touch. *)
Lemma handleSendMessage_frame K (reply : SendReply) (st : State) :
  let st' := handleSendMessage K reply st in
  activeChatId st' = activeChatId st
  /\ chatSessionRef st' = chatSessionRef st
  /\ userImageGenData st' = userImageGenData st
  /\ userDocs st' = userDocs st
  /\ storedHistory st' = storedHistory st
  /\ storedActiveChatId st' = storedActiveChatId st.
Proof.
  intros st'. subst st'. unfold handleSendMessage.
  destruct (handleSendMessage_start K st) as [st1 [ctx|]] eqn:Hstart.
  - destruct (resume_frame K ctx reply st1) as (r & ->).
    by destruct (start_accepted _ _ _ _ Hstart) as (-> & -> & _).
  - revert Hstart. unfold handleSendMessage_start.
    destruct (_ || _); [by intros [= <-] |].
    destruct (chatSessionRef st) eqn:Href;
      [|intros [= <-]; simpl; by rewrite Href].
    destruct (negb (truthy_opt (apiKey st)));
      [intros [= <-]; simpl; by rewrite Href |].
    destruct (negb (truthy (userMessageText K st))); [|done].
    intros [= <-]. simpl. by rewrite Href.
Qed.

(** X6. An accepted send calls the remote conversation exactly once, with
    the text of the user message, and not at all when the attached file
    cannot be read; it empties the input and takes the attached image and its
    preview away. It leaves the active id, the conversation handle, the quota
    cache and documents and the durable store as they are. A send that is
    not accepted calls nothing and adds no message. *)
Theorem send_calls_remote_once K (reply : SendReply) (st : State) :
  let st' := handleSendMessage K reply st in
  (forall st1 ctx,
      handleSendMessage_start K st = (st1, Some ctx) ->
      remoteCalls st' = remoteCalls st ++ sendCalls K reply st
      /\ inputValue st' = []
      /\ uploadedImageFile st' = None
      /\ uploadedImagePreview st' = None)
  /\ (forall st1,
        handleSendMessage_start K st = (st1, None) ->
        remoteCalls st' = remoteCalls st /\ chatSessions st' = chatSessions st)
  /\ activeChatId st' = activeChatId st
  /\ chatSessionRef st' = chatSessionRef st
  /\ userImageGenData st' = userImageGenData st
  /\ userDocs st' = userDocs st
  /\ storedHistory st' = storedHistory st
  /\ storedActiveChatId st' = storedActiveChatId st.
Proof.
  intros st'. split; [|split; [|apply handleSendMessage_frame]];
    subst st'; unfold handleSendMessage.
  - intros st1 ctx Hstart. rewrite Hstart.
    destruct (resume_frame K ctx reply st1) as (r & ->).
    destruct (start_accepted _ _ _ _ Hstart) as (-> & -> & _). simpl.
    unfold sendCalls.
    destruct (uploadedImageFile st), (reply_fileError reply);
      by rewrite ?app_nil_r.
  - intros st1 Hstart. rewrite Hstart.
    by destruct (start_rejected _ _ _ Hstart) as (-> & -> & _).
Qed.

(** ** Input that is blank *)

Lemma trimStart_blank (s : jsstring) : blank s -> trimStart s = [].
Proof. induction 1 as [|c s Hc _ IH]; simpl; [done |]. by rewrite Hc. Qed.

Lemma trim_blank (s : jsstring) : blank s -> trim s = [].
Proof. intros H. unfold trim. by rewrite (trimStart_blank s H). Qed.

Lemma trimStart_head (s : jsstring) c t :
  trimStart s = c :: t -> isWhiteSpace c = false.
Proof.
  induction s as [|d s IH]; simpl; [done |].
  destruct (isWhiteSpace d) eqn:Hd; [done |]. by intros [= <- _].
Qed.

Lemma trimStart_suffix (s : jsstring) : exists p, s = p ++ trimStart s.
Proof.
  induction s as [|d s (p & IH)]; simpl; [by exists [] |].
  destruct (isWhiteSpace d); [|by exists []].
  exists (d :: p). simpl. by rewrite <- IH.
Qed.

Lemma trim_ends (s : jsstring) :
  (forall c t, trim s = c :: t -> isWhiteSpace c = false)
  /\ (forall t c, trim s = t ++ [c] -> isWhiteSpace c = false).
Proof.
  unfold trim. set (y := trimStart s).
  destruct (trimStart_suffix (rev y)) as (p & Hp).
  set (x := trimStart (rev y)) in *.
  assert (Hy : y = rev x ++ rev p).
  { rewrite <- (rev_involutive y), Hp. by rewrite rev_app_distr. }
  split.
  - intros c t Hc. apply (trimStart_head s c (t ++ rev p)).
    fold y. by rewrite Hy, Hc.
  - intros t c Hc. apply (trimStart_head (rev y) c (rev t)). fold x.
    rewrite <- (rev_involutive x), Hc, rev_app_distr. done.
Qed.

(** X7. Input that consists of white space only is ignored: an image
    request does nothing, and neither does a send unless an image is
    attached, in which case the fixed prompt is sent in its place. Otherwise
    the text of the user message is the input without the white space
    around it. *)
Theorem blank_input_is_ignored K tz (st : State) :
  (blank (inputValue st) ->
   (forall ireply, handleGenerateImage K tz ireply st = (ImageIgnored, st))
   /\ (uploadedImageFile st = None ->
       forall reply, handleSendMessage K reply st = st)
   /\ (is_Some (uploadedImageFile st) ->
       msg_text (userMessageOf K st) = IMAGE_QUERY_PROMPT_DEFAULT_BN K))
  /\ (truthy (trim (inputValue st)) = true ->
      msg_text (userMessageOf K st) = trim (inputValue st))
  /\ (forall c t, trim (inputValue st) = c :: t -> isWhiteSpace c = false)
  /\ (forall t c, trim (inputValue st) = t ++ [c] -> isWhiteSpace c = false).
Proof.
  split; [|split; [|apply trim_ends]].
  - intros Hblank. pose proof (trim_blank _ Hblank) as Htrim.
    split; [|split].
    + intros ireply. unfold handleGenerateImage. by rewrite Htrim.
    + intros Hfile reply.
      unfold handleSendMessage, handleSendMessage_start.
      by rewrite Htrim, Hfile.
    + intros [f Hf]. simpl. unfold userMessageText. by rewrite Htrim, Hf.
  - intros Htext. simpl. unfold userMessageText. by rewrite Htext.
Qed.

(** ** Selection of a session *)


(** ** The handle and the active session *)






(** ** More on the quota *)

Lemma currentCount_bound tz (data : option UserImageGenerationData)
    (t1 t2 limit : Z) :
  (forall a b, a <= b -> tz a <= tz b) ->
  t1 <= t2 ->
  (forall d, data = Some d -> 0 <= count d) ->
  currentCount tz data t1 < limit ->
  0 <= currentCount tz data t2 < limit.
Proof.
  intros Hmono Ht Hpos. unfold currentCount.
  destruct data as [d|]; [|lia].
  specialize (Hpos d eq_refl).
  pose proof (Hmono t1 t2 Ht).
  destruct (Z.leb_spec (tz t1) (lastGeneratedAt d)),
    (Z.leb_spec (tz t2) (lastGeneratedAt d)); lia.
Qed.

(** What a request that got its image and wrote its count has stored. *)
Lemma generated_state K tz reply st :
  (handleGenerateImage K tz reply st).1 = ImageGenerated ->
  exists user,
    currentUser st = Some user
    /\ currentCount tz (userImageGenData st) (now st)
       < DAILY_IMAGE_GENERATION_LIMIT K
    /\ userDocs (handleGenerateImage K tz reply st).2
       = <[uid user :=
             mkGenData
               (currentCount tz (userImageGenData st) (img_at reply) + 1)
               (setDoc_serverTime reply)]> (userDocs st)
    /\ userImageGenData (handleGenerateImage K tz reply st).2
       = Some (mkGenData
                 (currentCount tz (userImageGenData st) (img_at reply) + 1)
                 (setDoc_at reply)).
Proof.
  unfold handleGenerateImage.
  destruct (negb (truthy (trim (inputValue st))) || isLoadingBotResponse st
            || isProcessingImageGen st); [done |].
  destruct (if_truthy (apiKey st)); [|done].
  destruct (currentUser st) as [user|]; [|done].
  destruct (Z.leb_spec (DAILY_IMAGE_GENERATION_LIMIT K)
              (currentCount tz (userImageGenData st) (now st))); [done |].
  destruct (img_result reply); [destruct (setDoc_error reply)|]; try done.
  intros _. by exists user.
Qed.

(** X10. A generation that fails, because the service fails or because the
    count cannot be written, is not counted: the quota cache and every quota
    document stay as they were, while the failure is shown on the error
    surface and the service was called. Only a request that ends as
    generated changes them. *)
Theorem failed_generation_is_not_counted K tz (reply : ImageReply)
    (st : State) :
  let r := handleGenerateImage K tz reply st in
  (r.1 ≠ ImageGenerated ->
   userDocs r.2 = userDocs st /\ userImageGenData r.2 = userImageGenData st)
  /\ (r.1 = ImageFailed ->
      globalError r.2 = Some (IMAGE_GENERATION_FAILED_BN K)
      /\ exists calls,
           remoteCalls r.2
           = remoteCalls st ++ CallGenerateImage (trim (inputValue st)) :: calls)
  /\ (r.1 = ImageFailed <->
      quota_consulted st
      /\ currentCount tz (userImageGenData st) (now st)
         < DAILY_IMAGE_GENERATION_LIMIT K
      /\ (is_Some (setDoc_error reply) \/ exists e, img_result reply = inr e)).
Proof.
  intros r. subst r. unfold handleGenerateImage, quota_consulted.
  split; [|split].
  - image_guards st reply; simpl; done.
  - image_guards st reply; simpl; try done; intros _;
      (split; [done |]); eexists; rewrite <- ?app_assoc; reflexivity.
  - destruct (truthy (trim (inputValue st))), (isLoadingBotResponse st),
      (isProcessingImageGen st); simpl;
      try (split; [done | intros (H & _); by destruct H as (? & ? & ? & _)]).
    unfold truthy_opt, if_truthy, Some_if_truthy.
    destruct (apiKey st) as [k|]; [destruct (truthy k)|]; simpl;
      try (split; [done | intros (H & _); by destruct H as (_ & _ & _ & ? & _)]).
    destruct (currentUser st) as [u|]; simpl;
      [|split; [done | intros (H & _);
                by destruct H as (_ & _ & _ & _ & [? ?])]].
    destruct (Z.leb_spec (DAILY_IMAGE_GENERATION_LIMIT K)
                (currentCount tz (userImageGenData st) (now st)));
      [split; [done | intros (_ & ? & _); lia] |].
    destruct (img_result reply) as [img|e];
      [destruct (setDoc_error reply) as [e|]|]; simpl.
    + split; [intros _ | done]. repeat split; eauto.
    + split; [done |]. intros (_ & _ & [[? [=]]|[? [=]]]).
    + split; [intros _ | done]. repeat split; eauto.
Qed.

(** X11. The count that a generation stores is at least 1 and at most the
    daily limit, when the clock did not run backwards between the request and
    the arrival of the image and the cached count is not negative, in a time
    zone in which a later instant has no earlier start of day. *)
Theorem stored_count_within_limit K tz (reply : ImageReply) (st : State) :
  (forall a b, a <= b -> tz a <= tz b) ->
  (handleGenerateImage K tz reply st).1 = ImageGenerated ->
  now st <= img_at reply ->
  (forall d, userImageGenData st = Some d -> 0 <= count d) ->
  exists user n,
    currentUser st = Some user
    /\ userDocs (handleGenerateImage K tz reply st).2 !! uid user
       = Some (mkGenData n (setDoc_serverTime reply))
    /\ option_map count (userImageGenData (handleGenerateImage K tz reply st).2)
       = Some n
    /\ 1 <= n <= DAILY_IMAGE_GENERATION_LIMIT K.
Proof.
  intros Hlaws Hgen Hclock Hpos.
  destruct (generated_state K tz reply st Hgen)
    as (user & Hu & Hlt & -> & ->).
  exists user, (currentCount tz (userImageGenData st) (img_at reply) + 1).
  split; [done |]. split; [apply lookup_insert_eq |]. split; [done |].
  pose proof (currentCount_bound tz (userImageGenData st) (now st)
                (img_at reply) _ Hlaws Hclock Hpos Hlt). lia.
Qed.

Lemma stored_count_within_limit_witness :
  let st := setInputValue (js "a cat")
              (at_time 1700000002000
                 (generateAt 1700000001000
                    (generateAt 1700000000000
                       (signedInState 1700000000000)).2).2) in
  let reply := mkImageReply 1700000002500 (inl (js "png")) 1700000002600 None
                 1700000002700 in
  exists n,
    userDocs (handleGenerateImage sampleConstants utc reply st).2 !! js "u1"
    = Some (mkGenData n 1700000002600)
    /\ 1 <= n <= 3.
Proof.
  intros st reply.
  destruct (stored_count_within_limit sampleConstants utc reply st)
    as (user & n & Hu & Hdoc & _ & Hn).
  - apply (fixedOffset_laws 0).
  - reflexivity.
  - vm_compute. discriminate.
  - intros d Hd. vm_compute in Hd. injection Hd as <-.
    vm_compute. discriminate.
  - injection Hu as <-. exists n. split; [exact Hdoc | exact Hn].
Defined.

Lemma handleGenerateImage_user K tz reply st :
  currentUser (handleGenerateImage K tz reply st).2 = currentUser st.
Proof.
  unfold handleGenerateImage.
  destruct (negb (truthy (trim (inputValue st))) || isLoadingBotResponse st
            || isProcessingImageGen st); [done |].
  destruct (if_truthy (apiKey st)); [|done].
  destruct (currentUser st) as [user|] eqn:Hu; [|done].
  destruct (_ <=? _); [done |].
  destruct (img_result reply); [destruct (setDoc_error reply)|]; done.
Qed.

(** X12. A generation writes the document of the signed-in user and of no
    other user, and a refresh of the cache afterwards reads back the count
    that was written, with the timestamp of the server where the cache had
    the one of the client. *)
Theorem quota_write_is_read_back K tz (reply : ImageReply) (st : State) :
  let r := handleGenerateImage K tz reply st in
  r.1 = ImageGenerated ->
  exists user n,
    currentUser st = Some user
    /\ (forall other, other ≠ uid user ->
          userDocs r.2 !! other = userDocs st !! other)
    /\ userImageGenData r.2 = Some (mkGenData n (setDoc_at reply))
    /\ userImageGenData (fetchUserImageGenData r.2)
       = Some (mkGenData n (setDoc_serverTime reply)).
Proof.
  intros r Hgen. subst r.
  destruct (generated_state K tz reply st Hgen) as (user & Hu & _ & Hdocs & Hc).
  exists user, (currentCount tz (userImageGenData st) (img_at reply) + 1).
  split; [done |]. split; [|split; [done |]].
  - intros other Hother. rewrite Hdocs. by apply lookup_insert_ne.
  - unfold fetchUserImageGenData.
    rewrite handleGenerateImage_user, Hu, Hdocs, lookup_insert_eq. done.
Qed.

Lemma quota_write_is_read_back_witness :
  let st := setInputValue (js "a cat") (signedInState 1700000000000) in
  let reply := mkImageReply 1700000000500 (inl (js "png")) 1700000000600 None
                 1700000000700 in
  userImageGenData
    (fetchUserImageGenData (handleGenerateImage sampleConstants utc reply st).2)
  = Some (mkGenData 1 1700000000600).
Proof.
  intros st reply.
  destruct (quota_write_is_read_back sampleConstants utc reply st eq_refl)
    as (user & n & _ & _ & Hcache & Hread).
  rewrite Hread. injection Hcache as <-. reflexivity.
Defined.

(** ** The attached image *)

(** X13. A chosen file is taken when it has at most 4 * 1024 * 1024 bytes
    and one of the five supported types; it then becomes the attached image,
    the error surface is cleared, the input row goes to chat mode, and an
    input that is blank is filled with the fixed prompt. A file that is too
    large, or else of another type, is refused with the respective message:
    the attached image, the input and the mode stay as they are and the file
    input is emptied. In no case is a session or the log of remote calls
    touched. *)
Theorem upload_is_validated K (f : File) (p : Panel) :
  let p' := handleImageUpload K (Some f) p in
  let st := panel_state p in
  let st' := panel_state p' in
  (4194304 < file_size f ->
   globalError st' = Some FILE_TOO_LARGE_BN
   /\ uploadedImageFile st' = uploadedImageFile st
   /\ inputValue st' = inputValue st
   /\ isGeneratingImageMode p' = isGeneratingImageMode p
   /\ fileInputValue p' = [])
  /\ (file_size f <= 4194304 ->
      file_type f ∉ SUPPORTED_IMAGE_TYPES ->
      globalError st' = Some UNSUPPORTED_TYPE_BN
      /\ uploadedImageFile st' = uploadedImageFile st
      /\ inputValue st' = inputValue st
      /\ isGeneratingImageMode p' = isGeneratingImageMode p
      /\ fileInputValue p' = [])
  /\ (file_size f <= 4194304 ->
      file_type f ∈ SUPPORTED_IMAGE_TYPES ->
      globalError st' = None
      /\ uploadedImageFile st' = Some (file_name f)
      /\ inputValue st'
         = (if truthy (trim (inputValue st)) then inputValue st
            else IMAGE_QUERY_PROMPT_DEFAULT_BN K)
      /\ isGeneratingImageMode p' = false
      /\ fileInputValue p' = fileInputValue p)
  /\ chatSessions st' = chatSessions st
  /\ remoteCalls st' = remoteCalls st
  /\ handleImageUpload K None p = p.
Proof.
  intros p' st st'. subst p' st st'. unfold handleImageUpload.
  change (4 * 1024 * 1024) with 4194304.
  destruct (Z.ltb_spec 4194304 (file_size f)).
  - repeat split; try done; intros; lia.
  - destruct (decide (file_type f ∈ SUPPORTED_IMAGE_TYPES)) as [Hin|Hout].
    + rewrite (bool_decide_eq_true_2 _ Hin). simpl.
      repeat split; try done; try (intros; lia);
        destruct (truthy (trim (inputValue (panel_state p)))); done.
    + rewrite (bool_decide_eq_false_2 _ Hout). simpl.
      repeat split; try done; intros; lia.
Qed.

Lemma send_upload_state K reply st :
  uploadedImageFile (handleSendMessage K reply st) = None
  \/ uploadedImageFile (handleSendMessage K reply st) = uploadedImageFile st.
Proof.
  unfold handleSendMessage.
  destruct (handleSendMessage_start K st) as [st1 [ctx|]] eqn:Hstart.
  - left. destruct (resume_frame K ctx reply st1) as (r & ->).
    by destruct (start_accepted _ _ _ _ Hstart) as (_ & -> & _).
  - right. revert Hstart. unfold handleSendMessage_start.
    destruct (_ || _); [by intros [= <-] |].
    destruct (chatSessionRef st); [|by intros [= <-]].
    destruct (negb (truthy_opt (apiKey st))); [by intros [= <-] |].
    destruct (negb (truthy (userMessageText K st))); [by intros [= <-] | done].
Qed.

Lemma handleGenerateImage_upload K tz reply st :
  uploadedImageFile (handleGenerateImage K tz reply st).2
  = uploadedImageFile st.
Proof. unfold handleGenerateImage. image_guards st reply; done. Qed.

(** X14. Whatever is done in the input row, no image is attached while the
    row is in the mode of image generation: choosing a file, the end of the
    read of the preview, taking the image away, switching the mode, sending,
    generating and the effect on a change of the active session all keep it
    so. These are all the writers of the attached file and of the mode. *)
Theorem image_mode_has_no_attachment K (p : Panel) :
  mode_excludes_file p ->
  (forall file, mode_excludes_file (handleImageUpload K file p))
  /\ (forall result, mode_excludes_file (onPreviewLoaded result p))
  /\ mode_excludes_file (removeImage p)
  /\ mode_excludes_file (toggleImageMode p)
  /\ (forall reply, mode_excludes_file (panelSend K reply p))
  /\ (forall tz reply, mode_excludes_file (panelGenerate K tz reply p))
  /\ (forall prev, mode_excludes_file (panelActiveChatChange prev p)).
Proof.
  unfold mode_excludes_file. intros Hp.
  split; [|split; [|split; [|split; [|split; [|split]]]]].
  - intros [f|]; [|done]. unfold handleImageUpload.
    destruct (_ <? _); [done |]. destruct (negb _); [done |]. done.
  - done.
  - done.
  - unfold toggleImageMode.
    destruct (isGeneratingImageMode p); simpl; [done |].
    destruct (uploadedImageFile (panel_state p)) as [f|] eqn:Hfile;
      [done |].
    rewrite bool_decide_eq_false_2 by (by intros [? ?]). simpl. done.
  - intros reply. simpl. intros Hmode.
    destruct (send_upload_state K reply (panel_state p)) as [-> | ->];
      [done | by apply Hp].
  - intros tz reply. simpl. rewrite handleGenerateImage_upload. apply Hp.
  - intros prev. simpl. intros Hmode. unfold onActiveChatChange.
    destruct (bool_decide _); [by apply Hp | done].
Qed.

Lemma image_mode_has_no_attachment_witness :
  let p := handleImageUpload sampleConstants (Some (sampleFile 1024))
             readyPanel in
  uploadedImageFile (panel_state p) = Some (js "cat.png")
  /\ uploadedImageFile (panel_state (toggleImageMode p)) = None.
Proof.
  intros p. split; [reflexivity |].
  destruct (image_mode_has_no_attachment sampleConstants p)
    as (_ & _ & _ & Htoggle & _); [discriminate |].
  apply Htoggle. reflexivity.
Defined.

(** ** A send before the preview has been read *)

Lemma start_accepts K st :
  can_send st -> truthy (userMessageText K st) = true ->
  exists st1 ctx, handleSendMessage_start K st = (st1, Some ctx).
Proof.
  intros ([chat Href] & Hkey & Hload & Hgen) Htext.
  unfold handleSendMessage_start. rewrite Href, Hkey, Hload, Hgen, Htext.
  assert (Hguard : negb (truthy (trim (inputValue st)))
                   && negb (bool_decide (is_Some (uploadedImageFile st)))
                   = false).
  { revert Htext. unfold userMessageText.
    destruct (truthy (trim (inputValue st))); [done |].
    destruct (uploadedImageFile st); [|done].
    intros _. simpl. by rewrite ?bool_decide_eq_true_2. }
  rewrite Hguard. simpl. eauto.
Qed.

Lemma accepted_send_state K reply st st1 ctx :
  handleSendMessage_start K st = (st1, Some ctx) ->
  let st' := handleSendMessage K reply st in
  apiKey st' = apiKey st
  /\ chatSessionRef st' = chatSessionRef st
  /\ isLoadingBotResponse st' = false
  /\ isProcessingImageGen st' = isProcessingImageGen st
  /\ inputValue st' = []
  /\ uploadedImageFile st' = None
  /\ uploadedImagePreview st' = None
  /\ remoteCalls st' = remoteCalls st ++ sendCalls K reply st.
Proof.
  intros Hstart st'. subst st'. unfold handleSendMessage. rewrite Hstart.
  destruct (resume_frame K ctx reply st1) as (r & ->).
  destruct (start_accepted _ _ _ _ Hstart) as (-> & -> & _). simpl.
  repeat split; try done.
  unfold sendCalls.
  destruct (uploadedImageFile st), (reply_fileError reply);
    by rewrite ?app_nil_r.
Qed.

(** X15. The preview of a chosen file is read in the background, and
    nothing ties its arrival to the file. When a send goes out before the
    read has ended, the image is sent, the attachment is taken away, and the
    preview that arrives afterwards stays in the panel without a file. The
    next send then shows that picture in its user message, while the message
    is no image query and the remote call carries the typed text alone. *)
Theorem late_preview_outlives_its_file K (f : File) (url t : jsstring)
    (reply reply' : SendReply) (p : Panel) :
  can_send (panel_state p) ->
  file_size f <= 4194304 ->
  file_type f ∈ SUPPORTED_IMAGE_TYPES ->
  truthy (IMAGE_QUERY_PROMPT_DEFAULT_BN K) = true ->
  reply_fileError reply = None ->
  truthy url = true ->
  truthy (trim t) = true ->
  let p1 := handleImageUpload K (Some f) p in
  let p2 := panelSend K reply p1 in
  let p3 := onInputChange t (onPreviewLoaded (Some url) p2) in
  let p4 := panelSend K reply' p3 in
  remoteCalls (panel_state p2)
  = remoteCalls (panel_state p)
    ++ [CallSendMessageStream (userMessageText K (panel_state p1)) true]
  /\ uploadedImageFile (panel_state p3) = None
  /\ uploadedImagePreview (panel_state p3) = Some url
  /\ (exists st4 ctx,
        handleSendMessage_start K (panel_state p3) = (st4, Some ctx)
        /\ msg_imageUrl (ctx_userMessage ctx) = Some url
        /\ msg_isImageQuery (ctx_userMessage ctx) = Some false)
  /\ remoteCalls (panel_state p4)
     = remoteCalls (panel_state p2) ++ [CallSendMessageStream (trim t) false].
Proof.
  intros (Href & Hkey & Hload & Hgen) Hsize Htype Hprompt Hfile Hurl Ht
    p1 p2 p3 p4.
  assert (Hp1 : panel_state p1
                = (if negb (truthy (trim (inputValue (panel_state p))))
                   then setInputValue (IMAGE_QUERY_PROMPT_DEFAULT_BN K)
                   else id)
                    (setGlobalError None
                       (setUploadedImageFile (Some (file_name f))
                          (panel_state p)))).
  { subst p1. unfold handleImageUpload.
    change (4 * 1024 * 1024) with 4194304.
    destruct (Z.ltb_spec 4194304 (file_size f)); [lia |].
    rewrite (bool_decide_eq_true_2 _ Htype). simpl.
    by destruct (negb _). }
  assert (Hfile1 : uploadedImageFile (panel_state p1) = Some (file_name f)).
  { rewrite Hp1. by destruct (negb _). }
  assert (Hcan1 : can_send (panel_state p1)).
  { rewrite Hp1. unfold can_send.
    destruct (negb _); simpl; destruct (chatSessionRef (panel_state p));
      repeat split; try done; by destruct Href. }
  assert (Htext1 : truthy (userMessageText K (panel_state p1)) = true).
  { unfold userMessageText. rewrite Hfile1.
    by destruct (truthy (trim (inputValue (panel_state p1)))) eqn:E. }
  destruct (start_accepts K _ Hcan1 Htext1) as (st2 & ctx2 & Hstart2).
  destruct (accepted_send_state K reply _ _ _ Hstart2)
    as (Hkey2 & Href2 & Hload2 & Hgen2 & _ & Hfile2 & _ & Hcalls2).
  change (handleSendMessage K reply (panel_state p1)) with (panel_state p2)
    in Hkey2, Href2, Hload2, Hgen2, Hfile2, Hcalls2.
  clearbody p2.
  assert (Hcalls1 : remoteCalls (panel_state p1)
                    = remoteCalls (panel_state p)).
  { rewrite Hp1. by destruct (negb _). }
  assert (Hp3 : panel_state p3
                = setInputValue t
                    (setUploadedImagePreview (Some url) (panel_state p2)))
    by reflexivity.
  assert (Hfile3 : uploadedImageFile (panel_state p3) = None).
  { rewrite Hp3. simpl. exact Hfile2. }
  assert (Hcan3 : can_send (panel_state p3)).
  { destruct Hcan1 as (Href1 & Hkey1 & _ & Hgen1). rewrite Hp3.
    unfold can_send. simpl. by rewrite Hkey2, Href2, Hload2, Hgen2. }
  assert (Htext3 : userMessageText K (panel_state p3) = trim t).
  { unfold userMessageText. rewrite Hp3. simpl. by rewrite Ht. }
  assert (Htext3' : truthy (userMessageText K (panel_state p3)) = true)
    by (by rewrite Htext3).
  destruct (start_accepts K _ Hcan3 Htext3') as (st4 & ctx4 & Hstart4).
  destruct (accepted_send_state K reply' _ _ _ Hstart4)
    as (_ & _ & _ & _ & _ & _ & _ & Hcalls4).
  change (handleSendMessage K reply' (panel_state p3)) with (panel_state p4)
    in Hcalls4.
  destruct (start_accepted _ _ _ _ Hstart4) as (Hctx4 & _ & _).
  split; [|split; [|split; [|split]]].
  - rewrite Hcalls2, Hcalls1. unfold sendCalls.
    by rewrite Hfile1, Hfile, bool_decide_eq_true_2.
  - exact Hfile3.
  - by rewrite Hp3.
  - exists st4, ctx4. split; [done |]. rewrite Hctx4. simpl.
    rewrite Hfile2. split.
    + unfold Some_if_truthy. by rewrite Hurl.
    + by rewrite ?bool_decide_eq_false_2 by (by intros [? ?]).
  - rewrite Hcalls4.
    replace (remoteCalls (panel_state p3)) with (remoteCalls (panel_state p2))
      by (by rewrite Hp3).
    f_equal. unfold sendCalls. rewrite Htext3, Hfile3.
    by rewrite bool_decide_eq_false_2 by (by intros [? ?]).
Qed.

Lemma late_preview_outlives_its_file_witness :
  let p3 := onInputChange (js "and this?")
              (onPreviewLoaded (Some (js "data:image/png;base64,AAAA"))
                 (panelSend sampleConstants helloReply
                    (handleImageUpload sampleConstants
                       (Some (sampleFile 1024)) readyPanel))) in
  uploadedImageFile (panel_state p3) = None
  /\ uploadedImagePreview (panel_state p3)
     = Some (js "data:image/png;base64,AAAA").
Proof.
  intros p3.
  destruct (late_preview_outlives_its_file sampleConstants (sampleFile 1024)
              (js "data:image/png;base64,AAAA") (js "and this?")
              helloReply helloReply readyPanel)
    as (_ & Hfile & Hpreview & _).
  - unfold can_send. vm_compute. repeat split; eauto.
  - vm_compute. discriminate.
  - vm_compute. apply list_elem_of_further, list_elem_of_here.
  - reflexivity.
  - reflexivity.
  - reflexivity.
  - reflexivity.
  - split; [exact Hfile | exact Hpreview].
Defined.

(** ** Errors of a change of session *)

Lemma effect_runs (prev st : State) (i : jsstring) :
  option_map ses_id (activeChatSession st) = Some i ->
  option_map ses_id (activeChatSession prev) ≠ Some i ->
  onActiveChatChange prev st = activeChatEffect st.
Proof.
  intros Hi Hprev. unfold onActiveChatChange.
  rewrite bool_decide_eq_false_2; [done |]. by rewrite Hi.
Qed.

Lemma startNewChat_session K thr model st :
  option_map ses_id (activeChatSession (startNewChat K thr model st))
  = Some (Number_toString (now st)).
Proof.
  unfold activeChatSession.
  rewrite startNewChat_active, startNewChat_sessions.
  unfold reg_get_opt. simpl. unfold Some_if_truthy.
  rewrite Number_toString_truthy. by rewrite reg_get_set_eq.
Qed.

(** X16. An error that a change of the active session reports does not
    stay on the error surface. Starting a session, selecting another session
    and initializing without a credential all end in a render with another
    active session, on which the effect of the chat panel runs and clears the
    surface, together with the input and the attached image; the message,
    such as the one of the missing credential, is gone with the render that
    would have shown it. *)
Theorem switch_errors_are_wiped K thr (st : State) :
  let prev := option_map ses_id (activeChatSession st) in
  (forall model,
      prev ≠ Some (Number_toString (now st)) ->
      let st' := startNewChat K thr model st in
      globalError (onActiveChatChange st st') = None
      /\ inputValue (onActiveChatChange st st') = []
      /\ (if_truthy (apiKey st) = None ->
          globalError st' = Some (ERROR_API_KEY_MISSING_BN K)))
  /\ (forall id s,
        reg_get id (chatSessions st) = Some s ->
        truthy id = true ->
        Some id ≠ activeChatId st ->
        prev ≠ Some (ses_id s) ->
        let st' := selectChatSession K thr id st in
        globalError (onActiveChatChange st st') = None
        /\ inputValue (onActiveChatChange st st') = []
        /\ (if_truthy (apiKey st) = None ->
            globalError st' = Some (ERROR_API_KEY_MISSING_BN K)))
  /\ (forall sid mdl,
        if_truthy (apiKey st) = None ->
        prev ≠ Some (Number_toString (now st)) ->
        let st' := initializeChatLogic K thr sid mdl st in
        globalError (onActiveChatChange st st') = None
        /\ inputValue (onActiveChatChange st st') = []
        /\ globalError st' = Some (ERROR_API_KEY_MISSING_BN K)).
Proof.
  intros prev. subst prev. split; [|split].
  - intros model Hprev st'.
    rewrite (effect_runs st st' _ (startNewChat_session K thr model st) Hprev).
    split; [done |]. split; [done |].
    intros Hkey. subst st'. unfold startNewChat. simpl. by rewrite Hkey.
  - intros id s Hs Hid Hne Hprev st'.
    assert (Hst' : st' = setIsSidebarOpen false
                     (match if_truthy (apiKey st) with
                      | Some key =>
                          if thr key
                               (mkChat (GEMINI_TEXT_MODEL_FLASH K)
                                  (ses_systemInstruction s)
                                  (replay_history (ses_messages s)))
                          then setGlobalError (Some (ERROR_INIT_FAILED_BN K))
                                 (setActiveChatId (Some id) st)
                          else setGlobalError None
                                 (setChatSessionRef
                                    (Some
                                       (mkChat (GEMINI_TEXT_MODEL_FLASH K)
                                          (ses_systemInstruction s)
                                          (replay_history (ses_messages s))))
                                    (setActiveChatId (Some id) st))
                      | None =>
                          setGlobalError (Some (ERROR_API_KEY_MISSING_BN K))
                            (setActiveChatId (Some id) st)
                      end)).
    { subst st'. unfold selectChatSession.
      rewrite (bool_decide_eq_false_2 _ Hne), Hs. done. }
    assert (Hact : option_map ses_id (activeChatSession st')
                   = Some (ses_id s)).
    { rewrite Hst'. unfold activeChatSession, reg_get_opt.
      destruct (if_truthy (apiKey st)) as [key|];
        [destruct (thr key _) |]; simpl; unfold Some_if_truthy;
        by rewrite Hid, Hs. }
    rewrite (effect_runs st st' _ Hact Hprev).
    split; [done |]. split; [done |].
    intros Hkey. rewrite Hst'. by rewrite Hkey.
  - intros sid mdl Hkey Hprev st'.
    assert (Hact : option_map ses_id (activeChatSession st')
                   = Some (Number_toString (now st))).
    { subst st'. unfold initializeChatLogic. rewrite Hkey.
      unfold activeChatSession, reg_get_opt. simpl. unfold Some_if_truthy.
      rewrite Number_toString_truthy. simpl. by rewrite decide_True. }
    rewrite (effect_runs st st' _ Hact Hprev).
    split; [done |]. split; [done |].
    subst st'. unfold initializeChatLogic. by rewrite Hkey.
Qed.

(** ** What a reload finds *)

Lemma backfillTitle_titled K s :
  truthy (ses_title s) = true -> backfillTitle K s = s.
Proof. intros H. unfold backfillTitle. by rewrite H. Qed.

Lemma backfill_titled K (r : registry) :
  Forall (fun kv => truthy (ses_title kv.2) = true) r ->
  map (fun kv => (kv.1, backfillTitle K kv.2)) r = r.
Proof.
  induction 1 as [|[k s] r Hs _ IH]; simpl; [done |].
  by rewrite (backfillTitle_titled K s Hs), IH.
Qed.

(** X17. What the flush to the durable store writes is what a reload of
    the page restores. From a state with a credential, an active session in
    the registry and no initialization under way, the flush followed by a
    start from the initial state and the initialization gives the registry
    back, with every empty title filled in and nothing else changed, makes
    the same session active, binds a handle that replays the history of that
    session, and shows no error. A registry whose titles are all set comes
    back as it was. *)
Theorem reload_restores K thr (st : State) (t : Z) (key a : jsstring)
    (s : ChatSession) :
  if_truthy (apiKey st) = Some key ->
  if_truthy (activeChatId st) = Some a ->
  reg_get a (chatSessions st) = Some s ->
  isChatInitializing st = false ->
  thr key (mkChat (GEMINI_TEXT_MODEL_FLASH K) (ses_systemInstruction s)
             (replay_history (ses_messages s))) = false ->
  let st1 := persistEffect st in
  let st2 :=
    initializeChatLogic K thr None None
      (storedState (apiKey st1) t (storedHistory st1)
         (storedActiveChatId st1)) in
  chatSessions st2
  = map (fun kv => (kv.1, backfillTitle K kv.2)) (chatSessions st)
  /\ activeChatId st2 = activeChatId st
  /\ chatSessionRef st2
     = Some (mkChat (GEMINI_TEXT_MODEL_FLASH K) (ses_systemInstruction s)
               (replay_history (ses_messages s)))
  /\ globalError st2 = None
  /\ isChatInitializing st2 = false
  /\ (Forall (fun kv => truthy (ses_title kv.2) = true) (chatSessions st) ->
      chatSessions st2 = chatSessions st).
Proof.
  intros Hkey Ha Hs Hinit Hthr st1 st2.
  assert (Hactive : truthy_opt (activeChatId st) = true).
  { revert Ha. unfold if_truthy, Some_if_truthy.
    destruct (activeChatId st) as [x|]; [|done]. simpl.
    by destruct (truthy x). }
  assert (Hlen : (0 <? Z.of_nat (length (chatSessions st))) = true).
  { destruct (chatSessions st); [done |]. apply Z.ltb_lt. simpl length. lia. }
  assert (Hst1 : st1 = setStorage (Parsed (chatSessions st)) (activeChatId st)
                         st).
  { subst st1. unfold persistEffect. by rewrite Hactive, Hlen, Hinit. }
  assert (Hfound : obj_get_opt (activeChatId st)
                     (map (fun kv => (kv.1, backfillTitle K kv.2))
                        (chatSessions st))
                   = Own (backfillTitle K s)).
  { rewrite obj_get_opt_map. unfold obj_get_opt, obj_get.
    by rewrite Ha, Hs. }
  assert (Hchat : mkChat (GEMINI_TEXT_MODEL_FLASH K)
                    (ses_systemInstruction (backfillTitle K s))
                    (replay_history (ses_messages (backfillTitle K s)))
                  = mkChat (GEMINI_TEXT_MODEL_FLASH K)
                      (ses_systemInstruction s)
                      (replay_history (ses_messages s))).
  { unfold backfillTitle. by destruct (truthy (ses_title s)). }
  assert (Hst2 : st2
                 = setIsChatInitializing false
                     (setChatSessionRef
                        (Some (mkChat (GEMINI_TEXT_MODEL_FLASH K)
                                 (ses_systemInstruction s)
                                 (replay_history (ses_messages s))))
                        (setActiveChatId (activeChatId st)
                           (setChatSessions
                              (map (fun kv => (kv.1, backfillTitle K kv.2))
                                 (chatSessions st))
                              (setGlobalError None
                                 (setIsChatInitializing true
                                    (storedState (apiKey st) t
                                       (Parsed (chatSessions st))
                                       (activeChatId st)))))))).
  { subst st2. rewrite Hst1. simpl. unfold initializeChatLogic. simpl.
    rewrite Hkey. unfold loadAll, loadAll_try. simpl.
    rewrite Hfound, Hchat, Hthr. done. }
  rewrite Hst2. simpl. repeat split; try done.
  intros Htitles. by apply backfill_titled.
Qed.

Lemma reload_restores_witness :
  let st := handleSendMessage sampleConstants helloReply
              (setInputValue (js "Say hello") (readyState 2000)) in
  chatSessions
    (initializeChatLogic sampleConstants never_throws None None
       (storedState (apiKey (persistEffect st)) 9000
          (storedHistory (persistEffect st))
          (storedActiveChatId (persistEffect st))))
  = chatSessions st.
Proof.
  intros st.
  destruct (reload_restores sampleConstants never_throws st 9000 (js "key")
              (js "1000")
              (default (freshSession sampleConstants None 0)
                 (reg_get (js "1000") (chatSessions st))))
    as (_ & _ & _ & _ & _ & Hsame).
  - vm_compute. reflexivity.
  - vm_compute. reflexivity.
  - vm_compute. reflexivity.
  - vm_compute. reflexivity.
  - reflexivity.
  - apply Hsame. vm_compute. repeat constructor.
Defined.

(** ** The guards of the controls and the guards of the handlers *)

Lemma enabled_can_send authLoading st :
  isInputCompletelyDisabled authLoading st = false -> can_send st.
Proof.
  unfold isInputCompletelyDisabled, can_send. intros H.
  repeat (apply orb_false_iff in H as [H ?]).
  repeat split; try done.
  - destruct (chatSessionRef st); [by eexists | done].
  - by destruct (truthy_opt (apiKey st)).
Qed.

(** X18. A control that is enabled never runs into a guard of its handler.
    A click on the enabled send button is accepted, so that none of the
    messages of the guards of [handleSendMessage] is shown. A click on the
    enabled button of image generation ends as refused by the quota, as
    generated or as failed. The Enter key is bound more loosely: with the
    input enabled it reaches the handlers with a blank input, which they
    ignore, and it reaches the generation of a signed-out user, which is the
    only way to the message that asks for a login. *)
Theorem enabled_controls_pass_the_guards K tz (authLoading : bool)
    (st : State) :
  (sendDisabled authLoading st = false ->
   truthy (IMAGE_QUERY_PROMPT_DEFAULT_BN K) = true ->
   exists st1 ctx, handleSendMessage_start K st = (st1, Some ctx))
  /\ (forall reply,
        generateDisabled authLoading st = false ->
        let exit := (handleGenerateImage K tz reply st).1 in
        exit = ImageQuotaExceeded \/ exit = ImageGenerated
        \/ exit = ImageFailed)
  /\ (forall reply,
        isInputCompletelyDisabled authLoading st = false ->
        let exit := (handleGenerateImage K tz reply st).1 in
        exit ≠ ImageMissingCredential
        /\ (exit = ImageIgnored <-> truthy (trim (inputValue st)) = false)
        /\ (exit = ImageLoginRequired <->
            truthy (trim (inputValue st)) = true /\ currentUser st = None))
  /\ (forall reply,
        (handleGenerateImage K tz reply st).1 = ImageLoginRequired ->
        generateDisabled authLoading st = true).
Proof.
  split; [|split; [|split]].
  - intros Hdis Hprompt. apply orb_false_iff in Hdis as [Hdis Hblank].
    apply start_accepts; [by apply (enabled_can_send authLoading) |].
    unfold userMessageText.
    destruct (truthy (trim (inputValue st))) eqn:Ht; [done |].
    destruct (uploadedImageFile st); [done |]. done.
  - intros reply Hdis exit. subst exit.
    apply orb_false_iff in Hdis as [Hdis Huser].
    apply orb_false_iff in Hdis as [Hdis _].
    apply orb_false_iff in Hdis as [Hdis Hblank].
    destruct (enabled_can_send _ _ Hdis) as (_ & Hkey & Hload & Hgen).
    unfold handleGenerateImage.
    destruct (truthy (trim (inputValue st))); [|done].
    rewrite Hload, Hgen. simpl.
    destruct (apiKey st) as [k|]; [|done]. simpl in Hkey. simpl.
    unfold Some_if_truthy. rewrite Hkey.
    destruct (currentUser st); [|by vm_compute in Huser].
    destruct (_ <=? _); [by left |].
    destruct (img_result reply); [destruct (setDoc_error reply)|]; simpl;
      eauto.
  - intros reply Hdis exit. subst exit.
    destruct (enabled_can_send _ _ Hdis) as (_ & Hkey & Hload & Hgen).
    unfold handleGenerateImage. rewrite Hload, Hgen.
    destruct (truthy (trim (inputValue st))); simpl;
      [|repeat split; try done; by intros [? ?]].
    destruct (apiKey st) as [k|]; [|done]. simpl in Hkey. simpl.
    unfold Some_if_truthy. rewrite Hkey.
    destruct (currentUser st);
      [|repeat split; try done].
    destruct (_ <=? _);
      [repeat split; try done; by intros [? ?] |].
    destruct (img_result reply); [destruct (setDoc_error reply)|]; simpl;
      repeat split; try done; by intros [? ?].
  - intros reply. unfold handleGenerateImage, generateDisabled.
    destruct (negb (truthy (trim (inputValue st))) || isLoadingBotResponse st
              || isProcessingImageGen st); [done |].
    destruct (if_truthy (apiKey st)); [|done].
    destruct (currentUser st);
      [|intros _; simpl; by rewrite !orb_true_r].
    destruct (_ <=? _); [done |].
    destruct (img_result reply); [destruct (setDoc_error reply)|]; done.
Qed.
